(** * YourDash backend: plugin registry and derived icon cache

    A shallow embedding of [src/src/applications.ts] (the plugin registry),
    [src/src/filesystem.ts] ([Filesystem.doesPathExist] and the common
    paths), the startup loop of [src/src/main.ts] and the panel routes of
    the request manager (icon renditions and quick shortcuts), together
    with the properties the design document states about them.  The rest
    of [filesystem.ts] (the startup check of the layout), the instance
    logos and the plugin part of [startup] in [main.ts], and the panel
    routes that serve them follow, with properties read off the code.

    Effects are explicit: every operation is a function from the state of
    the process (filesystem, database table, live plugin set, log of
    collaborator calls) to an outcome and a new state.  A JavaScript
    exception is an outcome, not a missing result. *)

From Stdlib Require Import Strings.String Strings.Ascii Strings.Byte List Bool Arith Lia.
From Stdlib Require Import DecimalString.
From stdpp Require Import base option list strings gmap.

Local Open Scope string_scope.
Local Open Scope list_scope.

(** ** JavaScript values that can be thrown, and completion records *)

Module JS.

(** What a [throw] statement (or a rejected promise) can carry.  Plugin
    code is third-party code: nothing forces it to throw [Error]
    objects.  The last two constructors stand for every other value,
    by what calling its [toString] does: [Object text] is a value whose
    method returns [text]; [Opaque e] is a value on which the call
    throws [e] (an object made by [Object.create(null)] has no such
    method and the call is a [TypeError]; a method of the plugin's own
    can throw anything). *)
Inductive value : Type :=
| Undefined
| Null
| Str (s : string)
| Error (name message : string)
| Object (text : string)
| Opaque (e : value).

(** Completion of a call: it returns or it throws. *)
Inductive outcome (A : Type) : Type :=
| Return (a : A)
| Throw (e : value).
Arguments Return {A} a.
Arguments Throw {A} e.

Definition TypeError (message : string) : value := Error "TypeError" message.

(** [e.toString()]: a property access on [undefined] or [null] throws a
    [TypeError]; a string is its own text; [Error.prototype.toString]
    gives the name alone when the message is empty, the message alone
    when the name is empty, and [name: message] otherwise. *)
Definition toString (e : value) : outcome string :=
  match e with
  | Undefined => Throw (TypeError "undefined is not an object")
  | Null => Throw (TypeError "null is not an object")
  | Str s => Return s
  | Error name message =>
      if String.eqb name "" then Return message
      else if String.eqb message "" then Return name
      else Return (name +:+ ": " +:+ message)
  | Object text => Return text
  | Opaque e' => Throw e'
  end.

End JS.

(** ** [path] (POSIX flavour of Node's module) *)

Module Path.

Definition slash : ascii := "/"%char.

(** The segments between separators: ["a//b"] has segments
    ["a"; ""; "b"]. *)
Fixpoint split (s : string) : list string :=
  match s with
  | EmptyString => [EmptyString]
  | String c s' =>
      if Ascii.eqb c slash then EmptyString :: split s'
      else match split s' with
           | [] => [String c EmptyString]
           | h :: t => String c h :: t
           end
  end.

Fixpoint join_slash (segs : list string) : string :=
  match segs with
  | [] => EmptyString
  | [s] => s
  | s :: rest => s +:+ "/" +:+ join_slash rest
  end.

(** One step of [normalizeString]: the stack holds the segments kept so
    far, last one first. *)
Definition step (allowAboveRoot : bool) (st : list string) (seg : string)
  : list string :=
  if String.eqb seg "" || String.eqb seg "." then st
  else if String.eqb seg ".." then
    match st with
    | top :: rest =>
        if String.eqb top ".."
        then (if allowAboveRoot then ".." :: st else st)
        else rest
    | [] => if allowAboveRoot then [".."] else []
    end
  else seg :: st.

Definition normalizeSegments (allowAboveRoot : bool) (segs : list string)
  : list string :=
  rev (fold_left (step allowAboveRoot) segs []).

Definition normalizeString (path : string) (allowAboveRoot : bool) : string :=
  join_slash (normalizeSegments allowAboveRoot (split path)).

Definition isAbsolute (path : string) : bool :=
  match path with
  | String c _ => Ascii.eqb c slash
  | EmptyString => false
  end.

Fixpoint endsWithSlash (path : string) : bool :=
  match path with
  | EmptyString => false
  | String c EmptyString => Ascii.eqb c slash
  | String _ rest => endsWithSlash rest
  end.

Definition normalize (path : string) : string :=
  if String.eqb path "" then "."
  else
    let body := normalizeString path (negb (isAbsolute path)) in
    if String.eqb body "" then
      if isAbsolute path then "/"
      else if endsWithSlash path then "./" else "."
    else
      let body := if endsWithSlash path then body +:+ "/" else body in
      if isAbsolute path then "/" +:+ body else body.

(** [path.join(...args)]: the non-empty arguments glued with ["/"], then
    normalised. *)
Definition join (args : list string) : string :=
  match List.filter (fun a => negb (String.eqb a "")) args with
  | [] => "."
  | nonEmpty => normalize (join_slash nonEmpty)
  end.

(** [path.resolve(p)] in a process whose working directory is [cwd]. *)
Definition resolve (cwd p : string) : string :=
  let afterP := if String.eqb p "" then "" else p +:+ "/" in
  let resolvedPath :=
    if isAbsolute p then afterP else cwd +:+ "/" +:+ afterP in
  let resolvedAbsolute := isAbsolute p || isAbsolute cwd in
  let body := normalizeString resolvedPath (negb resolvedAbsolute) in
  if resolvedAbsolute then "/" +:+ body
  else if String.eqb body "" then "." else body.

(** Where the operating system finds a path: the chain of directory
    entries from the root, relative paths starting at [cwd]. *)
Definition locate (cwd p : string) : list string :=
  normalizeSegments false
    (if isAbsolute p then split p else split cwd ++ split p).

(** Vocabulary for statements about paths. *)

Fixpoint noslash (s : string) : bool :=
  match s with
  | EmptyString => true
  | String c s' => negb (Ascii.eqb c slash) && noslash s'
  end.

(** A segment that names a directory entry. *)
Definition plain (s : string) : bool :=
  negb (String.eqb s "") && negb (String.eqb s ".") && negb (String.eqb s "..").

(** Segments that normalisation keeps: free of separators, not empty,
    not ["."]; below the root they are plain names. *)
Definition kept (allow : bool) (s : string) : Prop :=
  noslash s = true /\ s <> "" /\ s <> "." /\ (allow = false -> plain s = true).

(** Segments that a step drops. *)
Definition skipped (s : string) : Prop := s = "" \/ s = ".".

(** A location extended by a relative path. *)
Definition extend (loc : list string) (rel : string) : list string :=
  rev (fold_left (step false) (split rel) (rev loc)).

End Path.

(** ** Plugin descriptors and instances ([applications.ts]) *)

Module App.

Record Credit := { name : string; site : string }.

Record Credits := {
  authors : option (list Credit);
  contributors : option (list Credit);
  translators : option (list Credit);
  other : option (list Credit);
}.

(** [IYourDashApplicationConfigV1] *)
Record IYourDashApplicationConfigV1 := {
  id : string;
  displayName : string;
  description : string;
  version_major : nat;
  version_minor : nat;
  credits : Credits;
  configVersion : nat;
  frontend : option string;          (* [{ entryPoint }] *)
  externalFrontend : option string;  (* [{ url }] *)
}.

(** A lifecycle hook as overridden by a plugin: the completion of the
    call, which returns or throws.  [loadApplication] does not await
    [onLoad]: a hook that is an [async] function returns its promise,
    and a later rejection of that promise never reaches the [catch]
    block.  Only the completion is modelled: plugin code runs inside the
    process and could itself write files or change the tables, which no
    statement below speaks about. *)
Definition hook := JS.outcome unit.

Record Hooks := {
  onLoad : hook;
  onAfterInstall : hook;
  onBeforeUninstall : hook;
}.

(** The hooks of the base class: each one is [return this]. *)
Definition defaultHooks : Hooks :=
  {| onLoad := JS.Return tt;
     onAfterInstall := JS.Return tt;
     onBeforeUninstall := JS.Return tt |}.

(** class [YourDashApplication] *)
Record YourDashApplication := {
  app_id : string;                                  (* [id] *)
  __internal_params : IYourDashApplicationConfigV1;
  __internal_initializedPath : string;
  hooks : Hooks;
}.

Definition NOT_YET_LOADED : string := "NOT YET LOADED!!!!".

(** [constructor(applicationParams)].  A plugin that passes no descriptor
    makes [this.__internal_params.id] a property access on [undefined]. *)
Definition constructor (applicationParams : option IYourDashApplicationConfigV1)
    (h : Hooks) : JS.outcome YourDashApplication :=
  match applicationParams with
  | None => JS.Throw (JS.TypeError "undefined is not an object")
  | Some p =>
      JS.Return {| app_id := id p;
                   __internal_params := p;
                   __internal_initializedPath := NOT_YET_LOADED;
                   hooks := h |}
  end.

Definition set_initializedPath (a : YourDashApplication) (p : string)
  : YourDashApplication :=
  {| app_id := app_id a;
     __internal_params := __internal_params a;
     __internal_initializedPath := p;
     hooks := hooks a |}.

(** The default export of a plugin's entry module: a subclass whose
    constructor throws, or calls [super] with a descriptor (possibly
    none), and which may override the hooks. *)
Record PluginClass := {
  superArgs : JS.outcome (option IYourDashApplicationConfigV1);
  overrides : Hooks;
}.

(** [new applicationImport.default()] *)
Definition new (c : PluginClass) : JS.outcome YourDashApplication :=
  match superArgs c with
  | JS.Throw e => JS.Throw e
  | JS.Return params => constructor params (overrides c)
  end.

(** Result of the dynamic [import(...)] of an entry module: as for the
    hooks, only whether the module's evaluation throws, and the class it
    exports. *)
Inductive ImportResult :=
| ImportThrows (e : JS.value)
| Imported (default : PluginClass).

End App.

(** ** The state of the running process and its collaborators *)

Module Sys.

Import App.

Definition bytes := list Byte.byte.

Inductive node :=
| File (content : bytes)
| Dir.

Inductive hookName := OnLoad | OnAfterInstall | OnBeforeUninstall.

(** Calls that leave the core: filesystem, image service, logger, plugin
    hooks.  The log makes "this path was not touched" and "the resize
    operation ran at most once" statable. *)
Inductive call :=
| Access (path : string)
| Mkdir (path : string)
| Resize (src : string) (width height : nat) (dst : string) (format : string)
| ReadStream (path : string)
| Hook (appId : string) (h : hookName)
| LogInfo (scope : string) (messages : list string)
| ConsoleError (e : JS.value).

(** A row of the table [panel_configuration] (only the columns the
    quick-shortcut routes read and write). *)
Record PanelRow := {
  username : string;
  pinned_applications : list string;
}.

(** What the core is given and does not change: the working directory
    (an absolute path), the plugin entry modules that [import] finds,
    the pixel transform of the image library ([None]: the source cannot
    be decoded) and what a transform that fails leaves at its
    destination ([None]: nothing).

    The last two fields are the results of
    [commonPaths.GlobalCacheDirectory()] and
    [commonPaths.SystemDirectory()].  The request manager calls these
    two members, and no source file defines them: the [commonPaths] of
    [filesystem.ts] has [globalCacheDirectory] and [systemDirectory]
    only, which are [CommonPaths.globalCacheDirectory] and
    [CommonPaths.systemDirectory] below.  The two results are therefore
    parameters, and nothing ties them to the lower-case members. *)
Record Host := {
  cwd : string;
  cwd_absolute : Path.isAbsolute cwd = true;   (* [process.cwd()] *)
  importModule : string -> ImportResult;
  renderImage : bytes -> nat -> nat -> string -> option bytes;
  partialImage : bytes -> nat -> nat -> string -> option bytes;
  GlobalCacheDirectory : string;
  SystemDirectory : string;
}.

Record World := {
  host : Host;
  fs : gmap (list string) node;
  panel_configuration : list PanelRow;
  loadedApplications : list YourDashApplication;
  calls : list call;
}.

Definition M (A : Type) : Type := World -> JS.outcome A * World.

Definition ret {A} (a : A) : M A := fun w => (JS.Return a, w).

Definition bind {A B} (m : M A) (k : A -> M B) : M B :=
  fun w => match m w with
           | (JS.Return a, w') => k a w'
           | (JS.Throw e, w') => (JS.Throw e, w')
           end.

Definition throw {A} (e : JS.value) : M A := fun w => (JS.Throw e, w).

(** [try { body } catch (e) { handler(e) }] *)
Definition try_catch {A} (body : M A) (handler : JS.value -> M A) : M A :=
  fun w => match body w with
           | (JS.Return a, w') => (JS.Return a, w')
           | (JS.Throw e, w') => handler e w'
           end.

Definition lift {A} (o : JS.outcome A) : M A := fun w => (o, w).

Definition get : M World := fun w => (JS.Return w, w).

Definition set_fs (f : gmap (list string) node) (w : World) : World :=
  {| host := host w; fs := f; panel_configuration := panel_configuration w;
     loadedApplications := loadedApplications w; calls := calls w |}.

Definition set_panel_configuration (t : list PanelRow) (w : World) : World :=
  {| host := host w; fs := fs w; panel_configuration := t;
     loadedApplications := loadedApplications w; calls := calls w |}.

Definition set_loadedApplications (l : list YourDashApplication) (w : World)
  : World :=
  {| host := host w; fs := fs w; panel_configuration := panel_configuration w;
     loadedApplications := l; calls := calls w |}.

(** Append to the log of collaborator calls. *)
Definition emit (c : call) : M unit :=
  fun w => (JS.Return tt,
            {| host := host w; fs := fs w;
               panel_configuration := panel_configuration w;
               loadedApplications := loadedApplications w;
               calls := calls w ++ [c] |}).

End Sys.

Declare Scope js_scope.
Delimit Scope js_scope with js.
Notation "x <- m ;; k" := (Sys.bind m (fun x => k))
  (at level 100, m at next level, right associativity) : js_scope.
Notation "m ;; k" := (Sys.bind m (fun _ => k))
  (at level 100, right associativity) : js_scope.

(** ** Node's [fs] on the modelled filesystem *)

Module NodeFs.

Import Sys.
Local Open Scope js_scope.

Definition ENOENT (path : string) : JS.value :=
  JS.Error "Error" ("ENOENT: no such file or directory, " +:+ path).
Definition EEXIST (path : string) : JS.value :=
  JS.Error "Error" ("EEXIST: file already exists, " +:+ path).
Definition EISDIR (path : string) : JS.value :=
  JS.Error "Error" ("EISDIR: illegal operation on a directory, " +:+ path).
Definition ENOTDIR (path : string) : JS.value :=
  JS.Error "Error" ("ENOTDIR: not a directory, " +:+ path).

(** [fs.access(path, F_OK)]: resolves iff something is at [path].  The
    filesystem is a map from locations to entries, and a path is looked
    up at the location its segments name: [a/../b] is looked up as [b]
    whatever [a] is, and there are no symbolic links. *)
Definition access (path : string) : M unit :=
  (emit (Access path) ;;
   w <- get ;;
   match fs w !! Path.locate (cwd (host w)) path with
   | Some _ => ret tt
   | None => throw (ENOENT path)
   end)%js.

(** All non-empty prefixes of a location, shortest first. *)
Fixpoint ancestors_from (pre loc : list string) : list (list string) :=
  match loc with
  | [] => []
  | s :: rest => (pre ++ [s]) :: ancestors_from (pre ++ [s]) rest
  end.

Fixpoint mkdir_chain (dirs : list (list string)) (f : gmap (list string) node)
  : option (gmap (list string) node) :=
  match dirs with
  | [] => Some f
  | d :: rest =>
      match f !! d with
      | None => mkdir_chain rest (<[d := Dir]> f)
      | Some Dir => mkdir_chain rest f
      | Some (File _) => None
      end
  end.

(** The error of a recursive [mkdir] that a regular file stops:
    [ENOTDIR] when the file is above the directory to make, [EEXIST]
    when it is at its place. *)
Definition mkdir_error (loc : list string) (f : gmap (list string) node)
    (path : string) : JS.value :=
  match mkdir_chain (ancestors_from [] (removelast loc)) f with
  | Some _ => EEXIST path
  | None => ENOTDIR path
  end.

(** [mkdir(path, { recursive: true })]: creates the missing directories
    on the way; existing directories are fine; a regular file in the way
    is an error. *)
Definition mkdir_recursive (path : string) : M unit :=
  (emit (Mkdir path) ;;
   w <- get ;;
   match mkdir_chain (ancestors_from [] (Path.locate (cwd (host w)) path)) (fs w) with
   | Some f => fun w => (JS.Return tt, set_fs f w)
   | None => throw (mkdir_error (Path.locate (cwd (host w)) path) (fs w) path)
   end)%js.

(** What a read stream on [path] delivers: the content of a regular
    file, or an error event on the stream. *)
Definition createReadStream (path : string) : M (JS.outcome bytes) :=
  (emit (ReadStream path) ;;
   w <- get ;;
   match fs w !! Path.locate (cwd (host w)) path with
   | Some (File b) => ret (JS.Return b)
   | Some Dir => ret (JS.Throw (EISDIR path))
   | None => ret (JS.Throw (ENOENT path))
   end)%js.

End NodeFs.

(** ** [Filesystem] ([filesystem.ts]) *)

Module Filesystem.

Import Sys.
Local Open Scope js_scope.

(** [this.FS_ROOT = path.resolve(path.join(process.cwd(), "./fs/"))] *)
Definition FS_ROOT (h : Host) : string :=
  Path.resolve (cwd h) (Path.join [cwd h; "./fs/"]).

(** [async doesPathExist(path)]:
    [try { await fs.access(path, constants.F_OK); return true; }
     catch (e) { return false; }] *)
Definition doesPathExist (path : string) : M bool :=
  try_catch (NodeFs.access path ;; ret true) (fun e => ret false).

End Filesystem.

(** ** The image service ([image.js]) *)

Module Image.

Import Sys.
Local Open Scope js_scope.

Definition RenditionError (src : string) : JS.value :=
  JS.Error "RenditionError" src.

(** Modelled from the spec: [resizeImage] of [./image.js], a module that
    is imported by the request manager and is not among the sources.
    The design document gives its interface (sections 2 and 6): it
    "takes a source image path, target width/height, destination path,
    output format; performs the transform", with result
    [success | RenditionError], the error being raised when the source
    icon is unreadable (section 4.2).  The pixel transform itself is the
    host's [renderImage].  The design document does not say what is at
    the destination after a transform that failed, and warns of partial
    files (section 5): it is the host's [partialImage].  Without a
    regular file at the source there is nothing to transform and nothing
    is written. *)
Definition resizeImage (src : string) (width height : nat) (dst format : string)
  : M unit :=
  (emit (Resize src width height dst format) ;;
   w <- get ;;
   match fs w !! Path.locate (cwd (host w)) src with
   | Some (File content) =>
       match renderImage (host w) content width height format with
       | Some out =>
           fun w => (JS.Return tt,
                     set_fs (<[Path.locate (cwd (host w)) dst := File out]> (fs w)) w)
       | None =>
           match partialImage (host w) content width height format with
           | Some part =>
               fun w => (JS.Throw (RenditionError src),
                         set_fs (<[Path.locate (cwd (host w)) dst := File part]> (fs w)) w)
           | None => throw (RenditionError src)
           end
       end
   | _ => throw (RenditionError src)
   end)%js.

End Image.

(** ** [Applications]: the plugin registry ([applications.ts]) *)

Module Applications.

Import App Sys.
Local Open Scope js_scope.

(** [this.instance.log.info(scope, ...messages)] *)
Definition log_info (scope : string) (messages : list string) : M unit :=
  emit (LogInfo scope messages).

Definition console_error (e : JS.value) : M unit := emit (ConsoleError e).

(** [await import(specifier)] *)
Definition import (specifier : string) : M PluginClass :=
  (w <- get ;;
   match importModule (host w) specifier with
   | ImportThrows e => throw e
   | Imported c => ret c
   end)%js.

(** [this.loadedApplications.push(application)] *)
Definition push (application : YourDashApplication) : M unit :=
  fun w => (JS.Return tt,
            set_loadedApplications (loadedApplications w ++ [application]) w).

(** [application?.onLoad?.()] *)
Definition call_onLoad (application : YourDashApplication) : M unit :=
  (emit (Hook (id (__internal_params application)) OnLoad) ;;
   lift (onLoad (hooks application)))%js.

(** [async verifyApplication(applicationPath) { return this; }] *)
Definition verifyApplication (applicationPath : string) : M unit := ret tt.

Definition entryModule (applicationPath : string) : string :=
  "../../applications/" +:+ Path.join [applicationPath; "/backend/src/index.ts"].

(** [async loadApplication(applicationPath)] *)
Definition loadApplication (applicationPath : string)
  : M (option YourDashApplication) :=
  (verifyApplication applicationPath ;;
   log_info "application" ["Loading application @ " +:+ applicationPath +:+ "."] ;;
   try_catch
     (applicationImport <- import (entryModule applicationPath) ;;
      application <- lift (App.new applicationImport) ;;
      let application :=
        set_initializedPath application
          (Path.join ["./src/applications/" +:+ applicationPath]) in
      push application ;;
      call_onLoad application ;;
      ret (Some application))
     (fun e =>
        console_error e ;;
        text <- lift (JS.toString e) ;;
        log_info "application"
          ["Failed to load application @ " +:+ applicationPath +:+ "."; text] ;;
        ret None))%js.

(** [async uninstallApplication(applicationId) { return this; }] *)
Definition uninstallApplication (applicationId : string) : M unit := ret tt.

(** [loadedApplications.find((a) => a.__internal_params.id === applicationId)],
    the lookup every route uses. *)
Definition findById (applicationId : string) (l : list YourDashApplication)
  : option YourDashApplication :=
  List.find (fun a => String.eqb (id (__internal_params a)) applicationId) l.

End Applications.

(** ** The plugin loop of [Instance.startup] ([main.ts]) *)

Module Main.

Import App Sys Applications.
Local Open Scope js_scope.

(** [for (const app of applications) { await loadApplication(app);
     log.info(...) }] *)
Fixpoint loadApplications (applications : list string) : M unit :=
  match applications with
  | [] => ret tt
  | app :: rest =>
      (loadApplication app ;;
       log_info "application" ["Application " +:+ app +:+ " loaded successfully!"] ;;
       loadApplications rest)%js
  end.

(** The part of [startup] between "Loading applications..." and "All
    applications have loaded!", for the identifiers that
    [getInstalledApplications] returned. *)
Definition startup_applications (applications : list string) : M unit :=
  (log_info "startup" ["Loading applications..."] ;;
   log_info "applications"
     ["loading applications: '" +:+ String.concat "," applications +:+ "'"] ;;
   loadApplications applications ;;
   log_info "application" ["All applications have loaded!"])%js.

End Main.

(** ** The panel routes of [RequestManager] *)

Module RequestManager.

Import App Sys Applications.
Local Open Scope js_scope.

(** How the handler of an icon request ends. *)
Inductive reply :=
| Unsent (status : nat)
    (* [return res.status(404)]: the status code is set and the reply is
       returned as it is, without [send]: nothing is delivered to the
       client *)
| Sent (mimeType : string) (stream : JS.outcome bytes)
    (* [res.type(mimeType).send(stream)]: the bytes the stream delivers,
       or the error it raises *)
| NotFound
    (* the "not found" outcome of the design document (sections 4.2, 6
       and 7), delivered to the caller; no route ends this way *).

(** [sendFile(res, filePath, mimeType)] *)
Definition sendFile (filePath mimeType : string) : M reply :=
  (w <- get ;;
   stream <- NodeFs.createReadStream (Path.resolve (cwd (host w)) filePath) ;;
   ret (Sent mimeType stream))%js.

(** [mkdir] of ["fs/promises"], always called with [{ recursive: true }] *)
Definition mkdir := NodeFs.mkdir_recursive.

Definition findApplication (applicationId : string)
  : M (option YourDashApplication) :=
  (w <- get ;; ret (findById applicationId (loadedApplications w)))%js.

(** [this.instance.filesystem.commonPaths.GlobalCacheDirectory()] *)
Definition GlobalCacheDirectory : M string :=
  (w <- get ;; ret (Sys.GlobalCacheDirectory (host w)))%js.

(** [GET /core/panel/applications/app/largeGrid/:applicationId] *)
Definition largeGrid (applicationId : string) : M reply :=
  (app <- findApplication applicationId ;;
   match app with
   | None => ret (Unsent 404)
   | Some app =>
     cache <- GlobalCacheDirectory ;;
     hit <- Filesystem.doesPathExist
              (Path.join [cache; "panel/applications"; id (__internal_params app);
                          "largeGridIcon.webp"]) ;;
     if hit : bool then
       sendFile
         (Path.join [cache; "panel/applications"; id (__internal_params app);
                     "largeGridIcon.webp"])
         "image/webp"
     else
       mkdir (Path.join [cache; "panel/applications"; id (__internal_params app)]) ;;
       icon <- Filesystem.doesPathExist
                 (Path.join [__internal_initializedPath app; "./icon.avif"]) ;;
       if negb icon then
         sendFile (Path.join [cache; "panel"; "invalidIcon.webp"]) "image/webp"
       else
         Image.resizeImage
           (Path.join [__internal_initializedPath app; "./icon.avif"])
           88 88
           (Path.join [cache; "panel/applications"; id (__internal_params app);
                       "largeGridIcon.webp"])
           "webp" ;;
         sendFile
           (Path.join [cache; "panel/applications"; id (__internal_params app);
                       "largeGridIcon.webp"])
           "image/webp"
   end)%js.

(** [GET /core/panel/applications/app/smallGrid/:applicationId] *)
Definition smallGrid (applicationId : string) : M reply :=
  (app <- findApplication applicationId ;;
   match app with
   | None => ret (Unsent 404)
   | Some app =>
     cache <- GlobalCacheDirectory ;;
     hit <- Filesystem.doesPathExist
              (Path.join [cache; "panel/applications"; id (__internal_params app);
                          "smallGridIcon.webp"]) ;;
     if hit : bool then
       sendFile
         (Path.join [cache; "panel/applications"; id (__internal_params app);
                     "smallGridIcon.webp"])
         "image/webp"
     else
       mkdir (Path.join [cache; "panel/applications"; id (__internal_params app)]) ;;
       icon <- Filesystem.doesPathExist
                 (Path.join [__internal_initializedPath app; "./icon.avif"]) ;;
       if negb icon then
         sendFile (Path.join [cache; "panel"; "invalidIcon.webp"]) "image/webp"
       else
         Image.resizeImage
           (Path.join [__internal_initializedPath app; "./icon.avif"])
           88 88
           (Path.join [cache; "panel/applications"; id (__internal_params app);
                       "smallGridIcon.webp"])
           "webp" ;;
         sendFile
           (Path.join [cache; "panel/applications"; id (__internal_params app);
                       "smallGridIcon.webp"])
           "image/webp"
   end)%js.

(** [GET /core/panel/applications/app/list/:applicationId] *)
Definition listIcon (applicationId : string) : M reply :=
  (app <- findApplication applicationId ;;
   match app with
   | None => ret (Unsent 404)
   | Some app =>
     cache <- GlobalCacheDirectory ;;
     hit <- Filesystem.doesPathExist
              (Path.join [cache; "panel/applications"; id (__internal_params app);
                          "listIcon.webp"]) ;;
     if hit : bool then
       sendFile
         (Path.join [cache; "panel/applications"; id (__internal_params app);
                     "listIcon.webp"])
         "image/webp"
     else
       mkdir (Path.join [cache; "panel/applications"; id (__internal_params app)]) ;;
       icon <- Filesystem.doesPathExist
                 (Path.join [__internal_initializedPath app; "./icon.avif"]) ;;
       if negb icon then
         sendFile (Path.join [cache; "panel"; "invalidIcon.webp"]) "image/webp"
       else
         Image.resizeImage
           (Path.join [__internal_initializedPath app; "./icon.avif"])
           88 88
           (Path.join [cache; "panel/applications"; id (__internal_params app);
                       "listIcon.webp"])
           "webp" ;;
         sendFile
           (Path.join [cache; "panel/applications"; id (__internal_params app);
                       "listIcon.webp"])
           "image/webp"
   end)%js.

(** [GET /core/panel/quick-shortcut/icon/:applicationId] *)
Definition quickShortcutIcon (applicationId : string) : M reply :=
  (app <- findApplication applicationId ;;
   match app with
   | None => ret (Unsent 404)
   | Some app =>
     cache <- GlobalCacheDirectory ;;
     hit <- Filesystem.doesPathExist
              (Path.join [cache; "panel/applications"; id (__internal_params app);
                          "quickShortcut.webp"]) ;;
     if hit : bool then
       sendFile
         (Path.join [cache; "panel/applications"; id (__internal_params app);
                     "quickShortcut.webp"])
         "image/webp"
     else
       mkdir (Path.join [cache; "panel/applications"; id (__internal_params app)]) ;;
       Image.resizeImage
         (Path.join [__internal_initializedPath app; "./assets/icon.png"])
         88 88
         (Path.join [cache; "panel/applications"; id (__internal_params app);
                     "quickShortcut.webp"])
         "webp" ;;
       sendFile
         (Path.join [cache; "panel/applications"; id (__internal_params app);
                     "quickShortcut.webp"])
         "image/webp"
   end)%js.

(** The rendition kinds of the asset cache and the route that serves
    each. *)
Inductive renditionKind := LargeGridIcon | SmallGridIcon | ListIcon | QuickShortcutIcon.

Definition fetch (kind : renditionKind) (pluginId : string) : M reply :=
  match kind with
  | LargeGridIcon => largeGrid pluginId
  | SmallGridIcon => smallGrid pluginId
  | ListIcon => listIcon pluginId
  | QuickShortcutIcon => quickShortcutIcon pluginId
  end.

(** *** Quick shortcuts *)

(** [SELECT pinned_applications FROM public.panel_configuration
     WHERE username = $1] *)
Definition select_pinned_applications (user : string) : M (list PanelRow) :=
  (w <- get ;;
   ret (List.filter (fun r => String.eqb (username r) user) (panel_configuration w)))%js.

(** [UPDATE public.panel_configuration SET pinned_applications = $2
     WHERE username = $1] *)
Definition update_pinned_applications (user : string) (pins : list string)
  : M unit :=
  fun w =>
    (JS.Return tt,
     set_panel_configuration
       (List.map (fun r => if String.eqb (username r) user
                           then {| username := username r; pinned_applications := pins |}
                           else r)
                 (panel_configuration w))
       w).

(** [.filter((a) => a !== undefined)] *)
Fixpoint defined {A} (l : list (option A)) : list A :=
  match l with
  | [] => []
  | Some a :: rest => a :: defined rest
  | None :: rest => defined rest
  end.

Record Shortcut := {
  sc_displayName : string;
  sc_id : string;
  sc_endpoint : option string;
  sc_url : option string;
}.

(** [app.__internal_params.externalFrontend?.url || "example.com"] *)
Definition externalUrl (p : IYourDashApplicationConfigV1) : string :=
  match externalFrontend p with
  | Some url => if String.eqb url "" then "example.com" else url
  | None => "example.com"
  end.

Definition shortcutOf (app : YourDashApplication) : Shortcut :=
  match frontend (__internal_params app) with
  | Some _ =>
      {| sc_displayName := displayName (__internal_params app);
         sc_id := id (__internal_params app);
         sc_endpoint := Some ("/app/a/" +:+ id (__internal_params app));
         sc_url := None |}
  | None =>
      {| sc_displayName := displayName (__internal_params app);
         sc_id := id (__internal_params app);
         sc_endpoint := None;
         sc_url := Some (externalUrl (__internal_params app)) |}
  end.

(** [GET /core/panel/quick-shortcuts], for the user name of the request *)
Definition quickShortcuts (user : string) : M (list Shortcut) :=
  (rows <- select_pinned_applications user ;;
   match rows with
   | [] => throw (JS.TypeError "undefined is not an object")   (* [query.rows[0]] *)
   | row0 :: _ =>
       w <- get ;;
       let pinnedApplications :=
         defined (List.map (fun a => findById a (loadedApplications w))
                           (pinned_applications row0)) in
       ret (List.map shortcutOf pinnedApplications)
   end)%js.

(** [pinned_applications.includes(applicationId)] *)
Definition includes (l : list string) (x : string) : bool :=
  existsb (String.eqb x) l.

(** [POST /core/panel/quick-shortcuts/create]; the result is the body
    [{ success }], or nothing when the handler falls off its end. *)
Definition createQuickShortcut (user applicationId : string) : M (option bool) :=
  (w <- get ;;
   match findById applicationId (loadedApplications w) with
   | Some _ =>
       try_catch
         (previousPins <- select_pinned_applications user ;;
          match previousPins with
          | [] => throw (JS.TypeError "undefined is not an object")
          | row0 :: _ =>
              if includes (pinned_applications row0) applicationId then
                ret (Some false)
              else
                let newPins := pinned_applications row0 ++ [applicationId] in
                update_pinned_applications user newPins ;;
                ret (Some true)
          end)
         (fun error => ret (Some false))
   | None => ret None
   end)%js.

End RequestManager.

(** ** The asset cache: vocabulary of the design document *)

Module AssetCache.

Import App Sys RequestManager.
Local Open Scope js_scope.

Definition cacheFile (kind : renditionKind) : string :=
  match kind with
  | LargeGridIcon => "largeGridIcon.webp"
  | SmallGridIcon => "smallGridIcon.webp"
  | ListIcon => "listIcon.webp"
  | QuickShortcutIcon => "quickShortcut.webp"
  end.

Definition sourceFile (kind : renditionKind) : string :=
  match kind with
  | QuickShortcutIcon => "./assets/icon.png"
  | _ => "./icon.avif"
  end.

(** Whether the route looks for the source icon before it resizes. *)
Definition checksSource (kind : renditionKind) : bool :=
  match kind with
  | QuickShortcutIcon => false
  | _ => true
  end.

Definition cacheDirectory (h : Host) (app : YourDashApplication) : string :=
  Path.join [Sys.GlobalCacheDirectory h; "panel/applications";
             id (__internal_params app)].

Definition cachePath (h : Host) (kind : renditionKind) (app : YourDashApplication)
  : string :=
  Path.join [Sys.GlobalCacheDirectory h; "panel/applications";
             id (__internal_params app); cacheFile kind].

Definition sourceIcon (kind : renditionKind) (app : YourDashApplication) : string :=
  Path.join [__internal_initializedPath app; sourceFile kind].

Definition fallbackPath (h : Host) : string :=
  Path.join [Sys.GlobalCacheDirectory h; "panel"; "invalidIcon.webp"].

(** The four routes written once; [checked] tells whether the existence
    of the source icon is tested before the resize. *)
Definition route (checked : bool) (cacheFile sourceFile : string)
    (pluginId : string) : M reply :=
  (app <- findApplication pluginId ;;
   match app with
   | None => ret (Unsent 404)
   | Some app =>
     cache <- GlobalCacheDirectory ;;
     hit <- Filesystem.doesPathExist
              (Path.join [cache; "panel/applications"; id (__internal_params app);
                          cacheFile]) ;;
     if hit : bool then
       sendFile
         (Path.join [cache; "panel/applications"; id (__internal_params app);
                     cacheFile])
         "image/webp"
     else
       mkdir (Path.join [cache; "panel/applications"; id (__internal_params app)]) ;;
       let generate :=
         (Image.resizeImage
            (Path.join [__internal_initializedPath app; sourceFile])
            88 88
            (Path.join [cache; "panel/applications"; id (__internal_params app);
                        cacheFile])
            "webp" ;;
          sendFile
            (Path.join [cache; "panel/applications"; id (__internal_params app);
                        cacheFile])
            "image/webp") in
       if checked then
         icon <- Filesystem.doesPathExist
                   (Path.join [__internal_initializedPath app; sourceFile]) ;;
         if negb icon then
           sendFile (Path.join [cache; "panel"; "invalidIcon.webp"]) "image/webp"
         else generate
       else generate
   end)%js.

(** The protocol of section 4.2 of the design document, in its words:
    one routine for a request
    [(pluginId, renditionKind, targetWidth, targetHeight, outputFormat)],
    steps 1 to 6. *)
Definition protocol (renditionFile sourceFile : string)
    (targetWidth targetHeight : nat) (outputFormat contentType : string)
    (pluginId : string) : M reply :=
  (* 1. resolve the plugin instance; absent: "not found" *)
  (instance <- findApplication pluginId ;;
   match instance with
   | None => ret NotFound
   | Some instance =>
     globalCacheRoot <- GlobalCacheDirectory ;;
     (* 2. the deterministic cache path *)
     let cachePath :=
       Path.join [globalCacheRoot; "panel/applications";
                  id (__internal_params instance); renditionFile] in
     (* 3. cache hit: stream it *)
     hit <- Filesystem.doesPathExist cachePath ;;
     if hit : bool then sendFile cachePath contentType
     else
       (* 4. ensure the plugin's cache subdirectory exists *)
       mkdir (Path.join [globalCacheRoot; "panel/applications";
                         id (__internal_params instance)]) ;;
       (* 5. no source icon: stream the global fallback, uncached *)
       let sourcePath :=
         Path.join [__internal_initializedPath instance; sourceFile] in
       exists_ <- Filesystem.doesPathExist sourcePath ;;
       if negb exists_ then
         sendFile (Path.join [globalCacheRoot; "panel"; "invalidIcon.webp"])
                  contentType
       else
         (* 6. resize into the cache path, then stream it *)
         Image.resizeImage sourcePath targetWidth targetHeight cachePath outputFormat ;;
         sendFile cachePath contentType
   end)%js.

(** What is at a path. *)
Definition at_path (w : World) (path : string) : option node :=
  fs w !! Path.locate (cwd (host w)) path.

(** The directory [dir] exists or [mkdir -p] can create it: no regular
    file is in the way. *)
Definition creatable (w : World) (dir : string) : Prop :=
  match NodeFs.mkdir_chain
          (NodeFs.ancestors_from [] (Path.locate (cwd (host w)) dir)) (fs w) with
  | Some _ => true
  | None => false
  end = true.

(** A regular file is in the way of the directories above [dir]. *)
Definition blockedAbove (w : World) (dir : string) : bool :=
  match NodeFs.mkdir_chain
          (NodeFs.ancestors_from [] (removelast (Path.locate (cwd (host w)) dir)))
          (fs w) with
  | Some _ => false
  | None => true
  end.

(** Whether something is at a path. *)
Definition present (w : World) (path : string) : bool :=
  match at_path w path with Some _ => true | None => false end.

(** What a read stream on [path] delivers on filesystem [f]. *)
Definition stream_of (h : Host) (f : gmap (list string) node) (path : string)
  : JS.outcome bytes :=
  match f !! Path.locate (cwd h) path with
  | Some (File b) => JS.Return b
  | Some Dir => JS.Throw (NodeFs.EISDIR (Path.resolve (cwd h) path))
  | None => JS.Throw (NodeFs.ENOENT (Path.resolve (cwd h) path))
  end.

(** The state [w] after the filesystem became [f] and the calls [cs]
    were made. *)
Definition after (w : World) (f : gmap (list string) node) (cs : list call)
  : World :=
  {| host := host w; fs := f; panel_configuration := panel_configuration w;
     loadedApplications := loadedApplications w; calls := calls w ++ cs |}.

(** Installing a file, as an administrator does with a plugin's icon. *)
Definition install (path : string) (content : bytes) (w : World) : World :=
  set_fs (<[Path.locate (cwd (host w)) path := File content]> (fs w)) w.

Definition is_resize (c : call) : bool :=
  match c with Resize _ _ _ _ _ => true | _ => false end.

(** How often the resize operation was invoked. *)
Definition resizeCount (l : list call) : nat := length (List.filter is_resize l).

End AssetCache.

(** ** The registry and the pin list: vocabulary *)

Module Registry.

Import App Sys Applications.

(** The instance that [loadApplication] builds from a plugin class whose
    constructor hands [params] to [super]. *)
Definition instanceOf (cls : PluginClass) (params : IYourDashApplicationConfigV1)
    (applicationPath : string) : YourDashApplication :=
  {| app_id := id params; __internal_params := params;
     __internal_initializedPath := Path.join ["./src/applications/" +:+ applicationPath];
     hooks := overrides cls |}.

Definition loading (applicationPath : string) : call :=
  LogInfo "application" ["Loading application @ " +:+ applicationPath +:+ "."].

Definition failed (applicationPath text : string) : call :=
  LogInfo "application"
    ["Failed to load application @ " +:+ applicationPath +:+ "."; text].

(** The state [w] after the instances [l] joined the live set and the
    calls [cs] were made. *)
Definition registered (w : World) (l : list YourDashApplication) (cs : list call)
  : World :=
  {| host := host w; fs := fs w; panel_configuration := panel_configuration w;
     loadedApplications := loadedApplications w ++ l; calls := calls w ++ cs |}.

(** The value that loading [applicationPath] throws inside the [try]
    block, if any. *)
Definition thrown (h : Host) (applicationPath : string) : option JS.value :=
  match importModule h (entryModule applicationPath) with
  | ImportThrows e => Some e
  | Imported cls =>
      match superArgs cls with
      | JS.Throw e => Some e
      | JS.Return None => Some (JS.TypeError "undefined is not an object")
      | JS.Return (Some _) =>
          match onLoad (overrides cls) with
          | JS.Throw e => Some e
          | JS.Return _ => None
          end
      end
  end.

(** The plugin at [applicationPath] loads without any failure. *)
Definition healthy (h : Host) (applicationPath : string)
    (instance : YourDashApplication) : Prop :=
  exists cls params,
    importModule h (entryModule applicationPath) = Imported cls /\
    superArgs cls = JS.Return (Some params) /\
    onLoad (overrides cls) = JS.Return tt /\
    instance = instanceOf cls params applicationPath.

(** Whether a call is an invocation of the lifecycle hook [h]. *)
Definition is_hook (h : hookName) (c : call) : bool :=
  match c, h with
  | Hook _ OnLoad, OnLoad => true
  | Hook _ OnAfterInstall, OnAfterInstall => true
  | Hook _ OnBeforeUninstall, OnBeforeUninstall => true
  | _, _ => false
  end.

Definition isLoaded (w : World) (applicationId : string) : bool :=
  match findById applicationId (loadedApplications w) with
  | Some _ => true
  | None => false
  end.

(** The rows of [panel_configuration] that belong to a user, in table
    order; the routes read the first one. *)
Definition rowsOf (user : string) (w : World) : list PanelRow :=
  List.filter (fun r => String.eqb (username r) user) (panel_configuration w).

End Registry.

(** ** A concrete installation, for examples *)

Module Scenario.

Import App Sys.

Definition descriptor (i : string) : IYourDashApplicationConfigV1 :=
  {| id := i; displayName := "Example"; description := "An example plugin";
     version_major := 1; version_minor := 0;
     credits := {| authors := None; contributors := None;
                   translators := None; other := None |};
     configVersion := 1;
     frontend := Some "index.tsx"; externalFrontend := None |}.

Definition plugin (i : string) : PluginClass :=
  {| superArgs := JS.Return (Some (descriptor i)); overrides := defaultHooks |}.

(** Its constructor does [throw null]. *)
Definition throwsNull : PluginClass :=
  {| superArgs := JS.Throw JS.Null; overrides := defaultHooks |}.

(** Its [onLoad] throws an [Error]. *)
Definition badOnLoad (i : string) : PluginClass :=
  {| superArgs := JS.Return (Some (descriptor i));
     overrides := {| onLoad := JS.Throw (JS.Error "Error" "onLoad failed");
                     onAfterInstall := JS.Return tt;
                     onBeforeUninstall := JS.Return tt |} |}.

Definition modules (specifier : string) : ImportResult :=
  if String.eqb specifier (Applications.entryModule "uk-example-app")
  then Imported (plugin "uk-example-app")
  else if String.eqb specifier (Applications.entryModule "uk-ewsgit-dash")
  then Imported (plugin "uk-ewsgit-dash")
  else if String.eqb specifier (Applications.entryModule "uk-ewsgit-files")
  then Imported (plugin "uk-ewsgit-files")
  else if String.eqb specifier (Applications.entryModule "throws-null")
  then Imported throwsNull
  else if String.eqb specifier (Applications.entryModule "bad-onload")
  then Imported (badOnLoad "bad-onload")
  else ImportThrows (JS.Error "Error" ("Cannot find module " +:+ specifier)).

(** The image library of the example: the rendition is the source
    followed by one byte per target dimension. *)
Definition render (content : bytes) (width height : nat) (format : string)
  : option bytes :=
  match content with
  | [] => None
  | _ => Some (content ++ [Byte.x58; Byte.x58])
  end.

Definition machine : Host :=
  {| cwd := "/srv/yourdash";
     cwd_absolute := eq_refl;
     importModule := modules;
     renderImage := render;
     partialImage := fun _ _ _ _ => None;
     GlobalCacheDirectory := "/srv/yourdash/fs/Cache/";
     SystemDirectory := "/srv/yourdash/fs/System/" |}.

Definition disk : gmap (list string) node :=
  <[ ["srv"; "yourdash"; "src"; "applications"; "uk-example-app"; "icon.avif"]
     := File [Byte.x01; Byte.x02] ]>
  (<[ ["srv"; "yourdash"; "src"; "applications"; "uk-ewsgit-files"; "icon.avif"]
     := File [] ]>
  (<[ ["srv"; "yourdash"; "fs"; "Cache"; "panel"; "invalidIcon.webp"]
     := File [Byte.xff] ]> ∅)).

Definition boot : World :=
  {| host := machine; fs := disk;
     panel_configuration :=
       [ {| username := "admin";
            pinned_applications :=
              ["uk-ewsgit-dash"; "uk-ewsgit-store"; "uk-example-app"] |} ];
     loadedApplications := [];
     calls := [] |}.

(** After the startup loop over three healthy plugins. *)
Definition running : World :=
  snd (Main.loadApplications
         ["uk-example-app"; "uk-ewsgit-dash"; "uk-ewsgit-files"] boot).

(** The same installation with an image library that leaves one byte at
    its destination when it fails. *)
Definition careless : Host :=
  {| cwd := "/srv/yourdash";
     cwd_absolute := eq_refl;
     importModule := modules;
     renderImage := render;
     partialImage := fun _ _ _ _ => Some [Byte.x00];
     GlobalCacheDirectory := "/srv/yourdash/fs/Cache/";
     SystemDirectory := "/srv/yourdash/fs/System/" |}.

Definition runningCareless : World :=
  {| host := careless; fs := fs running;
     panel_configuration := panel_configuration running;
     loadedApplications := loadedApplications running;
     calls := calls running |}.

(** The instances that the loop creates. *)
Definition exampleApp : YourDashApplication :=
  Registry.instanceOf (plugin "uk-example-app") (descriptor "uk-example-app")
    "uk-example-app".

Definition dashApp : YourDashApplication :=
  Registry.instanceOf (plugin "uk-ewsgit-dash") (descriptor "uk-ewsgit-dash")
    "uk-ewsgit-dash".

Definition adminRow : PanelRow :=
  {| username := "admin";
     pinned_applications := ["uk-ewsgit-dash"; "uk-ewsgit-store"; "uk-example-app"] |}.

End Scenario.

(** ** [Filesystem]: the common paths ([filesystem.ts]) *)

Module CommonPaths.

Import Sys.

(** The members of [commonPaths] that the startup check and the
    generation of the instance logos use. *)
Definition rootDirectory (h : Host) : string := Filesystem.FS_ROOT h +:+ "/".
Definition defaultsDirectory (h : Host) : string := Filesystem.FS_ROOT h +:+ "/Defaults/".
Definition systemDirectory (h : Host) : string := Filesystem.FS_ROOT h +:+ "/System/".
Definition usersDirectory (h : Host) : string := Filesystem.FS_ROOT h +:+ "/Users/".
Definition globalCacheDirectory (h : Host) : string := Filesystem.FS_ROOT h +:+ "/Cache/".
Definition teamsDirectory (h : Host) : string := Filesystem.FS_ROOT h +:+ "/Teams/".

End CommonPaths.

(** ** [fs.promises] of Node: [mkdir] without options and [cp] *)

Module FsPromises.

Import Sys.
Local Open Scope js_scope.

Definition ERR_FS_EISDIR (path : string) : JS.value :=
  JS.Error "SystemError"
    ("Recursive option not enabled, cannot copy a directory: " +:+ path).
Definition ERR_FS_CP_NON_DIR_TO_DIR (path : string) : JS.value :=
  JS.Error "SystemError" ("Cannot overwrite directory with non-directory: " +:+ path).
Definition ERR_FS_CP_EINVAL (path : string) : JS.value :=
  JS.Error "SystemError" ("src and dest cannot be the same: " +:+ path).

(** What [mkdir(path)] does to the filesystem: the directory that holds
    [path] must exist (the root always does) and nothing may be at
    [path]. *)
Definition mkdir_at (loc : list string) (path : string) (f : gmap (list string) node)
  : JS.outcome (gmap (list string) node) :=
  match loc with
  | [] => JS.Throw (NodeFs.EEXIST path)
  | _ =>
      match f !! loc with
      | Some _ => JS.Throw (NodeFs.EEXIST path)
      | None =>
          match removelast loc with
          | [] => JS.Return (<[loc := Dir]> f)
          | parent =>
              match f !! parent with
              | Some Dir => JS.Return (<[loc := Dir]> f)
              | Some (File _) => JS.Throw (NodeFs.ENOTDIR path)
              | None => JS.Throw (NodeFs.ENOENT path)
              end
          end
      end
  end.

(** [fs.mkdir(path)] *)
Definition mkdir (path : string) : M unit :=
  (emit (Mkdir path) ;;
   w <- get ;;
   match mkdir_at (Path.locate (cwd (host w)) path) path (fs w) with
   | JS.Return f => fun w => (JS.Return tt, set_fs f w)
   | JS.Throw e => throw e
   end)%js.

(** What [cp(src, dst)] does to the filesystem, with the default options
    (not recursive, [force]): [src] must be a regular file, [dst] must not
    be a directory nor [src] itself, the missing directories above [dst]
    are created, and [dst] receives the content of [src]. *)
Definition cp_at (from to : list string) (src dst : string) (f : gmap (list string) node)
  : JS.outcome (gmap (list string) node) :=
  match f !! from with
  | None => JS.Throw (NodeFs.ENOENT src)
  | Some Dir => JS.Throw (ERR_FS_EISDIR src)
  | Some (File content) =>
      match f !! to with
      | Some Dir => JS.Throw (ERR_FS_CP_NON_DIR_TO_DIR dst)
      | _ =>
          if bool_decide (from = to) then JS.Throw (ERR_FS_CP_EINVAL dst)
          else
            match NodeFs.mkdir_chain (NodeFs.ancestors_from [] (removelast to)) f with
            | None => JS.Throw (NodeFs.ENOTDIR dst)
            | Some f' => JS.Return (<[to := File content]> f')
            end
      end
  end.

(** [fs.cp(src, dst)] *)
Definition cp (src dst : string) : M unit :=
  (w <- get ;;
   match cp_at (Path.locate (cwd (host w)) src) (Path.locate (cwd (host w)) dst)
               src dst (fs w) with
   | JS.Return f => fun w => (JS.Return tt, set_fs f w)
   | JS.Throw e => throw e
   end)%js.

End FsPromises.

(** ** The logger ([log.js]) *)

Module Logging.

Import Sys.

(** [instance.log], whose module is not among the sources.  [info] is
    recorded in the call log ([Applications.log_info]); [error] and
    [addEmphasisToString] are what the instance is given. *)
Record Log := {
  log_error : string -> list string -> M unit;
  addEmphasisToString : string -> string;
}.

(** A logger whose [error] returns and leaves everything but the call log
    alone. *)
Definition quiet (log : Log) : Prop :=
  forall scope messages w,
    exists cs,
      log_error log scope messages w = (JS.Return tt, AssetCache.after w (fs w) cs).

End Logging.

(** ** The startup check of [Filesystem] ([filesystem.ts]) *)

Module FilesystemStartup.

Import Sys CommonPaths Logging Applications.
Local Open Scope js_scope.

(** [async __internal_startup()] of [Filesystem] *)
Definition __internal_startup (log : Log) : M unit :=
  (w <- get ;;
   let h := host w in
   exists_ <- Filesystem.doesPathExist (rootDirectory h) ;;
   (if negb exists_ then
      try_catch
        (FsPromises.mkdir (rootDirectory h) ;;
         log_info "filesystem" ["Created " +:+ addEmphasisToString log (rootDirectory h) +:+ " directory."])
        (fun e =>
           console_error e ;;
           log_error log "filesystem" ["Failed to create " +:+ addEmphasisToString log (rootDirectory h) +:+ " directory."])
    else
      log_info "filesystem" ["Verified " +:+ addEmphasisToString log (rootDirectory h) +:+ " directory."]) ;;
   exists_ <- Filesystem.doesPathExist (globalCacheDirectory h) ;;
   (if negb exists_ then
      try_catch
        (FsPromises.mkdir (globalCacheDirectory h) ;;
         log_info "filesystem" ["Created " +:+ addEmphasisToString log (globalCacheDirectory h) +:+ " directory."])
        (fun e =>
           console_error e ;;
           log_error log "filesystem" ["Failed to create " +:+ addEmphasisToString log (globalCacheDirectory h) +:+ " directory."])
    else
      log_info "filesystem" ["Verified " +:+ addEmphasisToString log (globalCacheDirectory h) +:+ " directory."]) ;;
   exists_ <- Filesystem.doesPathExist (teamsDirectory h) ;;
   (if negb exists_ then
      try_catch
        (FsPromises.mkdir (teamsDirectory h) ;;
         log_info "filesystem" ["Created " +:+ addEmphasisToString log (teamsDirectory h) +:+ " directory."])
        (fun e =>
           console_error e ;;
           log_error log "filesystem" ["Failed to create " +:+ addEmphasisToString log (teamsDirectory h) +:+ " directory."])
    else
      log_info "filesystem" ["Verified " +:+ addEmphasisToString log (teamsDirectory h) +:+ " directory."]) ;;
   exists_ <- Filesystem.doesPathExist (usersDirectory h) ;;
   (if negb exists_ then
      try_catch
        (FsPromises.mkdir (usersDirectory h) ;;
         log_info "filesystem" ["Created " +:+ addEmphasisToString log (usersDirectory h) +:+ " directory."])
        (fun e =>
           console_error e ;;
           log_error log "filesystem" ["Failed to create " +:+ addEmphasisToString log (usersDirectory h) +:+ " directory."])
    else
      log_info "filesystem" ["Verified " +:+ addEmphasisToString log (usersDirectory h) +:+ " directory."]) ;;
   exists_ <- Filesystem.doesPathExist (defaultsDirectory h) ;;
   (if negb exists_ then
      try_catch
        (FsPromises.mkdir (defaultsDirectory h) ;;
         log_info "filesystem" ["Created " +:+ addEmphasisToString log (defaultsDirectory h) +:+ " directory."])
        (fun e =>
           console_error e ;;
           log_error log "filesystem" ["Failed to create " +:+ addEmphasisToString log (defaultsDirectory h) +:+ " directory."])
    else
      log_info "filesystem" ["Verified " +:+ addEmphasisToString log (defaultsDirectory h) +:+ " directory."]) ;;
   exists_ <- Filesystem.doesPathExist (systemDirectory h) ;;
   (if negb exists_ then
      try_catch
        (FsPromises.mkdir (systemDirectory h) ;;
         log_info "filesystem" ["Created " +:+ addEmphasisToString log (systemDirectory h) +:+ " directory."])
        (fun e =>
           console_error e ;;
           log_error log "filesystem" ["Failed to create " +:+ addEmphasisToString log (systemDirectory h) +:+ " directory."])
    else
      log_info "filesystem" ["Verified " +:+ addEmphasisToString log (systemDirectory h) +:+ " directory."]) ;;
   exists_ <- Filesystem.doesPathExist (Path.join [defaultsDirectory h; "userAvatar.png"]) ;;
   (if negb exists_ then
      try_catch
        (FsPromises.cp (Path.join [cwd h; "src/backend/defaults/userAvatar.png"])
           (Path.join [defaultsDirectory h; "userAvatar.png"]) ;;
         log_info "filesystem" ["Coppied default asset " +:+ addEmphasisToString log "userAvatar.png" +:+ "."])
        (fun e =>
           console_error e ;;
           log_error log "filesystem" ["Failed to copy default asset " +:+ addEmphasisToString log "userAvatar.png" +:+ "."])
    else
      log_info "filesystem" ["Verified " +:+ Path.join [defaultsDirectory h; "userAvatar.png"] +:+ " exists."]) ;;
   exists_ <- Filesystem.doesPathExist (Path.join [systemDirectory h; "loginBackground.avif"]) ;;
   (if negb exists_ then
      try_catch
        (FsPromises.cp (Path.join [cwd h; "src/backend/defaults/default_login_background.avif"])
           (Path.join [systemDirectory h; "loginBackground.avif"]) ;;
         log_info "filesystem" ["Coppied system asset " +:+ addEmphasisToString log "loginBackground.avif" +:+ "."])
        (fun e =>
           console_error e ;;
           log_error log "filesystem" ["Failed to copy system asset " +:+ addEmphasisToString log "loginBackground.avif" +:+ "."])
    else
      log_info "filesystem" ["Verified " +:+ Path.join [systemDirectory h; "loginBackground.avif"] +:+ " exists."]) ;;
   exists_ <- Filesystem.doesPathExist (Path.join [systemDirectory h; "instanceLogo.png"]) ;;
   (if negb exists_ then
      try_catch
        (FsPromises.cp (Path.join [cwd h; "src/backend/defaults/yourdash.png"])
           (Path.join [systemDirectory h; "instanceLogo.png"]) ;;
         log_info "filesystem" ["Coppied system asset " +:+ addEmphasisToString log "instanceLogo.png" +:+ "."])
        (fun e =>
           console_error e ;;
           log_error log "filesystem" ["Failed to copy system asset " +:+ addEmphasisToString log "instanceLogo.png" +:+ "."])
    else
      log_info "filesystem" ["Verified " +:+ Path.join [systemDirectory h; "instanceLogo.png"] +:+ " exists."]) ;;
   exists_ <- Filesystem.doesPathExist (Path.join [globalCacheDirectory h; "panel/applications"]) ;;
   (if negb exists_ then
      try_catch
        (NodeFs.mkdir_recursive (Path.join [globalCacheDirectory h; "panel/applications"]) ;;
         log_info "filesystem" ["Created " +:+ addEmphasisToString log (Path.join [globalCacheDirectory h; "panel/applications"]) +:+ " directory."])
        (fun e =>
           console_error e ;;
           log_error log "filesystem" ["Failed to create " +:+ addEmphasisToString log (Path.join [globalCacheDirectory h; "panel/applications"]) +:+ " directory."])
    else
      log_info "filesystem" ["Verified " +:+ addEmphasisToString log (Path.join [globalCacheDirectory h; "panel/applications"]) +:+ " directory."]) ;;
   exists_ <- Filesystem.doesPathExist (Path.join [globalCacheDirectory h; "panel"; "invalidIcon.webp"]) ;;
   (if negb exists_ then
      try_catch
        (FsPromises.cp (Path.join [cwd h; "src/backend/defaults/yourdash.png"])
           (Path.join [globalCacheDirectory h; "panel"; "invalidIcon.webp"]) ;;
         log_info "filesystem" ["Coppied system asset " +:+ addEmphasisToString log "invalidIcon.webp" +:+ "."])
        (fun e =>
           console_error e ;;
           log_error log "filesystem" ["Failed to copy system asset " +:+ addEmphasisToString log "invalidIcon.webp" +:+ "."])
    else
      log_info "filesystem" ["Verified " +:+ Path.join [globalCacheDirectory h; "panel"; "invalidIcon.webp"] +:+ " exists."]) ;;
   log_info "filesystem" ["Verified filesystem structure!"])%js.

End FilesystemStartup.

(** ** [Instance]: the instance logos and the plugins of a startup ([main.ts]) *)

Module Configuration.

Import Sys.
Local Open Scope js_scope.

(** A row of the table [configuration] (the columns that
    [getInstalledApplications] orders by and reads); the column
    [installed_applications] can be [NULL]. *)
Record ConfigurationRow := {
  config_version : nat;
  installed_applications : option (list string);
}.

(** [ORDER BY config_version DESC LIMIT 1] *)
Fixpoint newest (table : list ConfigurationRow) : list ConfigurationRow :=
  match table with
  | [] => []
  | r :: rest =>
      match newest rest with
      | r' :: _ => if Nat.ltb (config_version r') (config_version r) then [r] else [r']
      | [] => [r]
      end
  end.

(** [async getInstalledApplications()], on the rows of [configuration]:
    [let val = query.rows[0].installed_applications; return val || [];] *)
Definition getInstalledApplications (table : list ConfigurationRow) : M (list string) :=
  match newest table with
  | [] => throw (JS.TypeError "undefined is not an object")
  | row0 :: _ =>
      match installed_applications row0 with
      | Some val => ret val
      | None => ret []
      end
  end.

End Configuration.

Module Instance.

Import Sys CommonPaths Applications Configuration.
Local Open Scope js_scope.

Definition requiredDimensions : list nat := [32; 40; 64; 128; 256; 512; 768; 1024].

(** A number inside a template literal. *)
Definition number (n : nat) : string := NilEmpty.string_of_uint (Nat.to_uint n).

(** The loop of [__internal_generateInstanceLogos]. *)
Fixpoint generateLogos (instanceLogoPath : string) (dimensions : list nat) : M unit :=
  match dimensions with
  | [] => ret tt
  | dimension :: rest =>
      (w <- get ;;
       exists_ <- Filesystem.doesPathExist
                    (Path.join [Path.join [systemDirectory (host w);
                                           "instanceLogo" +:+ number dimension +:+ ".webp"]]) ;;
       if exists_ : bool then
         log_info "instance"
           ["instanceLogo @ " +:+ number dimension
            +:+ " already exists. Not generating new logo"] ;;
         generateLogos instanceLogoPath rest
       else
         Image.resizeImage instanceLogoPath dimension dimension
           (Path.join [Path.join [systemDirectory (host w);
                                  "instanceLogo" +:+ number dimension +:+ ".webp"]])
           "webp" ;;
         log_info "instance" ["Genertated instanceLogo @ " +:+ number dimension +:+ "."] ;;
         generateLogos instanceLogoPath rest)%js
  end.

(** [async __internal_generateInstanceLogos()] *)
Definition __internal_generateInstanceLogos : M unit :=
  (log_info "instance" ["Generating instanceLogos."] ;;
   w <- get ;;
   let instanceLogoPath := Path.join [systemDirectory (host w); "instanceLogo.png"] in
   generateLogos instanceLogoPath requiredDimensions)%js.

(** The part of [startup] from the instance logos to "All applications
    have loaded!", on the rows of the table [configuration]. *)
Definition startup_plugins (table : list ConfigurationRow) : M unit :=
  (__internal_generateInstanceLogos ;;
   log_info "startup" ["YourDash RequestManager Startup Complete!"] ;;
   log_info "startup" ["Loading applications..."] ;;
   applications <- getInstalledApplications table ;;
   log_info "applications"
     ["loading applications: '" +:+ String.concat "," applications +:+ "'"] ;;
   Main.loadApplications applications ;;
   log_info "application" ["All applications have loaded!"])%js.

End Instance.

(** ** More panel routes of [RequestManager] *)

Module Panel.

Import App Sys RequestManager.
Local Open Scope js_scope.

(** [this.instance.filesystem.commonPaths.SystemDirectory()] *)
Definition SystemDirectory : M string :=
  (w <- get ;; ret (Sys.SystemDirectory (host w)))%js.

(** [GET /login/instance/background] *)
Definition loginBackground : M reply :=
  (system <- SystemDirectory ;;
   sendFile (Path.join [system; "loginBackground.avif"]) "image/avif")%js.

(** [GET /panel/logo/small] *)
Definition logoSmall : M reply :=
  (system <- SystemDirectory ;;
   sendFile (Path.join [system; "instanceLogo32.webp"]) "image/webp")%js.

(** [GET /panel/logo/medium] *)
Definition logoMedium : M reply :=
  (system <- SystemDirectory ;;
   sendFile (Path.join [system; "instanceLogo40.webp"]) "image/webp")%js.

(** [GET /panel/logo/large] *)
Definition logoLarge : M reply :=
  (system <- SystemDirectory ;;
   sendFile (Path.join [system; "instanceLogo128.webp"]) "image/webp")%js.

(** An entry of the answer of [GET /core/panel/applications]. *)
Record ApplicationEntry := {
  ae_id : string;
  ae_displayName : string;
  ae_description : string;
  ae_type : string;
  ae_endpoint : string;
}.

(** [GET /core/panel/applications] *)
Definition panelApplications : M (list ApplicationEntry) :=
  (w <- get ;;
   ret (List.map
          (fun app =>
             {| ae_id := id (__internal_params app);
                ae_displayName := displayName (__internal_params app);
                ae_description := description (__internal_params app);
                ae_type := "frontend";
                ae_endpoint := "/app/a/" +:+ id (__internal_params app) +:+ "/" |})
          (loadedApplications w)))%js.

End Panel.

(** ** The startup check as a list of provisioning steps: vocabulary *)

Module Layout.

Import Sys CommonPaths Logging Applications.
Local Open Scope js_scope.

Inductive provisionStep :=
| MakeDirectory (path : string)       (* [fs.mkdir(path)] *)
| MakeDirectories (path : string)     (* [fs.mkdir(path, { recursive: true })] *)
| CopyAsset (src dst : string).       (* [fs.cp(src, dst)] *)

(** The path whose existence decides whether the step runs. *)
Definition target (s : provisionStep) : string :=
  match s with
  | MakeDirectory path => path
  | MakeDirectories path => path
  | CopyAsset _ dst => dst
  end.

Definition create (s : provisionStep) : M unit :=
  match s with
  | MakeDirectory path => FsPromises.mkdir path
  | MakeDirectories path => NodeFs.mkdir_recursive path
  | CopyAsset src dst => FsPromises.cp src dst
  end.

(** A default asset shipped with the backend. *)
Definition defaultAsset (h : Host) (file : string) : string :=
  Path.join [cwd h; "src/backend/defaults/" +:+ file].

(** The eleven steps of [__internal_startup], in its order. *)
Definition steps (h : Host) : list provisionStep :=
  [ MakeDirectory (rootDirectory h);
    MakeDirectory (globalCacheDirectory h);
    MakeDirectory (teamsDirectory h);
    MakeDirectory (usersDirectory h);
    MakeDirectory (defaultsDirectory h);
    MakeDirectory (systemDirectory h);
    CopyAsset (defaultAsset h "userAvatar.png")
              (Path.join [defaultsDirectory h; "userAvatar.png"]);
    CopyAsset (defaultAsset h "default_login_background.avif")
              (Path.join [systemDirectory h; "loginBackground.avif"]);
    CopyAsset (defaultAsset h "yourdash.png")
              (Path.join [systemDirectory h; "instanceLogo.png"]);
    MakeDirectories (Path.join [globalCacheDirectory h; "panel/applications"]);
    CopyAsset (defaultAsset h "yourdash.png")
              (Path.join [globalCacheDirectory h; "panel"; "invalidIcon.webp"]) ].

(** One block of [__internal_startup], followed by the rest of the
    function: test, create or report, with its three messages. *)
Definition block (log : Log) (s : provisionStep) (created failed verified : string)
    (next : M unit) : M unit :=
  (exists_ <- Filesystem.doesPathExist (target s) ;;
   (if negb exists_ then
      try_catch
        (create s ;;
         log_info "filesystem" [created])
        (fun e =>
           console_error e ;;
           log_error log "filesystem" [failed])
    else
      log_info "filesystem" [verified]) ;;
   next)%js.

Fixpoint blocks (log : Log) (script : list (provisionStep * (string * string * string)))
    (finally : M unit) : M unit :=
  match script with
  | [] => finally
  | (s, (created, failed, verified)) :: rest =>
      block log s created failed verified (blocks log rest finally)
  end.

(** What a step that runs does to the filesystem. *)
Definition attempt (h : Host) (s : provisionStep) (f : gmap (list string) node)
  : JS.outcome (gmap (list string) node) :=
  match s with
  | MakeDirectory path => FsPromises.mkdir_at (Path.locate (cwd h) path) path f
  | MakeDirectories path =>
      match NodeFs.mkdir_chain (NodeFs.ancestors_from [] (Path.locate (cwd h) path)) f with
      | Some f' => JS.Return f'
      | None => JS.Throw (NodeFs.mkdir_error (Path.locate (cwd h) path) f path)
      end
  | CopyAsset src dst =>
      FsPromises.cp_at (Path.locate (cwd h) src) (Path.locate (cwd h) dst) src dst f
  end.

(** What a block does to the filesystem: nothing when its target exists
    or its step fails. *)
Definition ensure (h : Host) (f : gmap (list string) node) (s : provisionStep)
  : gmap (list string) node :=
  match f !! Path.locate (cwd h) (target s) with
  | Some _ => f
  | None =>
      match attempt h s f with
      | JS.Return f' => f'
      | JS.Throw _ => f
      end
  end.

Definition provision (h : Host) (f : gmap (list string) node) : gmap (list string) node :=
  fold_left (ensure h) (steps h) f.

(** Where the working directory and the filesystem root are. *)
Definition workingDirectory (h : Host) : list string := Path.locate (cwd h) (cwd h).

Definition root (h : Host) : list string := workingDirectory h ++ ["fs"].

(** The directories of the layout. *)
Definition directories (h : Host) : list string :=
  [ rootDirectory h; globalCacheDirectory h; teamsDirectory h; usersDirectory h;
    defaultsDirectory h; systemDirectory h;
    Path.join [globalCacheDirectory h; "panel/applications"] ].

(** Where the layout wants directories: every directory from the top
    down to the cache of the panel, and the other directories below the
    root. *)
Definition obstacles (h : Host) : list (list string) :=
  NodeFs.ancestors_from []
    (Path.locate (cwd h) (Path.join [globalCacheDirectory h; "panel/applications"]))
  ++ map (Path.locate (cwd h))
         [teamsDirectory h; usersDirectory h; defaultsDirectory h; systemDirectory h].

Definition notFile (f : gmap (list string) node) (loc : list string) : bool :=
  match f !! loc with
  | Some (File _) => false
  | _ => true
  end.

(** No regular file is where the layout wants a directory. *)
Definition unobstructed (w : World) : bool :=
  forallb (notFile (fs w)) (obstacles (host w)).

(** Every target of the startup check exists. *)
Definition laidOut (w : World) : bool :=
  forallb (fun s => match fs w !! Path.locate (cwd (host w)) (target s) with
                    | Some _ => true
                    | None => false
                    end)
          (steps (host w)).

(** The locations that a step can create. *)
Definition touched (h : Host) (s : provisionStep) : list (list string) :=
  match s with
  | MakeDirectory path => [Path.locate (cwd h) path]
  | MakeDirectories path => NodeFs.ancestors_from [] (Path.locate (cwd h) path)
  | CopyAsset _ dst =>
      Path.locate (cwd h) dst :: NodeFs.ancestors_from [] (Path.locate (cwd h) dst)
  end.

(** What is at [path] after a step that puts [n] there when nothing is
    there yet. *)
Definition settled (before : option node) (n : node) : option node :=
  match before with
  | Some existing => Some existing
  | None => Some n
  end.

End Layout.

(** ** The instance logos: vocabulary *)

Module Logos.

Import Sys CommonPaths.

(** The source of the instance logos. *)
Definition instanceLogoPath (h : Host) : string :=
  Path.join [systemDirectory h; "instanceLogo.png"].

(** The rendition of the instance logo for a dimension. *)
Definition logoPath (h : Host) (dimension : nat) : string :=
  Path.join [Path.join [systemDirectory h;
                        "instanceLogo" +:+ Instance.number dimension +:+ ".webp"]].

Definition logoFile (dimension : nat) : string :=
  "instanceLogo" +:+ Instance.number dimension +:+ ".webp".

(** The calls of one iteration that finds its rendition. *)
Definition found (h : Host) (dimension : nat) : list call :=
  [ Access (logoPath h dimension);
    LogInfo "instance"
      ["instanceLogo @ " +:+ Instance.number dimension
       +:+ " already exists. Not generating new logo"] ].

(** The calls of one iteration that generates its rendition. *)
Definition made (h : Host) (dimension : nat) : list call :=
  [ Access (logoPath h dimension);
    Resize (instanceLogoPath h) dimension dimension (logoPath h dimension) "webp";
    LogInfo "instance" ["Genertated instanceLogo @ " +:+ Instance.number dimension +:+ "."] ].

(** The calls of one iteration whose resize fails. *)
Definition stopped (h : Host) (dimension : nat) : list call :=
  [ Access (logoPath h dimension);
    Resize (instanceLogoPath h) dimension dimension (logoPath h dimension) "webp" ].

End Logos.

(** ** What a startup registers: vocabulary *)

Module Plugins.

Import App Sys Applications Registry.

(** The instance that loading [applicationPath] appends to the live set:
    none when the import or the constructor fails. *)
Definition registers (h : Host) (applicationPath : string) : list YourDashApplication :=
  match importModule h (entryModule applicationPath) with
  | ImportThrows _ => []
  | Imported cls =>
      match superArgs cls with
      | JS.Return (Some params) => [instanceOf cls params applicationPath]
      | _ => []
      end
  end.

(** Whatever a plugin of the list throws while it loads, the
    [e.toString()] of the [catch] block returns on it. *)
Definition printable (h : Host) (applications : list string) : Prop :=
  forall p e, In p applications -> thrown h p = Some e ->
              exists text, JS.toString e = JS.Return text.

(** The state after the rows of [user] received the pin list [pins]. *)
Definition withPins (user : string) (pins : list string) (w : World) : World :=
  set_panel_configuration
    (List.map (fun r => if String.eqb (username r) user
                        then {| username := username r; pinned_applications := pins |}
                        else r)
              (panel_configuration w))
    w.

End Plugins.

(** ** A machine on which the backend has not run yet, for examples *)

Module Deployment.

Import Sys Logging.

(** A logger that records errors like information and does not decorate. *)
Definition logger : Log :=
  {| log_error := fun scope messages => Applications.log_info scope messages;
     addEmphasisToString := fun s => s |}.

(** The working directory and the default assets of the backend. *)
Definition shipped : gmap (list string) node :=
  <[ ["srv"; "yourdash"] := Dir ]>
  (<[ ["srv"; "yourdash"; "src"; "backend"; "defaults"; "userAvatar.png"]
      := File [Byte.x0a] ]>
  (<[ ["srv"; "yourdash"; "src"; "backend"; "defaults"; "default_login_background.avif"]
      := File [Byte.x0b] ]>
  (<[ ["srv"; "yourdash"; "src"; "backend"; "defaults"; "yourdash.png"]
      := File [Byte.x0c] ]> ∅))).

Definition unpacked : World :=
  {| host := Scenario.machine; fs := shipped;
     panel_configuration := []; loadedApplications := []; calls := [] |}.

(** After the startup check of the filesystem. *)
Definition provisioned : World :=
  snd (FilesystemStartup.__internal_startup logger unpacked).

(** After the instance logos were generated. *)
Definition branded : World :=
  snd (Instance.__internal_generateInstanceLogos provisioned).

(** The rendition that the image library of the example makes of the
    shipped logo, whatever the dimension. *)
Definition rendition (dimension : nat) : bytes := [Byte.x0c; Byte.x58; Byte.x58].

(** Two versions of the configuration; the newer one installs two
    plugins. *)
Definition previous : Configuration.ConfigurationRow :=
  {| Configuration.config_version := 1;
     Configuration.installed_applications := Some ["uk-ewsgit-files"] |}.

Definition current : Configuration.ConfigurationRow :=
  {| Configuration.config_version := 2;
     Configuration.installed_applications := Some ["uk-example-app"; "uk-ewsgit-dash"] |}.

Definition configuration : list Configuration.ConfigurationRow := [previous; current].

End Deployment.

(** * Properties *)

(** ** Paths: what normalisation keeps and where a resolved path lands *)

Module PathFacts.

Import Path.

Example join_cache_path :
  join ["/srv/yourdash/fs/Cache/"; "panel/applications"; "uk-ewsgit-dash"; "listIcon.webp"]
  = "/srv/yourdash/fs/Cache/panel/applications/uk-ewsgit-dash/listIcon.webp".
Proof. reflexivity. Qed.

Example join_source_icon :
  join ["src/applications/uk-ewsgit-dash"; "./icon.avif"]
  = "src/applications/uk-ewsgit-dash/icon.avif".
Proof. reflexivity. Qed.

Example join_dots : join ["a"; "../../b/"; "."; "c//d"] = "../b/c/d".
Proof. reflexivity. Qed.

Example normalize_root : normalize "/../a/./b/.." = "/a".
Proof. reflexivity. Qed.

Example resolve_relative : resolve "/srv/yourdash" "fs/./Cache//x" = "/srv/yourdash/fs/Cache/x".
Proof. reflexivity. Qed.

Example locate_relative :
  locate "/srv/yourdash" "src/applications/a/./icon.avif"
  = ["srv"; "yourdash"; "src"; "applications"; "a"; "icon.avif"].
Proof. reflexivity. Qed.

Lemma split_nonempty s : split s <> [].
Proof.
  destruct s as [|c s]; simpl; [discriminate|].
  destruct (Ascii.eqb c slash); [discriminate|].
  destruct (split s); discriminate.
Qed.

Lemma split_app_slash x y : split (x +:+ String slash y) = split x ++ split y.
Proof.
  induction x as [|c x IH]; simpl.
  - reflexivity.
  - destruct (Ascii.eqb c slash).
    + now rewrite IH.
    + rewrite IH. pose proof (split_nonempty x) as Hne.
      destruct (split x) as [|h t]; [contradiction|reflexivity].
Qed.

Lemma split_noslash_all s : Forall (fun x => noslash x = true) (split s).
Proof.
  induction s as [|c s IH]; simpl.
  - repeat constructor.
  - destruct (Ascii.eqb c slash) eqn:Hc.
    + constructor; [reflexivity|exact IH].
    + destruct (split s) as [|h t]; [repeat constructor; simpl; now rewrite Hc|].
      inversion IH as [|? ? Hh Ht]; subst.
      constructor; [simpl; now rewrite Hc, Hh | exact Ht].
Qed.

Lemma split_of_noslash s : noslash s = true -> split s = [s].
Proof.
  induction s as [|c s IH]; simpl; [reflexivity|].
  intros H. apply andb_true_iff in H as [Hc Hs].
  apply negb_true_iff in Hc. rewrite Hc, (IH Hs). reflexivity.
Qed.

Lemma split_join_slash segs :
  Forall (fun x => noslash x = true) segs -> segs <> [] ->
  split (join_slash segs) = segs.
Proof.
  induction segs as [|s rest IH]; intros Hall Hne; [contradiction|].
  inversion Hall as [|? ? Hs Hrest]; subst.
  destruct rest as [|s2 rest].
  - simpl. now apply split_of_noslash.
  - change (join_slash (s :: s2 :: rest))
      with (s +:+ String slash (join_slash (s2 :: rest))).
    rewrite split_app_slash, (split_of_noslash _ Hs), IH by (auto; discriminate).
    reflexivity.
Qed.

Lemma step_kept allow st seg :
  noslash seg = true -> Forall (kept allow) st -> Forall (kept allow) (step allow st seg).
Proof.
  intros Hseg Hst. unfold step.
  destruct (String.eqb seg "") eqn:E1; simpl; [exact Hst|].
  destruct (String.eqb seg ".") eqn:E2; simpl; [exact Hst|].
  destruct (String.eqb seg "..") eqn:E3.
  - destruct st as [|top rest].
    + destruct allow; repeat constructor; try discriminate.
    + inversion Hst; subst.
      destruct (String.eqb top ".."); [|assumption].
      destruct allow; [|assumption].
      constructor; [|assumption]. repeat split; try discriminate.
  - constructor; [|exact Hst].
    repeat split; [exact Hseg| | |].
    + intros ->. discriminate.
    + intros ->. discriminate.
    + intros _. unfold plain. now rewrite E1, E2, E3.
Qed.

Lemma fold_step_kept allow segs st :
  Forall (fun x => noslash x = true) segs -> Forall (kept allow) st ->
  Forall (kept allow) (fold_left (step allow) segs st).
Proof.
  revert st. induction segs as [|seg segs IH]; intros st Hsegs Hst; simpl.
  - exact Hst.
  - inversion Hsegs; subst. apply IH; [assumption|]. now apply step_kept.
Qed.

Lemma normalizeSegments_kept allow s :
  Forall (kept allow) (normalizeSegments allow (split s)).
Proof.
  unfold normalizeSegments. apply Forall_rev.
  apply fold_step_kept; [apply split_noslash_all | constructor].
Qed.

Lemma fold_step_plain allow segs st :
  Forall (fun x => plain x = true) segs ->
  fold_left (step allow) segs st = rev segs ++ st.
Proof.
  revert st. induction segs as [|seg segs IH]; intros st H; simpl; [reflexivity|].
  inversion H as [|? ? Hp Hrest]; subst.
  rewrite IH by assumption.
  unfold step, plain in *.
  destruct (String.eqb seg ""), (String.eqb seg "."), (String.eqb seg "..");
    try discriminate.
  simpl. now rewrite <- app_assoc.
Qed.

Lemma normalizeSegments_app_empty allow segs :
  normalizeSegments allow (segs ++ [""]) = normalizeSegments allow segs.
Proof. unfold normalizeSegments. now rewrite fold_left_app. Qed.

Lemma normalizeSegments_idem segs s :
  segs = normalizeSegments false (split s) ->
  normalizeSegments false ("" :: split (join_slash segs)) = segs.
Proof.
  intros Hsegs.
  assert (Hk : Forall (kept false) segs) by (subst; apply normalizeSegments_kept).
  assert (Hplain : Forall (fun x => plain x = true) segs).
  { eapply Forall_impl; [exact Hk|]. intros x (_ & _ & _ & Hp). now apply Hp. }
  destruct segs as [|x rest] eqn:E; [reflexivity|]. rewrite <- E in *.
  rewrite split_join_slash.
  - unfold normalizeSegments. simpl fold_left. change (step false [] "") with (@nil string).
    rewrite fold_step_plain by assumption. now rewrite app_nil_r, rev_involutive.
  - eapply Forall_impl; [exact Hk|]. now intros y (Hy & _).
  - rewrite E. discriminate.
Qed.

(** A path and its [path.resolve] name the same place. *)
Lemma locate_resolve cwd p :
  isAbsolute cwd = true -> locate cwd (resolve cwd p) = locate cwd p.
Proof.
  intros Hcwd. unfold resolve. rewrite Hcwd, orb_true_r. simpl negb.
  unfold locate at 1. simpl isAbsolute.
  change (Ascii.eqb "/" slash) with true. cbv iota.
  change (split ("/" +:+ ?x)) with ("" :: split x).
  unfold normalizeString.
  erewrite normalizeSegments_idem by reflexivity.
  unfold locate.
  destruct (isAbsolute p) eqn:Hp.
  - destruct p as [|c p]; [discriminate|]. simpl String.eqb. cbv iota.
    change (String c p +:+ "/") with (String c p +:+ String slash "").
    rewrite split_app_slash. apply normalizeSegments_app_empty.
  - change (cwd +:+ "/" +:+ ?x) with (cwd +:+ String slash x).
    rewrite split_app_slash.
    destruct (String.eqb p "") eqn:E.
    + apply String.eqb_eq in E. now subst.
    + change (p +:+ "/") with (p +:+ String slash "").
      rewrite split_app_slash, app_assoc. apply normalizeSegments_app_empty.
Qed.

Lemma isAbsolute_join_slash x rest :
  x <> "" -> noslash x = true -> isAbsolute (join_slash (x :: rest)) = false.
Proof.
  intros Hx Hn. destruct x as [|c x]; [contradiction|].
  simpl in Hn. apply andb_true_iff in Hn as [Hc _]. apply negb_true_iff in Hc.
  destruct rest; simpl; exact Hc.
Qed.

Lemma isAbsolute_app x y : x <> "" -> isAbsolute (x +:+ y) = isAbsolute x.
Proof. destruct x; [contradiction|reflexivity]. Qed.

Lemma join_slash_nonempty x rest : x <> "" -> join_slash (x :: rest) <> "".
Proof. destruct x; [contradiction|]. destruct rest; discriminate. Qed.

Lemma join_slash_snoc l g :
  l <> [] -> join_slash (l ++ [g]) = join_slash l +:+ String slash g.
Proof.
  induction l as [|x l IH]; intros Hne; [contradiction|].
  destruct l as [|y l].
  - reflexivity.
  - change (join_slash ((x :: y :: l) ++ [g]))
      with (x +:+ String slash (join_slash ((y :: l) ++ [g]))).
    rewrite IH by discriminate.
    change (join_slash (x :: y :: l)) with (x +:+ String slash (join_slash (y :: l))).
    generalize (join_slash (y :: l)). intros t.
    induction x as [|c x IHx]; [reflexivity|].
    change (String c (x +:+ String slash (t +:+ String slash g))
            = String c ((x +:+ String slash t) +:+ String slash g)).
    now rewrite IHx.
Qed.

Lemma fold_step_skipped allow segs st :
  Forall skipped segs -> fold_left (step allow) segs st = st.
Proof.
  revert st. induction segs as [|x segs IH]; intros st H; simpl; [reflexivity|].
  inversion H as [|? ? Hx Hrest]; subst. rewrite IH by assumption.
  unfold step. now destruct Hx as [-> | ->].
Qed.

(** What [normalize] returns, segment-wise: the kept segments, around
    them only separators and dots. *)
Lemma split_normalize s :
  s <> "" ->
  exists pre post,
    Forall skipped pre /\ Forall skipped post /\
    split (normalize s)
    = pre ++ normalizeSegments (negb (isAbsolute s)) (split s) ++ post /\
    isAbsolute (normalize s) = isAbsolute s.
Proof.
  intros Hs. unfold normalize.
  destruct (String.eqb s "") eqn:E; [apply String.eqb_eq in E; contradiction|].
  unfold normalizeString.
  pose proof (normalizeSegments_kept (negb (isAbsolute s)) s) as Hk.
  destruct (normalizeSegments (negb (isAbsolute s)) (split s)) as [|x rest] eqn:ES.
  - simpl. destruct (isAbsolute s).
    + exists [""; ""], []. repeat split; repeat constructor.
    + destruct (endsWithSlash s).
      * exists ["."; ""], []. repeat split; repeat constructor; now right.
      * exists ["."], []. repeat split; repeat constructor; now right.
  - assert (Hns : Forall (fun y => noslash y = true) (x :: rest)).
    { eapply Forall_impl; [exact Hk|]. now intros y (Hy & _). }
    inversion Hk as [|? ? (Hn & Hx & _ & _) _]; subst.
    pose proof (join_slash_nonempty x rest Hx) as Hbody.
    pose proof (isAbsolute_join_slash x rest Hx Hn) as Hrel.
    pose proof (split_join_slash (x :: rest) Hns ltac:(discriminate)) as Hsplit.
    destruct (String.eqb (join_slash (x :: rest)) "") eqn:EB;
      [apply String.eqb_eq in EB; contradiction|].
    destruct (endsWithSlash s), (isAbsolute s).
    + exists [""], [""]. repeat split; try (repeat constructor; now left).
      change (split ("/" +:+ ?b)) with ("" :: split b).
      change (join_slash (x :: rest) +:+ "/")
        with (join_slash (x :: rest) +:+ String slash "").
      now rewrite split_app_slash, Hsplit.
    + exists [], [""]. repeat split; try (repeat constructor; now left).
      * change (join_slash (x :: rest) +:+ "/")
          with (join_slash (x :: rest) +:+ String slash "").
        now rewrite split_app_slash, Hsplit.
      * now rewrite isAbsolute_app.
    + exists [""], []. repeat split; try (repeat constructor; now left).
      change (split ("/" +:+ ?b)) with ("" :: split b).
      now rewrite Hsplit, app_nil_r.
    + exists [], []. repeat split; try constructor; [|assumption].
      now rewrite Hsplit, app_nil_r.
Qed.

(** Normalising a relative path gives a relative path. *)
Lemma normalize_relative s :
  isAbsolute s = false -> isAbsolute (normalize s) = false.
Proof.
  intros Hrel. destruct (String.eqb s "") eqn:E.
  - apply String.eqb_eq in E. now subst.
  - apply String.eqb_neq in E.
    destruct (split_normalize s E) as (_ & _ & _ & _ & _ & ->). exact Hrel.
Qed.

Lemma step_skip allow st x : skipped x -> step allow st x = st.
Proof. now intros [-> | ->]. Qed.

Lemma step_push allow st x :
  x <> "" -> x <> "." -> x <> ".." -> step allow st x = x :: st.
Proof.
  intros H1 H2 H3. apply String.eqb_neq in H1, H2, H3.
  unfold step. now rewrite H1, H2, H3.
Qed.

Lemma step_up_pop allow top rest :
  top <> ".." -> step allow (top :: rest) ".." = rest.
Proof. intros H. apply String.eqb_neq in H. unfold step. simpl. now rewrite H. Qed.

Lemma fold_step_solid segs st :
  Forall (fun y => y <> "" /\ y <> ".") st ->
  Forall (fun y => y <> "" /\ y <> ".") (fold_left (step true) segs st).
Proof.
  revert st. induction segs as [|z segs IH]; intros st Hst; simpl; [exact Hst|].
  apply IH. unfold step.
  destruct (String.eqb z "") eqn:E1; simpl; [exact Hst|].
  destruct (String.eqb z ".") eqn:E2; simpl; [exact Hst|].
  apply String.eqb_neq in E1, E2.
  destruct (String.eqb z "..").
  - destruct st as [|top rest]; [repeat constructor; discriminate|].
    destruct (String.eqb top "..").
    + constructor; [split; discriminate | exact Hst].
    + now inversion Hst.
  - now constructor.
Qed.

(** Replaying a relative normal form on a stack is replaying the
    segments it came from. *)
Lemma fold_step_replay segs st :
  fold_left (step false) (rev (fold_left (step true) segs [])) st
  = fold_left (step false) segs st.
Proof.
  induction segs as [|x segs IH] using rev_ind; [reflexivity|].
  rewrite !fold_left_app. simpl. rewrite <- IH.
  pose proof (fold_step_solid segs [] (List.Forall_nil _)) as Hsolid.
  set (T := fold_left (step true) segs []) in *.
  set (R := fold_left (step false) (rev T) st).
  destruct (String.eqb x "") eqn:E1.
  { apply String.eqb_eq in E1. subst x. reflexivity. }
  destruct (String.eqb x ".") eqn:E2.
  { apply String.eqb_eq in E2. subst x. reflexivity. }
  apply String.eqb_neq in E1, E2.
  destruct (String.eqb x "..") eqn:E3.
  - apply String.eqb_eq in E3. subst x. subst R.
    destruct T as [|top rest]; [reflexivity|].
    destruct (String.eqb top "..") eqn:Et.
    + apply String.eqb_eq in Et. subst top.
      change (step true (".." :: rest) "..") with (".." :: ".." :: rest).
      simpl rev. rewrite !fold_left_app. reflexivity.
    + apply String.eqb_neq in Et.
      rewrite step_up_pop by assumption.
      simpl rev. rewrite fold_left_app. simpl.
      inversion Hsolid as [|? ? (Ht1 & Ht2) _]; subst.
      rewrite (step_push false _ top) by assumption.
      now rewrite step_up_pop.
  - apply String.eqb_neq in E3.
    rewrite !step_push by assumption.
    simpl rev. rewrite fold_left_app. simpl. subst R.
    now rewrite step_push.
Qed.

(** A path and its normal form name the same place. *)
Lemma locate_normalize cwd s : locate cwd (normalize s) = locate cwd s.
Proof.
  destruct (String.eqb s "") eqn:E.
  - apply String.eqb_eq in E. subst. unfold locate, normalizeSegments. simpl.
    now rewrite !fold_left_app.
  - apply String.eqb_neq in E.
    destruct (split_normalize s E) as (pre & post & Hpre & Hpost & Hsplit & Habs).
    unfold locate. rewrite Habs, Hsplit.
    destruct (isAbsolute s); simpl negb; unfold normalizeSegments at 1.
    + rewrite !fold_left_app, (fold_step_skipped _ pre) by assumption.
      rewrite (fold_step_skipped _ post) by assumption.
      assert (Hplain : Forall (fun x => plain x = true)
                              (normalizeSegments false (split s))).
      { eapply Forall_impl; [apply normalizeSegments_kept|].
        intros x (_ & _ & _ & Hp). now apply Hp. }
      rewrite fold_step_plain by assumption.
      now rewrite app_nil_r, rev_involutive.
    + rewrite !fold_left_app, (fold_step_skipped _ pre) by assumption.
      rewrite (fold_step_skipped _ post) by assumption.
      unfold normalizeSegments. now rewrite fold_step_replay, fold_left_app.
Qed.

(** Joining one more relative argument extends the location. *)
Lemma locate_join_snoc cwd args g :
  g <> "" -> isAbsolute g = false ->
  locate cwd (join (args ++ [g])) = extend (locate cwd (join args)) g.
Proof.
  intros Hg Hrel. unfold join. rewrite List.filter_app. simpl List.filter.
  destruct (String.eqb g "") eqn:Eg; [apply String.eqb_eq in Eg; contradiction|].
  simpl negb. cbv iota.
  destruct (List.filter (fun a => negb (String.eqb a "")) args) as [|y ys] eqn:EF.
  - change ([] ++ [g]) with [g]. cbv beta iota. simpl join_slash.
    rewrite locate_normalize.
    unfold extend, locate. rewrite Hrel. simpl isAbsolute.
    unfold normalizeSegments. rewrite !fold_left_app. simpl.
    now rewrite rev_involutive.
  - assert (Hy : y <> "").
    { assert (Hin : In y (List.filter (fun a => negb (String.eqb a "")) args))
        by (rewrite EF; now left).
      apply filter_In in Hin as [_ Hin]. intros ->. discriminate. }
    change ((y :: ys) ++ [g]) with (y :: (ys ++ [g])).
    change (y :: (ys ++ [g])) with ((y :: ys) ++ [g]).
    destruct ((y :: ys) ++ [g]) as [|a l] eqn:EL; [discriminate|]. rewrite <- EL.
    rewrite join_slash_snoc by discriminate.
    rewrite !locate_normalize.
    unfold extend, locate.
    rewrite isAbsolute_app by (now apply join_slash_nonempty).
    rewrite split_app_slash.
    unfold normalizeSegments.
    destruct (isAbsolute (join_slash (y :: ys)));
      rewrite ?app_assoc, fold_left_app, rev_involutive; reflexivity.
Qed.

End PathFacts.

(** ** The routes, step by step *)

Module RouteFacts.

Import App Sys RequestManager AssetCache.

Lemma after_after w f cs f' cs' : after (after w f cs) f' cs' = after w f' (cs ++ cs').
Proof. unfold after. simpl. now rewrite app_assoc. Qed.

Lemma fetch_route kind pluginId :
  fetch kind pluginId = route (checksSource kind) (cacheFile kind) (sourceFile kind) pluginId.
Proof. destruct kind; reflexivity. Qed.

Lemma doesPathExist_eq path w :
  Filesystem.doesPathExist path w = (JS.Return (present w path), after w (fs w) [Access path]).
Proof.
  unfold Filesystem.doesPathExist, try_catch, NodeFs.access, bind, emit, get, present, at_path, after.
  simpl. destruct (fs w !! _); reflexivity.
Qed.

Lemma sendFile_eq path mime w :
  sendFile path mime w
  = (JS.Return (Sent mime (stream_of (host w) (fs w) path)),
     after w (fs w) [ReadStream (Path.resolve (cwd (host w)) path)]).
Proof.
  unfold sendFile, NodeFs.createReadStream, bind, emit, get, ret, stream_of, at_path, after. simpl.
  rewrite PathFacts.locate_resolve by apply cwd_absolute.
  destruct (fs w !! _) as [[|]|]; reflexivity.
Qed.

Lemma mkdir_eq dir w :
  mkdir dir w
  = match NodeFs.mkdir_chain (NodeFs.ancestors_from [] (Path.locate (cwd (host w)) dir)) (fs w) with
    | Some f => (JS.Return tt, after w f [Mkdir dir])
    | None => (JS.Throw (NodeFs.mkdir_error (Path.locate (cwd (host w)) dir) (fs w) dir),
               after w (fs w) [Mkdir dir])
    end.
Proof.
  unfold mkdir, NodeFs.mkdir_recursive, bind, emit, get, throw, after. simpl.
  destruct (NodeFs.mkdir_chain _ _); reflexivity.
Qed.

Lemma resizeImage_eq src width height dst format w :
  Image.resizeImage src width height dst format w
  = match at_path w src with
    | Some (File content) =>
        match renderImage (host w) content width height format with
        | Some out =>
            (JS.Return tt,
             after w (<[Path.locate (cwd (host w)) dst := File out]> (fs w))
                   [Resize src width height dst format])
        | None =>
            (JS.Throw (Image.RenditionError src),
             after w (match partialImage (host w) content width height format with
                      | Some part => <[Path.locate (cwd (host w)) dst := File part]> (fs w)
                      | None => fs w
                      end)
                   [Resize src width height dst format])
        end
    | _ => (JS.Throw (Image.RenditionError src),
            after w (fs w) [Resize src width height dst format])
    end.
Proof.
  unfold Image.resizeImage, bind, emit, get, throw, at_path, after. simpl.
  destruct (fs w !! _) as [[content|]|]; try reflexivity.
  destruct (renderImage _ _ _ _ _); [reflexivity|].
  destruct (partialImage _ _ _ _ _); reflexivity.
Qed.

Section Route.
Variables (checked : bool) (cf sf pluginId : string) (w : World) (app : YourDashApplication).
Hypothesis Hfind : Applications.findById pluginId (loadedApplications w) = Some app.

Let cp := Path.join [Sys.GlobalCacheDirectory (host w); "panel/applications";
                     id (__internal_params app); cf].
Let dir := Path.join [Sys.GlobalCacheDirectory (host w); "panel/applications";
                      id (__internal_params app)].
Let src := Path.join [__internal_initializedPath app; sf].
Let fallback := Path.join [Sys.GlobalCacheDirectory (host w); "panel"; "invalidIcon.webp"].
Let dirs := NodeFs.ancestors_from [] (Path.locate (cwd (host w)) dir).

Lemma route_hit :
  present w cp = true ->
  route checked cf sf pluginId w
  = (JS.Return (Sent "image/webp" (stream_of (host w) (fs w) cp)),
     after w (fs w) [Access cp; ReadStream (Path.resolve (cwd (host w)) cp)]).
Proof.
  intros Hcp. unfold route, findApplication, GlobalCacheDirectory, bind, get, ret.
  rewrite Hfind. rewrite doesPathExist_eq. fold cp. rewrite Hcp.
  rewrite sendFile_eq, after_after. reflexivity.
Qed.

Lemma route_mkdir_fails :
  present w cp = false -> NodeFs.mkdir_chain dirs (fs w) = None ->
  route checked cf sf pluginId w
  = (JS.Throw (NodeFs.mkdir_error (Path.locate (cwd (host w)) dir) (fs w) dir),
     after w (fs w) [Access cp; Mkdir dir]).
Proof.
  intros Hcp Hmk. unfold route, findApplication, GlobalCacheDirectory, bind, get, ret.
  rewrite Hfind. rewrite doesPathExist_eq. fold cp. rewrite Hcp.
  fold dir. rewrite mkdir_eq. simpl. fold dirs. rewrite Hmk.
  rewrite after_after. reflexivity.
Qed.

Lemma route_fallback f1 :
  checked = true ->
  present w cp = false -> NodeFs.mkdir_chain dirs (fs w) = Some f1 ->
  f1 !! Path.locate (cwd (host w)) src = None ->
  route checked cf sf pluginId w
  = (JS.Return (Sent "image/webp" (stream_of (host w) f1 fallback)),
     after w f1 [Access cp; Mkdir dir; Access src;
                 ReadStream (Path.resolve (cwd (host w)) fallback)]).
Proof.
  intros -> Hcp Hmk Hsrc. unfold route, findApplication, GlobalCacheDirectory, bind, get, ret.
  rewrite Hfind. rewrite doesPathExist_eq. fold cp. rewrite Hcp.
  fold dir. rewrite mkdir_eq. simpl. fold dirs. rewrite Hmk.
  rewrite doesPathExist_eq. fold src. unfold present at 1, at_path at 1. simpl.
  rewrite Hsrc. cbn [negb]. cbv beta iota.
  rewrite sendFile_eq, !after_after. reflexivity.
Qed.

Lemma route_generate f1 :
  present w cp = false -> NodeFs.mkdir_chain dirs (fs w) = Some f1 ->
  (checked = true -> f1 !! Path.locate (cwd (host w)) src <> None) ->
  route checked cf sf pluginId w
  = match Image.resizeImage src 88 88 cp "webp"
            (after w f1 (if checked then [Access cp; Mkdir dir; Access src]
                         else [Access cp; Mkdir dir])) with
    | (JS.Return _, w2) =>
        (JS.Return (Sent "image/webp" (stream_of (host w2) (fs w2) cp)),
         after w2 (fs w2) [ReadStream (Path.resolve (cwd (host w2)) cp)])
    | (JS.Throw e, w2) => (JS.Throw e, w2)
    end.
Proof.
  intros Hcp Hmk Hsrc. unfold route, findApplication, GlobalCacheDirectory, bind, get, ret.
  rewrite Hfind. rewrite doesPathExist_eq. fold cp. rewrite Hcp.
  fold dir. rewrite mkdir_eq. simpl. fold dirs. rewrite Hmk.
  destruct checked.
  - rewrite doesPathExist_eq. fold src. unfold present at 1, at_path at 1. simpl.
    destruct (f1 !! _) eqn:E; [|now destruct Hsrc]. cbn [negb]. cbv beta iota.
    rewrite !after_after. cbn [List.app].
    destruct (Image.resizeImage _ _ _ _ _ _) as [[[]|e] w2]; [|reflexivity].
    now rewrite sendFile_eq.
  - rewrite !after_after. cbn [List.app].
    destruct (Image.resizeImage _ _ _ _ _ _) as [[[]|e] w2]; [|reflexivity].
    now rewrite sendFile_eq.
Qed.
End Route.
Lemma mkdir_chain_lookup ds : forall f f',
  NodeFs.mkdir_chain ds f = Some f' ->
  forall loc, f' !! loc = f !! loc \/ (In loc ds /\ f !! loc = None /\ f' !! loc = Some Dir).
Proof.
  induction ds as [|d rest IH]; intros f f' H loc; simpl in H.
  - injection H as <-. now left.
  - destruct (f !! d) as [[content|]|] eqn:Ed; [discriminate| |].
    + destruct (IH _ _ H loc) as [Heq | (Hin & Hnone & Hdir)]; [now left|].
      right. repeat split; [now right|assumption|assumption].
    + destruct (IH _ _ H loc) as [Heq | (Hin & Hnone & Hdir)].
      * destruct (decide (d = loc)) as [->|Hne].
        -- right. rewrite Heq, lookup_insert_eq. repeat split; [now left|assumption].
        -- left. now rewrite Heq, lookup_insert_ne.
      * destruct (decide (d = loc)) as [->|Hne].
        -- now rewrite lookup_insert_eq in Hnone.
        -- rewrite lookup_insert_ne in Hnone by assumption.
           right. repeat split; [now right|assumption|assumption].
Qed.

Lemma mkdir_chain_keeps ds f f' loc n :
  NodeFs.mkdir_chain ds f = Some f' -> f !! loc = Some n -> f' !! loc = Some n.
Proof.
  intros H Hloc. destruct (mkdir_chain_lookup _ _ _ H loc) as [-> | (_ & Hnone & _)];
    [assumption | congruence].
Qed.

Lemma mkdir_chain_no_file ds f f' loc content :
  NodeFs.mkdir_chain ds f = Some f' -> f' !! loc = Some (File content) ->
  f !! loc = Some (File content).
Proof.
  intros H Hloc. destruct (mkdir_chain_lookup _ _ _ H loc) as [<- | (_ & _ & Hdir)];
    [assumption | congruence].
Qed.

Lemma ancestors_prefix loc : forall pre d,
  In d (NodeFs.ancestors_from pre loc) -> d `prefix_of` (pre ++ loc).
Proof.
  induction loc as [|s rest IH]; intros pre d Hin; simpl in Hin; [contradiction|].
  destruct Hin as [<- | Hin].
  - exists rest. now rewrite <- app_assoc.
  - apply IH in Hin. now rewrite <- app_assoc in Hin.
Qed.

Lemma resizeCount_app l1 l2 : resizeCount (l1 ++ l2) = resizeCount l1 + resizeCount l2.
Proof. unfold resizeCount. now rewrite List.filter_app, length_app. Qed.

Lemma mkdir_chain_dirs ds : forall f f',
  NodeFs.mkdir_chain ds f = Some f' -> forall d, In d ds -> f' !! d = Some Dir.
Proof.
  induction ds as [|d0 rest IH]; intros f f' H d Hin; [contradiction|].
  simpl in H. destruct Hin as [<- | Hin].
  - destruct (f !! d0) as [[content|]|] eqn:E; [discriminate| |].
    + eapply mkdir_chain_keeps; eassumption.
    + eapply mkdir_chain_keeps; [eassumption|]. apply lookup_insert_eq.
  - destruct (f !! d0) as [[content|]|] eqn:E; [discriminate| |]; eapply IH; eassumption.
Qed.

Lemma mkdir_chain_again ds : forall f,
  (forall d, In d ds -> f !! d = Some Dir) -> NodeFs.mkdir_chain ds f = Some f.
Proof.
  induction ds as [|d0 rest IH]; intros f H; [reflexivity|].
  simpl. rewrite (H d0) by now left. apply IH. intros d Hd. apply H. now right.
Qed.

Lemma cachePath_location h kind app :
  Path.locate (cwd h) (cachePath h kind app)
  = Path.locate (cwd h) (cacheDirectory h app) ++ [cacheFile kind].
Proof.
  unfold cachePath, cacheDirectory.
  change [Sys.GlobalCacheDirectory h; "panel/applications"; id (__internal_params app);
          cacheFile kind]
    with ([Sys.GlobalCacheDirectory h; "panel/applications"; id (__internal_params app)]
          ++ [cacheFile kind]).
  rewrite PathFacts.locate_join_snoc by (destruct kind; (discriminate || reflexivity)).
  unfold Path.extend. destruct kind; simpl; now rewrite rev_involutive.
Qed.

Lemma sourceIcon_location c kind app :
  exists loc name, Path.locate c (sourceIcon kind app) = loc ++ [name] /\ name <> cacheFile kind.
Proof.
  unfold sourceIcon.
  change [__internal_initializedPath app; sourceFile kind]
    with ([__internal_initializedPath app] ++ [sourceFile kind]).
  rewrite PathFacts.locate_join_snoc by (destruct kind; (discriminate || reflexivity)).
  unfold Path.extend.
  destruct kind; simpl; eexists _, _; (split; [reflexivity | discriminate]).
Qed.

Lemma source_not_cache h kind app :
  Path.locate (cwd h) (sourceIcon kind app) <> Path.locate (cwd h) (cachePath h kind app).
Proof.
  destruct (sourceIcon_location (cwd h) kind app) as (loc & name & -> & Hname).
  rewrite cachePath_location. intros H. apply app_inj_tail in H as [_ H]. contradiction.
Qed.

Lemma cachePath_not_ancestor h kind app :
  ~ In (Path.locate (cwd h) (cachePath h kind app))
       (NodeFs.ancestors_from [] (Path.locate (cwd h) (cacheDirectory h app))).
Proof.
  intros Hin. apply ancestors_prefix in Hin. simpl in Hin.
  apply prefix_length in Hin. rewrite cachePath_location, length_app in Hin. simpl in Hin. lia.
Qed.

Lemma present_false w path : at_path w path = None -> present w path = false.
Proof. unfold present. now intros ->. Qed.

Section Fallback.
Variables (kind : renditionKind) (pluginId : string) (app : YourDashApplication) (w : World).
Hypothesis Hchecked : checksSource kind = true.
Hypothesis Hfind : Applications.findById pluginId (loadedApplications w) = Some app.
Hypothesis Hsrc : at_path w (sourceIcon kind app) = None.
Hypothesis Hcache : at_path w (cachePath (host w) kind app) = None.
Hypothesis Hapart :
  ~ (Path.locate (cwd (host w)) (sourceIcon kind app)
     `prefix_of` Path.locate (cwd (host w)) (cacheDirectory (host w) app)).
Hypothesis Hdir : creatable w (cacheDirectory (host w) app).

Lemma source_not_ancestor :
  ~ In (Path.locate (cwd (host w)) (sourceIcon kind app))
       (NodeFs.ancestors_from [] (Path.locate (cwd (host w)) (cacheDirectory (host w) app))).
Proof. intros Hin. apply ancestors_prefix in Hin. now apply Hapart. Qed.

Lemma fallback_fetch :
  exists f1,
    NodeFs.mkdir_chain
      (NodeFs.ancestors_from [] (Path.locate (cwd (host w)) (cacheDirectory (host w) app)))
      (fs w) = Some f1 /\
    f1 !! Path.locate (cwd (host w)) (sourceIcon kind app) = None /\
    f1 !! Path.locate (cwd (host w)) (cachePath (host w) kind app) = None /\
    fetch kind pluginId w
    = (JS.Return (Sent "image/webp" (stream_of (host w) f1 (fallbackPath (host w)))),
       after w f1 [Access (cachePath (host w) kind app);
                   Mkdir (cacheDirectory (host w) app);
                   Access (sourceIcon kind app);
                   ReadStream (Path.resolve (cwd (host w)) (fallbackPath (host w)))]).
Proof.
  unfold creatable in Hdir.
  destruct (NodeFs.mkdir_chain _ _) as [f1|] eqn:Hmk; [|discriminate].
  exists f1.
  assert (Hsrc1 : f1 !! Path.locate (cwd (host w)) (sourceIcon kind app) = None).
  { destruct (mkdir_chain_lookup _ _ _ Hmk (Path.locate (cwd (host w)) (sourceIcon kind app)))
      as [-> | (Hin & _)]; [exact Hsrc | now apply source_not_ancestor in Hin]. }
  assert (Hcp1 : f1 !! Path.locate (cwd (host w)) (cachePath (host w) kind app) = None).
  { destruct (mkdir_chain_lookup _ _ _ Hmk
                (Path.locate (cwd (host w)) (cachePath (host w) kind app)))
      as [-> | (Hin & _)]; [exact Hcache | now apply cachePath_not_ancestor in Hin]. }
  repeat split; try assumption.
  rewrite fetch_route, Hchecked.
  apply (route_fallback true _ _ _ _ _ Hfind f1 eq_refl (present_false _ _ Hcache) Hmk Hsrc1).
Qed.
End Fallback.

End RouteFacts.

(** ** The registry and the pin list, step by step *)

Module RegistryFacts.

Import App Sys RequestManager Applications Registry.

Lemma loadApplication_import_fails applicationPath w e :
  importModule (host w) (entryModule applicationPath) = ImportThrows e ->
  loadApplication applicationPath w
  = match JS.toString e with
    | JS.Return text =>
        (JS.Return None,
         registered w [] [loading applicationPath; ConsoleError e;
                          failed applicationPath text])
    | JS.Throw e' => (JS.Throw e', registered w [] [loading applicationPath; ConsoleError e])
    end.
Proof.
  intros Himport.
  unfold loadApplication, verifyApplication, log_info, console_error, import, try_catch, bind,
    emit, get, ret, throw, lift, registered, loading. simpl.
  rewrite Himport. simpl. rewrite ?app_nil_r.
  destruct (JS.toString e); simpl; rewrite <- ?app_assoc; reflexivity.
Qed.

Lemma loadApplication_constructor_fails applicationPath w cls e :
  importModule (host w) (entryModule applicationPath) = Imported cls ->
  App.new cls = JS.Throw e ->
  loadApplication applicationPath w
  = match JS.toString e with
    | JS.Return text =>
        (JS.Return None,
         registered w [] [loading applicationPath; ConsoleError e;
                          failed applicationPath text])
    | JS.Throw e' => (JS.Throw e', registered w [] [loading applicationPath; ConsoleError e])
    end.
Proof.
  intros Himport Hnew.
  unfold loadApplication, verifyApplication, log_info, console_error, import, try_catch, bind,
    emit, get, ret, throw, lift, registered, loading. simpl.
  rewrite Himport. simpl. rewrite Hnew. simpl. rewrite ?app_nil_r.
  destruct (JS.toString e); simpl; rewrite <- ?app_assoc; reflexivity.
Qed.

Lemma loadApplication_constructed applicationPath w cls params :
  importModule (host w) (entryModule applicationPath) = Imported cls ->
  superArgs cls = JS.Return (Some params) ->
  let instance := instanceOf cls params applicationPath in
  loadApplication applicationPath w
  = match onLoad (overrides cls) with
    | JS.Return _ =>
        (JS.Return (Some instance),
         registered w [instance] [loading applicationPath; Hook (id params) OnLoad])
    | JS.Throw e =>
        match JS.toString e with
        | JS.Return text =>
            (JS.Return None,
             registered w [instance]
               [loading applicationPath; Hook (id params) OnLoad; ConsoleError e;
                failed applicationPath text])
        | JS.Throw e' =>
            (JS.Throw e',
             registered w [instance]
               [loading applicationPath; Hook (id params) OnLoad; ConsoleError e])
        end
    end.
Proof.
  intros Himport Hsuper instance.
  unfold loadApplication, verifyApplication, log_info, console_error, import, call_onLoad,
    push, try_catch, bind, emit, get, ret, throw, lift, registered, loading. simpl.
  rewrite Himport. simpl. unfold App.new. rewrite Hsuper. simpl.
  destruct (onLoad (overrides cls)) as [[]|e]; simpl.
  - rewrite <- ?app_assoc. reflexivity.
  - destruct (JS.toString e); simpl; rewrite <- ?app_assoc; reflexivity.
Qed.

Lemma new_cases cls :
  match superArgs cls with
  | JS.Throw e => App.new cls = JS.Throw e
  | JS.Return None => App.new cls = JS.Throw (JS.TypeError "undefined is not an object")
  | JS.Return (Some params) =>
      App.new cls
      = JS.Return {| app_id := id params; __internal_params := params;
                     __internal_initializedPath := NOT_YET_LOADED;
                     hooks := overrides cls |}
  end.
Proof. unfold App.new. destruct (superArgs cls) as [[p|]|e]; reflexivity. Qed.

Lemma loadApplication_thrown applicationPath w e :
  thrown (host w) applicationPath = Some e ->
  fst (loadApplication applicationPath w)
  = match JS.toString e with
    | JS.Return _ => JS.Return None
    | JS.Throw e' => JS.Throw e'
    end.
Proof.
  unfold thrown.
  destruct (importModule (host w) (entryModule applicationPath)) as [e0|cls] eqn:Himport.
  - intros [= ->]. rewrite (loadApplication_import_fails _ _ _ Himport).
    now destruct (JS.toString e).
  - pose proof (new_cases cls) as Hnew.
    destruct (superArgs cls) as [[params|]|e0] eqn:Hsuper.
    + rewrite (loadApplication_constructed _ _ _ _ Himport Hsuper).
      destruct (onLoad (overrides cls)) as [[]|e0]; [discriminate|].
      intros [= ->]. now destruct (JS.toString e).
    + intros [= <-]. now rewrite (loadApplication_constructor_fails _ _ _ _ Himport Hnew).
    + intros [= ->]. rewrite (loadApplication_constructor_fails _ _ _ _ Himport Hnew).
      now destruct (JS.toString e).
Qed.

Lemma loadApplication_healthy applicationPath w instance :
  healthy (host w) applicationPath instance ->
  exists cs,
    loadApplication applicationPath w = (JS.Return (Some instance), registered w [instance] cs).
Proof.
  intros (cls & params & Himport & Hsuper & Hhook & ->).
  rewrite (loadApplication_constructed _ _ _ _ Himport Hsuper), Hhook.
  eexists. reflexivity.
Qed.

Lemma loadApplication_shape applicationPath w :
  exists l cs, snd (loadApplication applicationPath w) = registered w l cs.
Proof.
  destruct (importModule (host w) (entryModule applicationPath)) as [e|cls] eqn:Himport.
  - rewrite (loadApplication_import_fails _ _ _ Himport).
    destruct (JS.toString e); eexists _, _; reflexivity.
  - pose proof (new_cases cls) as Hnew.
    destruct (superArgs cls) as [[params|]|e] eqn:Hsuper.
    + rewrite (loadApplication_constructed _ _ _ _ Himport Hsuper).
      destruct (onLoad (overrides cls)) as [[]|e]; [eexists _, _; reflexivity|].
      destruct (JS.toString e); eexists _, _; reflexivity.
    + rewrite (loadApplication_constructor_fails _ _ _ _ Himport Hnew).
      eexists _, _; reflexivity.
    + rewrite (loadApplication_constructor_fails _ _ _ _ Himport Hnew).
      destruct (JS.toString e); eexists _, _; reflexivity.
Qed.

(** The only exception that leaves [loadApplication] is the one of
    [e.toString()] in its [catch] block, for a thrown value on which
    that call throws ([null] and [undefined] among them). *)
Lemma loadApplication_throws applicationPath w e' :
  fst (loadApplication applicationPath w) = JS.Throw e' ->
  exists e, thrown (host w) applicationPath = Some e /\ JS.toString e = JS.Throw e'.
Proof.
  intros H. destruct (thrown (host w) applicationPath) as [e|] eqn:Ht.
  - rewrite (loadApplication_thrown _ _ _ Ht) in H.
    destruct (JS.toString e) as [text|e0] eqn:E; [discriminate|]. injection H as ->.
    exists e. split; [reflexivity | assumption].
  - exfalso. unfold thrown in Ht.
    destruct (importModule (host w) (entryModule applicationPath)) as [e|cls] eqn:Himport;
      [discriminate|].
    destruct (superArgs cls) as [[params|]|e] eqn:Hsuper; try discriminate.
    rewrite (loadApplication_constructed _ _ _ _ Himport Hsuper) in H.
    destruct (onLoad (overrides cls)) as [[]|e]; discriminate.
Qed.

(** Partial-failure isolation (P1), for failures whose thrown value has
    a [toString] that returns: the startup loop runs to its end and
    every healthy plugin of the list is in the live set afterwards. *)
Lemma loadApplications_isolates h applications : forall w,
  host w = h ->
  (forall p e, In p applications -> thrown h p = Some e ->
               exists text, JS.toString e = JS.Return text) ->
  fst (Main.loadApplications applications w) = JS.Return tt /\
  host (snd (Main.loadApplications applications w)) = h /\
  (forall a, In a (loadedApplications w) ->
             In a (loadedApplications (snd (Main.loadApplications applications w)))) /\
  (forall p instance, In p applications -> healthy h p instance ->
     In instance (loadedApplications (snd (Main.loadApplications applications w)))).
Proof.
  induction applications as [|p rest IH]; intros w Hh Hsafe.
  - simpl. split; [reflexivity|]. split; [assumption|]. split; [tauto|]. intros ? ? [].
  - destruct (loadApplication_shape p w) as (l & cs & Hshape).
    assert (Hret : exists r, fst (loadApplication p w) = JS.Return r).
    { destruct (fst (loadApplication p w)) as [r|e'] eqn:E; [now exists r|].
      apply loadApplication_throws in E as (e & Ht & Hthrow).
      rewrite Hh in Ht. destruct (Hsafe p e (or_introl eq_refl) Ht) as (text & Htext).
      congruence. }
    destruct Hret as (r & Hret).
    destruct (loadApplication p w) as [o w1] eqn:Hload. simpl in Hshape, Hret. subst o w1.
    set (w2 := snd (log_info "application"
                      ["Application " +:+ p +:+ " loaded successfully!"]
                      (registered w l cs))).
    assert (Heq : Main.loadApplications (p :: rest) w = Main.loadApplications rest w2).
    { change (Main.loadApplications (p :: rest) w)
        with (bind (loadApplication p)
                (fun _ => bind (log_info "application"
                                  ["Application " +:+ p +:+ " loaded successfully!"])
                            (fun _ => Main.loadApplications rest)) w).
      unfold bind. now rewrite Hload. }
    rewrite Heq.
    assert (Hh2 : host w2 = h) by exact Hh.
    destruct (IH w2 Hh2 (fun q e Hq => Hsafe q e (or_intror Hq))) as (IH1 & IH2 & IH3 & IH4).
    split; [exact IH1|]. split; [exact IH2|]. split.
    + intros a Ha. apply IH3. unfold w2, registered. simpl. apply in_or_app. now left.
    + intros q instance [<- | Hq] Hhealthy.
      * apply IH3. rewrite <- Hh in Hhealthy.
        destruct (loadApplication_healthy _ _ _ Hhealthy) as (cs' & Hgood).
        rewrite Hgood in Hload.
        apply (f_equal (fun x => loadedApplications (snd x))) in Hload.
        simpl in Hload. apply app_inv_head in Hload. subst l.
        unfold w2. simpl. apply in_or_app. right. now left.
      * now apply IH4 with q.
Qed.

Lemma findById_app x l1 l2 :
  findById x (l1 ++ l2)
  = match findById x l1 with Some a => Some a | None => findById x l2 end.
Proof.
  unfold findById. induction l1 as [|a l1 IH]; simpl; [reflexivity|].
  now destruct (String.eqb (id (__internal_params a)) x).
Qed.

Lemma installPath_relative applicationPath :
  Path.isAbsolute (Path.join ["./src/applications/" +:+ applicationPath]) = false.
Proof.
  unfold Path.join. simpl List.filter. cbv iota.
  change (Path.join_slash ["./src/applications/" +:+ applicationPath])
    with ("./src/applications/" +:+ applicationPath).
  now apply PathFacts.normalize_relative.
Qed.

Lemma findById_id x l a : findById x l = Some a -> id (__internal_params a) = x.
Proof.
  unfold findById. intros H. apply find_some in H as [_ H]. now apply String.eqb_eq.
Qed.

Lemma sc_id_shortcutOf a : sc_id (shortcutOf a) = id (__internal_params a).
Proof. unfold shortcutOf. now destruct (frontend (__internal_params a)). Qed.

Lemma resolved_ids l pins :
  map (fun a => id (__internal_params a)) (defined (map (fun a => findById a l) pins))
  = List.filter (fun a => match findById a l with Some _ => true | None => false end) pins.
Proof.
  induction pins as [|p pins IH]; simpl; [reflexivity|].
  destruct (findById p l) as [a|] eqn:E; simpl; [|exact IH].
  now rewrite IH, (findById_id _ _ _ E).
Qed.


Lemma includes_In l x : includes l x = true <-> In x l.
Proof.
  unfold includes. rewrite existsb_exists. split.
  - intros (y & Hy & E). apply String.eqb_eq in E. now subst.
  - intros H. exists x. split; [assumption | apply String.eqb_refl].
Qed.

End RegistryFacts.

(** * The claims of the design document *)

Import App Sys RequestManager AssetCache Applications Registry.
Import RouteFacts RegistryFacts.

(** ** Asset cache *)

(** C1 (P2, idempotent cache).  For a loaded plugin whose source icon
    exists and is valid (the image library renders it), with a cache
    directory that exists or can be created: two successive fetches of the
    same [(pluginId, renditionKind)] give the same reply, bytes included;
    the resize operation runs at most once over both calls; and the second
    call is a cache hit whose only calls are the existence check of the
    cache path and the read stream on it, so neither the source icon nor
    the resize operation is touched.  The reply is an image: when the
    cache path is empty before the first call, both replies deliver the
    rendition of the source icon, which the first call puts at the cache
    path with exactly one resize; when a regular file is at the cache
    path, both replies deliver its bytes and no resize runs.  (With a
    directory at the cache path both replies carry the same stream
    error.)  This holds whatever [commonPaths.GlobalCacheDirectory()]
    returns. *)
Theorem cache_fetch_idempotent kind pluginId app w content rendition :
  findById pluginId (loadedApplications w) = Some app ->
  at_path w (sourceIcon kind app) = Some (File content) ->
  renderImage (host w) content 88 88 "webp" = Some rendition ->
  creatable w (cacheDirectory (host w) app) ->
  let first := fetch kind pluginId w in
  let second := fetch kind pluginId (snd first) in
  fst first = fst second /\
  fst second
  = JS.Return (Sent "image/webp"
                 (stream_of (host w) (fs (snd first)) (cachePath (host w) kind app))) /\
  resizeCount (calls (snd second)) <= resizeCount (calls w) + 1 /\
  calls (snd second)
  = calls (snd first)
    ++ [Access (cachePath (host w) kind app);
        ReadStream (Path.resolve (cwd (host w)) (cachePath (host w) kind app))] /\
  (at_path w (cachePath (host w) kind app) = None ->
   fst first = JS.Return (Sent "image/webp" (JS.Return rendition)) /\
   at_path (snd first) (cachePath (host w) kind app) = Some (File rendition) /\
   resizeCount (calls (snd first)) = resizeCount (calls w) + 1 /\
   resizeCount (calls (snd second)) = resizeCount (calls w) + 1) /\
  (forall cached,
     at_path w (cachePath (host w) kind app) = Some (File cached) ->
     fst first = JS.Return (Sent "image/webp" (JS.Return cached)) /\
     at_path (snd first) (cachePath (host w) kind app) = Some (File cached) /\
     resizeCount (calls (snd second)) = resizeCount (calls w)).
Proof.
  intros Hfind Hsrc Hrender Hdir.
  assert (Hfirst : exists f cs,
            fetch kind pluginId w
            = (JS.Return (Sent "image/webp"
                            (stream_of (host w) f (cachePath (host w) kind app))),
               after w f cs) /\
            present (after w f cs) (cachePath (host w) kind app) = true /\
            resizeCount cs <= 1 /\
            (at_path w (cachePath (host w) kind app) = None ->
             f !! Path.locate (cwd (host w)) (cachePath (host w) kind app)
             = Some (File rendition) /\ resizeCount cs = 1) /\
            (forall cached,
               at_path w (cachePath (host w) kind app) = Some (File cached) ->
               f = fs w /\ resizeCount cs = 0)).
  { rewrite fetch_route. unfold cachePath.
    destruct (present w (cachePath (host w) kind app)) eqn:Hcp; unfold cachePath in Hcp.
    - eexists _, _. rewrite (route_hit _ _ _ _ _ _ Hfind Hcp).
      split; [reflexivity|]. split; [exact Hcp|].
      split; [unfold resizeCount; simpl; lia|]. split.
      + intros Hnone. unfold present in Hcp. now rewrite Hnone in Hcp.
      + intros cached _. split; reflexivity.
    - unfold creatable, cacheDirectory in Hdir.
      destruct (NodeFs.mkdir_chain _ _) as [f1|] eqn:Hmk; [|discriminate].
      assert (Hsrc1 : f1 !! Path.locate (cwd (host w)) (sourceIcon kind app)
                      = Some (File content))
        by (eapply mkdir_chain_keeps; [exact Hmk|exact Hsrc]).
      unfold sourceIcon in Hsrc1.
      rewrite (route_generate _ _ _ _ _ _ Hfind f1 Hcp Hmk)
        by (intros _; rewrite Hsrc1; discriminate).
      rewrite resizeImage_eq. unfold at_path at 1. cbn [fs host after].
      rewrite Hsrc1, Hrender. cbn [fs host after]. rewrite !after_after.
      eexists _, _. split; [reflexivity|]. split; [|split; [|split]].
      + unfold present, at_path. cbn [fs host after]. now rewrite lookup_insert_eq.
      + unfold resizeCount. destruct (checksSource kind); simpl; lia.
      + intros _. split; [now rewrite lookup_insert_eq|].
        unfold resizeCount. now destruct (checksSource kind).
      + intros cached Hcached. unfold present in Hcp. now rewrite Hcached in Hcp. }
  destruct Hfirst as (f & cs & Hfirst & Hhit & Hcount & Hmiss & Hcached).
  cbv zeta. rewrite Hfirst. cbn [fst snd].
  rewrite fetch_route.
  rewrite (route_hit _ _ _ _ (after w f cs) _ Hfind Hhit).
  cbn [fst snd host fs calls after].
  split; [reflexivity|]. split; [reflexivity|]. split.
  { rewrite !resizeCount_app. unfold resizeCount at 3. simpl. lia. }
  split; [reflexivity|]. split.
  - intros Hnone. destruct (Hmiss Hnone) as (Hf & Hone).
    unfold at_path. cbn [fs host after].
    split; [unfold stream_of; now rewrite Hf|]. split; [exact Hf|].
    rewrite !resizeCount_app, Hone. unfold resizeCount at 4. simpl. lia.
  - intros cached Hc. destruct (Hcached cached Hc) as (-> & Hzero).
    unfold at_path in Hc |- *. cbn [fs host after].
    split; [unfold stream_of; now rewrite Hc|]. split; [exact Hc|].
    rewrite !resizeCount_app, Hzero. unfold resizeCount. simpl. lia.
Qed.

(** The scenario of the design document: [uk-example-app] ships
    [icon.avif], its small-grid rendition is fetched twice. *)
Lemma cache_fetch_idempotent_witness :
  let w := Scenario.running in
  let app := Scenario.exampleApp in
  let rendition := [Byte.x01; Byte.x02; Byte.x58; Byte.x58] in
  let first := fetch SmallGridIcon "uk-example-app" w in
  let second := fetch SmallGridIcon "uk-example-app" (snd first) in
  fst first = fst second /\
  fst first = JS.Return (Sent "image/webp" (JS.Return rendition)) /\
  at_path (snd first) (cachePath (host w) SmallGridIcon app) = Some (File rendition) /\
  resizeCount (calls (snd first)) = resizeCount (calls w) + 1 /\
  resizeCount (calls (snd second)) = resizeCount (calls w) + 1 /\
  calls (snd second)
  = calls (snd first)
    ++ [Access (cachePath (host w) SmallGridIcon app);
        ReadStream (Path.resolve (cwd (host w)) (cachePath (host w) SmallGridIcon app))].
Proof.
  destruct (cache_fetch_idempotent SmallGridIcon "uk-example-app" Scenario.exampleApp
              Scenario.running [Byte.x01; Byte.x02]
              [Byte.x01; Byte.x02; Byte.x58; Byte.x58])
    as (Hsame & _ & _ & Hcalls & Hmiss & _).
  - vm_compute. reflexivity.
  - vm_compute. reflexivity.
  - vm_compute. reflexivity.
  - vm_compute. reflexivity.
  - destruct Hmiss as (Hreply & Hfile & Hone & Htwo); [vm_compute; reflexivity|].
    cbv zeta. repeat split; assumption.
Defined.

(** The scenario of section 8, call by call: a miss, the directory, the
    source icon, the resize with [(icon.avif, 88, 88, smallGridIcon.webp,
    "webp")], the stream; then a hit. *)
Example scenario_calls :
  let first := fetch SmallGridIcon "uk-example-app" Scenario.running in
  let second := fetch SmallGridIcon "uk-example-app" (snd first) in
  let cached :=
    "/srv/yourdash/fs/Cache/panel/applications/uk-example-app/smallGridIcon.webp" in
  calls (snd second)
  = calls Scenario.running
    ++ [Access cached;
        Mkdir "/srv/yourdash/fs/Cache/panel/applications/uk-example-app";
        Access "src/applications/uk-example-app/icon.avif";
        Resize "src/applications/uk-example-app/icon.avif" 88 88 cached "webp";
        ReadStream cached]
    ++ [Access cached; ReadStream cached] /\
  fst second
  = JS.Return (Sent "image/webp"
                 (JS.Return [Byte.x01; Byte.x02; Byte.x58; Byte.x58])).
Proof. vm_compute. split; reflexivity. Qed.

(** C3 (P3, fallback).  For a loaded plugin whose source icon does not
    exist (nothing is at its path, and the path is not one of the
    directories that lead to the plugin's cache directory) and whose cache
    file is not there yet, with a cache directory that can be created and
    the fallback image provisioned: a large-grid, small-grid or list fetch
    replies with the bytes of [{GlobalCacheDirectory}/panel/invalidIcon.webp],
    read by the last call of the request; no regular file appears on the
    filesystem, in particular none under the plugin's cache subdirectory;
    the cache path stays empty; and once the real icon is installed the
    next request serves its rendition.  This holds whatever
    [commonPaths.GlobalCacheDirectory()] returns. *)
Theorem fallback_not_cached kind pluginId app w image :
  checksSource kind = true ->
  findById pluginId (loadedApplications w) = Some app ->
  at_path w (sourceIcon kind app) = None ->
  at_path w (cachePath (host w) kind app) = None ->
  ~ (Path.locate (cwd (host w)) (sourceIcon kind app)
     `prefix_of` Path.locate (cwd (host w)) (cacheDirectory (host w) app)) ->
  creatable w (cacheDirectory (host w) app) ->
  at_path w (fallbackPath (host w)) = Some (File image) ->
  let result := fetch kind pluginId w in
  fst result = JS.Return (Sent "image/webp" (JS.Return image)) /\
  (exists before,
     calls (snd result)
     = before ++ [ReadStream (Path.resolve (cwd (host w)) (fallbackPath (host w)))]) /\
  (forall loc content,
     fs (snd result) !! loc = Some (File content) -> fs w !! loc = Some (File content)) /\
  at_path (snd result) (cachePath (host w) kind app) = None /\
  (forall content rendition,
     renderImage (host w) content 88 88 "webp" = Some rendition ->
     fst (fetch kind pluginId (install (sourceIcon kind app) content (snd result)))
     = JS.Return (Sent "image/webp" (JS.Return rendition))).
Proof.
  intros Hchecked Hfind Hsrc Hcache Hapart Hdir Hfb result. subst result.
  destruct (fallback_fetch kind pluginId app w Hchecked Hfind Hsrc Hcache Hapart Hdir)
    as (f1 & Hmk & Hsrc1 & Hcp1 & ->).
  cbn [fst snd].
  split; [|split; [|split; [|split]]].
  - unfold stream_of. unfold at_path in Hfb.
    now rewrite (mkdir_chain_keeps _ _ _ _ _ Hmk Hfb).
  - eexists. unfold after. cbn [calls].
    change [Access ?a; Mkdir ?b; Access ?c; ReadStream ?d]
      with ([Access a; Mkdir b; Access c] ++ [ReadStream d]).
    now rewrite app_assoc.
  - intros loc content. cbn [fs after]. apply (mkdir_chain_no_file _ _ _ _ _ Hmk).
  - exact Hcp1.
  - intros content rendition Hrender.
    set (w1 := install _ _ _).
    assert (Hfs : fs w1 = <[Path.locate (cwd (host w)) (sourceIcon kind app) := File content]> f1)
      by reflexivity.
    assert (Hhost : host w1 = host w) by reflexivity.
    assert (Hfind1 : findById pluginId (loadedApplications w1) = Some app)
      by exact Hfind.
    assert (Hmiss : present w1 (Path.join [Sys.GlobalCacheDirectory (host w1);
                                           "panel/applications"; id (__internal_params app);
                                           cacheFile kind]) = false).
    { apply present_false. unfold at_path. rewrite Hfs, Hhost.
      rewrite lookup_insert_ne by apply source_not_cache. exact Hcp1. }
    assert (Hmk1 : NodeFs.mkdir_chain
                     (NodeFs.ancestors_from []
                        (Path.locate (cwd (host w1))
                           (Path.join [Sys.GlobalCacheDirectory (host w1);
                                       "panel/applications"; id (__internal_params app)])))
                     (fs w1) = Some (fs w1)).
    { apply mkdir_chain_again. intros d Hd. rewrite Hfs, Hhost in *.
      rewrite lookup_insert_ne.
      - eapply mkdir_chain_dirs; [exact Hmk | exact Hd].
      - intros <-. now apply (source_not_ancestor kind app w Hapart). }
    rewrite fetch_route.
    rewrite (route_generate _ _ _ _ _ _ Hfind1 _ Hmiss Hmk1)
      by (intros _; rewrite Hfs, Hhost; unfold sourceIcon; now rewrite lookup_insert_eq).
    rewrite resizeImage_eq. unfold at_path at 1. cbn [fs host after].
    rewrite Hfs, Hhost. unfold sourceIcon at 1. rewrite lookup_insert_eq, Hrender.
    cbn [fst fs host after]. unfold stream_of. now rewrite lookup_insert_eq.
Qed.

(** [uk-ewsgit-dash] is loaded and ships no icon. *)
Lemma fallback_not_cached_witness :
  let w := Scenario.running in
  let app := Scenario.dashApp in
  let result := fetch LargeGridIcon "uk-ewsgit-dash" w in
  fst result = JS.Return (Sent "image/webp" (JS.Return [Byte.xff])) /\
  (exists before,
     calls (snd result)
     = before ++ [ReadStream (Path.resolve (cwd (host w)) (fallbackPath (host w)))]) /\
  (forall loc content,
     fs (snd result) !! loc = Some (File content) -> fs w !! loc = Some (File content)) /\
  at_path (snd result) (cachePath (host w) LargeGridIcon app) = None /\
  (forall content rendition,
     renderImage (host w) content 88 88 "webp" = Some rendition ->
     fst (fetch LargeGridIcon "uk-ewsgit-dash"
            (install (sourceIcon LargeGridIcon app) content (snd result)))
     = JS.Return (Sent "image/webp" (JS.Return rendition))).
Proof.
  apply (fallback_not_cached LargeGridIcon "uk-ewsgit-dash" Scenario.dashApp
           Scenario.running [Byte.xff]).
  - reflexivity.
  - vm_compute. reflexivity.
  - vm_compute. reflexivity.
  - vm_compute. reflexivity.
  - intros [k Hk]. vm_compute in Hk. discriminate.
  - vm_compute. reflexivity.
  - vm_compute. reflexivity.
Defined.

(** C4, as the code has it.  The large-grid, small-grid and list routes
    are one routine that differs in the cache-file name only, and for a
    loaded plugin that routine is the protocol of section 4.2 with 88x88,
    ["./icon.avif"] and that name (for an unknown identifier the routes
    return the reply unsent with status 404, where the protocol has its
    "not found" outcome).  For these kinds a fetch for a loaded plugin
    whose source icon is missing yields an image and no error (the
    cached rendition if the cache file is there, else the global
    fallback), provided the path of the source icon is neither the
    plugin's cache directory nor a directory above it, the cache
    directory can be created, the fallback image is provisioned and the
    cache path is not a directory.  This holds whatever
    [commonPaths.GlobalCacheDirectory()] returns. *)
Theorem checked_routes_follow_protocol kind :
  checksSource kind = true ->
  (forall pluginId,
     fetch kind pluginId = route true (cacheFile kind) "./icon.avif" pluginId) /\
  (forall pluginId w,
     isLoaded w pluginId = true ->
     fetch kind pluginId w
     = protocol (cacheFile kind) "./icon.avif" 88 88 "webp" "image/webp" pluginId w) /\
  (forall pluginId app w image,
     findById pluginId (loadedApplications w) = Some app ->
     at_path w (sourceIcon kind app) = None ->
     ~ (Path.locate (cwd (host w)) (sourceIcon kind app)
        `prefix_of` Path.locate (cwd (host w)) (cacheDirectory (host w) app)) ->
     creatable w (cacheDirectory (host w) app) ->
     at_path w (fallbackPath (host w)) = Some (File image) ->
     at_path w (cachePath (host w) kind app) <> Some Dir ->
     exists served,
       fst (fetch kind pluginId w) = JS.Return (Sent "image/webp" (JS.Return served)) /\
       (at_path w (cachePath (host w) kind app) = None -> served = image) /\
       (forall cached,
          at_path w (cachePath (host w) kind app) = Some (File cached) -> served = cached)).
Proof.
  intros Hchecked. split; [|split].
  - intros pluginId. destruct kind; [reflexivity..|discriminate].
  - intros pluginId w Hloaded. unfold isLoaded in Hloaded.
    destruct kind; [| | |discriminate];
      unfold fetch, largeGrid, smallGrid, listIcon, protocol, findApplication, bind, get, ret;
      (destruct (findById pluginId (loadedApplications w)); [reflexivity|discriminate]).
  - intros pluginId app w image Hfind Hsrc Hapart Hdir Hfb Hnodir.
    destruct (at_path w (cachePath (host w) kind app)) as [[cached|]|] eqn:Hcp.
    + exists cached. split; [|split; [discriminate | now intros ? [= <-]]].
      rewrite fetch_route.
      assert (Hhit : present w (Path.join [Sys.GlobalCacheDirectory (host w);
                                           "panel/applications"; id (__internal_params app);
                                           cacheFile kind]) = true).
      { unfold present. fold (cachePath (host w) kind app). now rewrite Hcp. }
      rewrite (route_hit _ _ _ _ _ _ Hfind Hhit). cbn [fst].
      unfold stream_of. unfold at_path, cachePath in Hcp. now rewrite Hcp.
    + now destruct Hnodir.
    + exists image. split; [|split; [reflexivity | discriminate]].
      destruct (fallback_fetch kind pluginId app w Hchecked Hfind Hsrc Hcp Hapart Hdir)
        as (f1 & Hmk & _ & _ & ->).
      cbn [fst]. unfold stream_of. unfold at_path in Hfb.
      now rewrite (mkdir_chain_keeps _ _ _ _ _ Hmk Hfb).
Qed.

(** The list route, and [uk-ewsgit-dash], which ships no icon. *)
Lemma checked_routes_follow_protocol_witness :
  fetch ListIcon "uk-ewsgit-dash"
  = route true "listIcon.webp" "./icon.avif" "uk-ewsgit-dash" /\
  fetch ListIcon "uk-ewsgit-dash" Scenario.running
  = protocol "listIcon.webp" "./icon.avif" 88 88 "webp" "image/webp" "uk-ewsgit-dash"
      Scenario.running /\
  fst (fetch ListIcon "uk-ewsgit-dash" Scenario.running)
  = JS.Return (Sent "image/webp" (JS.Return [Byte.xff])).
Proof.
  destruct (checked_routes_follow_protocol ListIcon eq_refl) as (Hsame & Hprotocol & Himage).
  split; [apply Hsame|]. split; [apply Hprotocol; vm_compute; reflexivity|].
  destruct (Himage "uk-ewsgit-dash" Scenario.dashApp Scenario.running [Byte.xff])
    as (served & Hserved & Hfallback & _).
  - vm_compute. reflexivity.
  - vm_compute. reflexivity.
  - intros [k Hk]. vm_compute in Hk. discriminate.
  - vm_compute. reflexivity.
  - vm_compute. reflexivity.
  - vm_compute. discriminate.
  - rewrite Hserved, Hfallback; [reflexivity|]. vm_compute. reflexivity.
Defined.

(** C4 as stated fails on the quick-shortcut route, which resizes without
    looking for the source icon: [uk-example-app] is loaded and has no
    [assets/icon.png]; the fetch ends in the resize error, while the
    protocol of section 4.2 with the quick-shortcut parameters would serve
    the fallback.  It also fails for an icon that exists and cannot be
    decoded ([uk-ewsgit-files], large grid): no route catches the resize
    error. *)
Example quickShortcut_icon_without_fallback :
  let w := Scenario.running in
  findById "uk-example-app" (loadedApplications w) = Some Scenario.exampleApp /\
  at_path w (sourceIcon QuickShortcutIcon Scenario.exampleApp) = None /\
  fst (fetch QuickShortcutIcon "uk-example-app" w)
  = JS.Throw (Image.RenditionError "src/applications/uk-example-app/assets/icon.png") /\
  fst (protocol "quickShortcut.webp" "./assets/icon.png" 88 88 "webp" "image/webp"
         "uk-example-app" w)
  = JS.Return (Sent "image/webp" (JS.Return [Byte.xff])) /\
  fst (fetch LargeGridIcon "uk-ewsgit-files" w)
  = JS.Throw (Image.RenditionError "src/applications/uk-ewsgit-files/icon.avif").
Proof. vm_compute. repeat split. Qed.

(** ** Plugin registry *)

(** C2, at its failing input.  The constructor of [throws-null] does
    [throw null].  The [catch] block of [loadApplication] evaluates
    [(e as Error).toString()], which raises a [TypeError] on [null]: the
    exception leaves [loadApplication], the startup loop stops at that
    plugin, and [uk-ewsgit-dash], installed after it, is never loaded. *)
Example startup_aborted_by_thrown_null :
  let installed := ["uk-example-app"; "throws-null"; "uk-ewsgit-dash"] in
  fst (loadApplication "throws-null" Scenario.boot)
  = JS.Throw (JS.TypeError "null is not an object") /\
  fst (Main.startup_applications installed Scenario.boot)
  = JS.Throw (JS.TypeError "null is not an object") /\
  map (fun a => id (__internal_params a))
      (loadedApplications (snd (Main.startup_applications installed Scenario.boot)))
  = ["uk-example-app"].
Proof. vm_compute. repeat split. Qed.

(** C7, at its failing inputs.  When the [onLoad] hook of a plugin throws
    (a value that has [toString]), the exception is caught and
    [loadApplication] returns [null]; but the instance was pushed onto
    [loadedApplications] before the hook ran and stays there, so a lookup
    of the plugin's identifier still resolves. *)
Theorem onLoad_failure_stays_loaded applicationPath w cls params e text :
  importModule (host w) (entryModule applicationPath) = Imported cls ->
  superArgs cls = JS.Return (Some params) ->
  onLoad (overrides cls) = JS.Throw e ->
  JS.toString e = JS.Return text ->
  let result := loadApplication applicationPath w in
  fst result = JS.Return None /\
  loadedApplications (snd result)
  = loadedApplications w ++ [instanceOf cls params applicationPath] /\
  findById (id params) (loadedApplications (snd result)) <> None.
Proof.
  intros Himport Hsuper Hhook Htext result. subst result.
  rewrite (loadApplication_constructed _ _ _ _ Himport Hsuper), Hhook, Htext.
  cbn [fst snd loadedApplications registered].
  repeat split.
  rewrite findById_app.
  destruct (findById _ (loadedApplications w)); [discriminate|].
  unfold findById. simpl. now rewrite String.eqb_refl.
Qed.

Lemma onLoad_failure_stays_loaded_witness :
  let result := loadApplication "bad-onload" Scenario.boot in
  fst result = JS.Return None /\
  loadedApplications (snd result)
  = loadedApplications Scenario.boot
    ++ [instanceOf (Scenario.badOnLoad "bad-onload") (Scenario.descriptor "bad-onload")
          "bad-onload"] /\
  findById (id (Scenario.descriptor "bad-onload")) (loadedApplications (snd result))
  <> None.
Proof.
  apply (onLoad_failure_stays_loaded "bad-onload" Scenario.boot
           (Scenario.badOnLoad "bad-onload") (Scenario.descriptor "bad-onload")
           (JS.Error "Error" "onLoad failed") "Error: onLoad failed");
    reflexivity.
Defined.

(** C5, as the code has it.  [uninstallApplication] is a stub: it returns
    and leaves the whole state as it was, so the live set is unchanged and
    no hook is invoked. *)
Theorem uninstall_is_a_stub applicationId w :
  let result := uninstallApplication applicationId w in
  fst result = JS.Return tt /\
  snd result = w /\
  findById applicationId (loadedApplications (snd result))
  = findById applicationId (loadedApplications w) /\
  List.filter (is_hook OnBeforeUninstall) (calls (snd result))
  = List.filter (is_hook OnBeforeUninstall) (calls w).
Proof. cbv zeta. unfold uninstallApplication, ret. cbn [fst snd]. repeat split. Qed.

(** C5 as stated fails: after [uninstallApplication("uk-example-app")] the
    lookup still finds the plugin and [onBeforeUninstall] was never
    called. *)
Example uninstall_keeps_plugin :
  let w' := snd (uninstallApplication "uk-example-app" Scenario.running) in
  findById "uk-example-app" (loadedApplications Scenario.running)
  = Some Scenario.exampleApp /\
  findById "uk-example-app" (loadedApplications w') = Some Scenario.exampleApp /\
  List.filter (is_hook OnBeforeUninstall) (calls w') = [].
Proof. vm_compute. repeat split. Qed.

(** C8, as the code has it.  A new instance carries the sentinel
    ["NOT YET LOADED!!!!"]; [loadApplication] replaces it once, before the
    instance joins the live set, by
    [path.posix.join("./src/applications/" + applicationPath)], which is a
    path relative to the working directory, never an absolute one; the
    instances already in the live set are left as they are. *)
Theorem initializedPath_at_load applicationPath w cls params :
  importModule (host w) (entryModule applicationPath) = Imported cls ->
  superArgs cls = JS.Return (Some params) ->
  let result := loadApplication applicationPath w in
  (exists fresh,
     App.new cls = JS.Return fresh /\
     __internal_initializedPath fresh = "NOT YET LOADED!!!!") /\
  (exists instance,
     loadedApplications (snd result) = loadedApplications w ++ [instance] /\
     __internal_params instance = params /\
     __internal_initializedPath instance
     = Path.join ["./src/applications/" +:+ applicationPath] /\
     Path.isAbsolute (__internal_initializedPath instance) = false /\
     (forall returned, fst result = JS.Return (Some returned) -> returned = instance)).
Proof.
  intros Himport Hsuper result. subst result. split.
  - pose proof (new_cases cls) as Hnew. rewrite Hsuper in Hnew.
    eexists. split; [exact Hnew | reflexivity].
  - exists (instanceOf cls params applicationPath).
    rewrite (loadApplication_constructed _ _ _ _ Himport Hsuper).
    repeat split.
    + destruct (onLoad (overrides cls)) as [[]|e]; [reflexivity|].
      destruct (JS.toString e); reflexivity.
    + apply installPath_relative.
    + intros returned.
      destruct (onLoad (overrides cls)) as [[]|e]; [now intros [= <-]|].
      destruct (JS.toString e); discriminate.
Qed.

Lemma initializedPath_at_load_witness :
  let result := loadApplication "uk-example-app" Scenario.boot in
  (exists fresh,
     App.new (Scenario.plugin "uk-example-app") = JS.Return fresh /\
     __internal_initializedPath fresh = "NOT YET LOADED!!!!") /\
  (exists instance,
     loadedApplications (snd result) = loadedApplications Scenario.boot ++ [instance] /\
     __internal_params instance = Scenario.descriptor "uk-example-app" /\
     __internal_initializedPath instance
     = Path.join ["./src/applications/" +:+ "uk-example-app"] /\
     Path.isAbsolute (__internal_initializedPath instance) = false /\
     (forall returned, fst result = JS.Return (Some returned) -> returned = instance)).
Proof.
  apply (initializedPath_at_load "uk-example-app" Scenario.boot
           (Scenario.plugin "uk-example-app") (Scenario.descriptor "uk-example-app"));
    reflexivity.
Defined.

(** C8 as stated fails: the path set at load time is
    ["src/applications/uk-example-app"], which is not absolute. *)
Example initializedPath_not_absolute :
  exists instance,
    fst (loadApplication "uk-example-app" Scenario.boot) = JS.Return (Some instance) /\
    __internal_initializedPath instance = "src/applications/uk-example-app" /\
    Path.isAbsolute (__internal_initializedPath instance) = false.
Proof. eexists. vm_compute. repeat split. Qed.

(** ** Filesystem *)

(** C9.  [doesPathExist] always returns: [true] exactly when the access
    check succeeds, [false] when it throws; no error reaches the caller,
    and it does nothing but that one access check. *)
Theorem doesPathExist_total path w :
  exists b,
    fst (Filesystem.doesPathExist path w) = JS.Return b /\
    (b = true <-> fst (NodeFs.access path w) = JS.Return tt) /\
    snd (Filesystem.doesPathExist path w) = snd (NodeFs.access path w).
Proof.
  unfold Filesystem.doesPathExist, try_catch, bind, ret.
  destruct (NodeFs.access path w) as [[[]|e] w'] eqn:E; simpl.
  - exists true. repeat split.
  - exists false. repeat split; discriminate.
Qed.

(** ** Quick shortcuts *)



(** C10.  For a loaded application: if its identifier is already in the
    user's pin list, the create operation answers [{ success: false }] and
    leaves the state, the stored list included, as it was; and whatever
    the list was, every stored pin list afterwards is a list stored before
    or the user's list extended by the identifier, which it did not
    contain; so lists without duplicates stay without duplicates. *)
Theorem createQuickShortcut_already_pinned user applicationId w :
  isLoaded w applicationId = true ->
  (forall row0 rest,
     rowsOf user w = row0 :: rest -> In applicationId (pinned_applications row0) ->
     createQuickShortcut user applicationId w = (JS.Return (Some false), w)) /\
  (forall row,
     In row (panel_configuration (snd (createQuickShortcut user applicationId w))) ->
     In row (panel_configuration w) \/
     exists row0, In row0 (panel_configuration w) /\ username row0 = user /\
                  ~ In applicationId (pinned_applications row0) /\
                  pinned_applications row = pinned_applications row0 ++ [applicationId]) /\
  ((forall row, In row (panel_configuration w) -> NoDup (pinned_applications row)) ->
   forall row,
     In row (panel_configuration (snd (createQuickShortcut user applicationId w))) ->
     NoDup (pinned_applications row)).
Proof.
  unfold isLoaded, rowsOf. intros Hloaded.
  destruct (findById applicationId (loadedApplications w)) as [a|] eqn:Hfind; [|discriminate].
  assert (Hrows_after : forall row,
     In row (panel_configuration (snd (createQuickShortcut user applicationId w))) ->
     In row (panel_configuration w) \/
     exists row0, In row0 (panel_configuration w) /\ username row0 = user /\
                  ~ In applicationId (pinned_applications row0) /\
                  pinned_applications row = pinned_applications row0 ++ [applicationId]).
  { intros row.
    unfold createQuickShortcut, select_pinned_applications, update_pinned_applications,
      try_catch, bind, get, ret, throw.
    rewrite Hfind.
    destruct (List.filter _ (panel_configuration w)) as [|row0 rest] eqn:Hrows;
      [now left|].
    destruct (includes (pinned_applications row0) applicationId) eqn:Hinc; [now left|].
    cbn [snd panel_configuration set_panel_configuration].
    intros Hin. apply in_map_iff in Hin as (r & Hr & Hrin).
    destruct (String.eqb (username r) user) eqn:Hu.
    + right. exists row0.
      assert (H0 : In row0 (List.filter (fun r => String.eqb (username r) user)
                              (panel_configuration w))) by (rewrite Hrows; now left).
      apply filter_In in H0 as [H0 Hu0]. apply String.eqb_eq in Hu0.
      repeat split; try assumption.
      * intros Hin. apply includes_In in Hin. congruence.
      * now subst row.
    + left. now subst row. }
  split; [|split].
  - intros row0 rest Hrows Hin.
    unfold createQuickShortcut, select_pinned_applications, try_catch, bind, get, ret.
    rewrite Hfind, Hrows. apply includes_In in Hin. now rewrite Hin.
  - exact Hrows_after.
  - intros Hnodup row Hin.
    destruct (Hrows_after row Hin) as [Hold | (row0 & Hin0 & _ & Hnew & ->)].
    + now apply Hnodup.
    + apply NoDup_app. repeat split.
      * now apply Hnodup.
      * intros x Hx Hx'. apply list_elem_of_In in Hx, Hx'.
        destruct Hx' as [<- | []]. contradiction.
      * apply NoDup_singleton.
Qed.

(** [uk-example-app] is loaded and already pinned by [admin]. *)
Lemma createQuickShortcut_already_pinned_witness :
  let w := Scenario.running in
  createQuickShortcut "admin" "uk-example-app" w = (JS.Return (Some false), w) /\
  (forall row,
     In row (panel_configuration (snd (createQuickShortcut "admin" "uk-example-app" w))) ->
     NoDup (pinned_applications row)).
Proof.
  destruct (createQuickShortcut_already_pinned "admin" "uk-example-app" Scenario.running)
    as (Hpinned & _ & Hnodup).
  - vm_compute. reflexivity.
  - split.
    + apply (Hpinned Scenario.adminRow []).
      * vm_compute. reflexivity.
      * simpl. tauto.
    + apply Hnodup. intros row Hin. vm_compute in Hin.
      destruct Hin as [<- | []]. cbn [pinned_applications].
      apply (bool_decide_unpack (NoDup _)). vm_compute. exact I.
Defined.

(** * More of the code, step by step *)

(** ** The icon routes: every outcome *)

Module CacheFacts.

Import App Sys RequestManager AssetCache Applications Registry RouteFacts RegistryFacts.

(** Every outcome of a rendition request for a loaded plugin. *)
Lemma fetch_cases kind pluginId app w :
  findById pluginId (loadedApplications w) = Some app ->
  let cp := Path.locate (cwd (host w)) (cachePath (host w) kind app) in
  let dirs := NodeFs.ancestors_from []
                (Path.locate (cwd (host w)) (cacheDirectory (host w) app)) in
  exists f cs,
    snd (fetch kind pluginId w) = after w f cs /\
    fst (fetch kind pluginId w) <> JS.Return (Unsent 404) /\
    (f = fs w \/
     exists f1, NodeFs.mkdir_chain dirs (fs w) = Some f1 /\ fs w !! cp = None /\
                (f = f1 \/ exists r, f = <[cp := File r]> f1)).
Proof.
  intros Hfind cp dirs. rewrite fetch_route.
  destruct (present w (cachePath (host w) kind app)) eqn:Hcp.
  - unfold cachePath in Hcp.
    rewrite (route_hit _ _ _ _ _ _ Hfind Hcp). eexists _, _.
    split; [reflexivity|]. split; [discriminate|now left].
  - assert (Hnone : fs w !! cp = None).
    { unfold present, at_path in Hcp. fold cp in Hcp. now destruct (fs w !! cp). }
    unfold cachePath in Hcp.
    destruct (NodeFs.mkdir_chain dirs (fs w)) as [f1|] eqn:Hmk.
    + assert (Hgen : forall c, (c = true -> f1 !! Path.locate (cwd (host w)) (sourceIcon kind app) <> None) ->
        exists f cs,
          snd (route c (cacheFile kind) (sourceFile kind) pluginId w) = after w f cs /\
          fst (route c (cacheFile kind) (sourceFile kind) pluginId w) <> JS.Return (Unsent 404) /\
          (f = f1 \/ exists r, f = <[cp := File r]> f1)).
      { intros c Hc. rewrite (route_generate _ _ _ _ _ _ Hfind f1 Hcp Hmk Hc).
        rewrite resizeImage_eq. unfold at_path. cbn [fs host after].
        destruct (f1 !! _) as [[content|]|].
        - destruct (renderImage _ _ _ _ _) as [out|].
          + rewrite !after_after. eexists _, _. split; [reflexivity|].
            split; [discriminate|]. right. now exists out.
          + rewrite !after_after. eexists _, _. split; [reflexivity|].
            split; [discriminate|].
            destruct (partialImage _ _ _ _ _) as [part|]; [right; now exists part | now left].
        - rewrite !after_after. eexists _, _. split; [reflexivity|].
          split; [discriminate|]. now left.
        - rewrite !after_after. eexists _, _. split; [reflexivity|].
          split; [discriminate|]. now left. }
      destruct (checksSource kind) eqn:Hchk.
      * destruct (f1 !! Path.locate (cwd (host w)) (sourceIcon kind app)) as [n|] eqn:Hsrc.
        -- destruct (Hgen true) as (f & cs & H1 & H2 & H3); [intros _; discriminate|].
           exists f, cs. split; [exact H1|]. split; [exact H2|]. right. now exists f1.
        -- rewrite (route_fallback _ _ _ _ _ _ Hfind f1 eq_refl Hcp Hmk Hsrc).
           eexists _, _. split; [reflexivity|]. split; [discriminate|].
           right. exists f1. repeat split; try assumption. now left.
      * destruct (Hgen false) as (f & cs & H1 & H2 & H3); [discriminate|].
        exists f, cs. split; [exact H1|]. split; [exact H2|]. right. now exists f1.
    + rewrite (route_mkdir_fails _ _ _ _ _ _ Hfind Hcp Hmk). eexists _, _.
      split; [reflexivity|]. split; [discriminate|now left].
Qed.


Lemma cacheFile_inj k1 k2 : cacheFile k1 = cacheFile k2 -> k1 = k2.
Proof. destruct k1, k2; simpl; intros H; (reflexivity || discriminate). Qed.

End CacheFacts.

(** ** The startup check of the filesystem, step by step *)

Module LayoutFacts.

Import App Sys AssetCache RouteFacts CommonPaths Logging Layout.

Lemma create_eq s w :
  create s w
  = match attempt (host w) s (fs w) with
    | JS.Return f =>
        (JS.Return tt,
         after w f (match s with CopyAsset _ _ => [] | _ => [Mkdir (target s)] end))
    | JS.Throw e =>
        (JS.Throw e,
         after w (fs w) (match s with CopyAsset _ _ => [] | _ => [Mkdir (target s)] end))
    end.
Proof.
  destruct w as [h f t l cs]. destruct s as [path|path|src dst]; simpl.
  - unfold FsPromises.mkdir, bind, emit, get, throw, after, set_fs. simpl.
    destruct (FsPromises.mkdir_at _ _ _); reflexivity.
  - unfold NodeFs.mkdir_recursive, bind, emit, get, throw, after, set_fs. simpl.
    destruct (NodeFs.mkdir_chain _ _); reflexivity.
  - unfold FsPromises.cp, bind, emit, get, throw, after, set_fs. simpl.
    destruct (FsPromises.cp_at _ _ _ _ _); now rewrite app_nil_r.
Qed.

Lemma block_run log s created failed verified next w :
  quiet log ->
  exists cs,
    block log s created failed verified next w
    = next (after w (ensure (host w) (fs w) s) cs).
Proof.
  intros Hq. unfold block, bind. rewrite doesPathExist_eq.
  unfold ensure, present, at_path.
  destruct (fs w !! Path.locate (cwd (host w)) (target s)) as [n|] eqn:E.
  - cbn [negb]. cbv iota. unfold log_info, emit, after. simpl.
    eexists. rewrite <- app_assoc. reflexivity.
  - cbn [negb]. cbv iota. unfold try_catch, bind. rewrite create_eq.
    cbn [after host fs].
    destruct (attempt (host w) s (fs w)) as [f'|e].
    + unfold log_info, emit, after. simpl. eexists. rewrite <- !app_assoc. reflexivity.
    + unfold console_error, emit. simpl.
      match goal with |- context [log_error log ?a ?b ?c] =>
        destruct (Hq a b c) as (cs & ->) end.
      unfold after. simpl. eexists. rewrite <- !app_assoc. reflexivity.
Qed.

Lemma blocks_run log script finally :
  quiet log ->
  forall w, exists cs,
    blocks log script finally w
    = finally (after w (fold_left (ensure (host w)) (map fst script) (fs w)) cs).
Proof.
  intros Hq. induction script as [|[s [[c f] v]] rest IH]; intros w.
  - exists []. simpl. unfold after. rewrite app_nil_r. now destruct w.
  - destruct (block_run log s c f v (blocks log rest finally) w Hq) as (cs1 & E1).
    change (blocks log ((s, (c, f, v)) :: rest) finally w)
      with (block log s c f v (blocks log rest finally) w).
    rewrite E1.
    destruct (IH (after w (ensure (host w) (fs w) s) cs1)) as (cs2 & E2).
    rewrite E2. cbn [after host fs map fst fold_left]. rewrite after_after.
    now exists (cs1 ++ cs2).
Qed.

Lemma startup_script log w :
  exists script,
    map fst script = steps (host w) /\
    FilesystemStartup.__internal_startup log w
    = blocks log script
        (Applications.log_info "filesystem" ["Verified filesystem structure!"]) w.
Proof.
  exists
    [ (MakeDirectory (rootDirectory (host w)),
       ("Created " +:+ addEmphasisToString log (rootDirectory (host w)) +:+ " directory.",
        "Failed to create " +:+ addEmphasisToString log (rootDirectory (host w)) +:+ " directory.",
        "Verified " +:+ addEmphasisToString log (rootDirectory (host w)) +:+ " directory."));
      (MakeDirectory (globalCacheDirectory (host w)),
       ("Created " +:+ addEmphasisToString log (globalCacheDirectory (host w)) +:+ " directory.",
        "Failed to create " +:+ addEmphasisToString log (globalCacheDirectory (host w)) +:+ " directory.",
        "Verified " +:+ addEmphasisToString log (globalCacheDirectory (host w)) +:+ " directory."));
      (MakeDirectory (teamsDirectory (host w)),
       ("Created " +:+ addEmphasisToString log (teamsDirectory (host w)) +:+ " directory.",
        "Failed to create " +:+ addEmphasisToString log (teamsDirectory (host w)) +:+ " directory.",
        "Verified " +:+ addEmphasisToString log (teamsDirectory (host w)) +:+ " directory."));
      (MakeDirectory (usersDirectory (host w)),
       ("Created " +:+ addEmphasisToString log (usersDirectory (host w)) +:+ " directory.",
        "Failed to create " +:+ addEmphasisToString log (usersDirectory (host w)) +:+ " directory.",
        "Verified " +:+ addEmphasisToString log (usersDirectory (host w)) +:+ " directory."));
      (MakeDirectory (defaultsDirectory (host w)),
       ("Created " +:+ addEmphasisToString log (defaultsDirectory (host w)) +:+ " directory.",
        "Failed to create " +:+ addEmphasisToString log (defaultsDirectory (host w)) +:+ " directory.",
        "Verified " +:+ addEmphasisToString log (defaultsDirectory (host w)) +:+ " directory."));
      (MakeDirectory (systemDirectory (host w)),
       ("Created " +:+ addEmphasisToString log (systemDirectory (host w)) +:+ " directory.",
        "Failed to create " +:+ addEmphasisToString log (systemDirectory (host w)) +:+ " directory.",
        "Verified " +:+ addEmphasisToString log (systemDirectory (host w)) +:+ " directory."));
      (CopyAsset (defaultAsset (host w) "userAvatar.png") (Path.join [defaultsDirectory (host w); "userAvatar.png"]),
       ("Coppied default asset " +:+ addEmphasisToString log "userAvatar.png" +:+ ".",
        "Failed to copy default asset " +:+ addEmphasisToString log "userAvatar.png" +:+ ".",
        "Verified " +:+ Path.join [defaultsDirectory (host w); "userAvatar.png"] +:+ " exists."));
      (CopyAsset (defaultAsset (host w) "default_login_background.avif") (Path.join [systemDirectory (host w); "loginBackground.avif"]),
       ("Coppied system asset " +:+ addEmphasisToString log "loginBackground.avif" +:+ ".",
        "Failed to copy system asset " +:+ addEmphasisToString log "loginBackground.avif" +:+ ".",
        "Verified " +:+ Path.join [systemDirectory (host w); "loginBackground.avif"] +:+ " exists."));
      (CopyAsset (defaultAsset (host w) "yourdash.png") (Path.join [systemDirectory (host w); "instanceLogo.png"]),
       ("Coppied system asset " +:+ addEmphasisToString log "instanceLogo.png" +:+ ".",
        "Failed to copy system asset " +:+ addEmphasisToString log "instanceLogo.png" +:+ ".",
        "Verified " +:+ Path.join [systemDirectory (host w); "instanceLogo.png"] +:+ " exists."));
      (MakeDirectories (Path.join [globalCacheDirectory (host w); "panel/applications"]),
       ("Created " +:+ addEmphasisToString log (Path.join [globalCacheDirectory (host w); "panel/applications"]) +:+ " directory.",
        "Failed to create " +:+ addEmphasisToString log (Path.join [globalCacheDirectory (host w); "panel/applications"]) +:+ " directory.",
        "Verified " +:+ addEmphasisToString log (Path.join [globalCacheDirectory (host w); "panel/applications"]) +:+ " directory."));
      (CopyAsset (defaultAsset (host w) "yourdash.png") (Path.join [globalCacheDirectory (host w); "panel"; "invalidIcon.webp"]),
       ("Coppied system asset " +:+ addEmphasisToString log "invalidIcon.webp" +:+ ".",
        "Failed to copy system asset " +:+ addEmphasisToString log "invalidIcon.webp" +:+ ".",
        "Verified " +:+ Path.join [globalCacheDirectory (host w); "panel"; "invalidIcon.webp"] +:+ " exists.")) ].
  split; [reflexivity|].
  reflexivity.
Qed.

(** The startup check returns, and leaves the filesystem that the steps
    produce one after the other. *)
Lemma startup_provision log w :
  quiet log ->
  exists cs,
    FilesystemStartup.__internal_startup log w
    = (JS.Return tt, after w (provision (host w) (fs w)) cs).
Proof.
  intros Hq. destruct (startup_script log w) as (script & Hsteps & ->).
  destruct (blocks_run log script
              (Applications.log_info "filesystem" ["Verified filesystem structure!"]) Hq w)
    as (cs & ->).
  rewrite Hsteps. unfold Applications.log_info, emit, provision, after. simpl.
  eexists. rewrite <- app_assoc. reflexivity.
Qed.

(** *** Where the paths of the layout are *)

Lemma locate_join_single c s : Path.locate c (Path.join [s]) = Path.locate c s.
Proof.
  unfold Path.join. simpl List.filter.
  destruct (String.eqb s "") eqn:E; simpl negb; cbv iota.
  - apply String.eqb_eq in E. subst. unfold Path.locate, Path.normalizeSegments. simpl.
    now rewrite !fold_left_app.
  - simpl Path.join_slash. apply PathFacts.locate_normalize.
Qed.

Lemma FS_ROOT_absolute h : Path.isAbsolute (Filesystem.FS_ROOT h) = true.
Proof.
  unfold Filesystem.FS_ROOT, Path.resolve. rewrite (cwd_absolute h), orb_true_r. reflexivity.
Qed.

Lemma cwd_nonempty h : cwd h <> "".
Proof. pose proof (cwd_absolute h) as H. intros E. rewrite E in H. discriminate. Qed.

Lemma extend_plain loc rel :
  Forall (fun x => Path.plain x = true) (Path.split rel) ->
  Path.extend loc rel = loc ++ Path.split rel.
Proof.
  intros H. unfold Path.extend. rewrite PathFacts.fold_step_plain by assumption.
  now rewrite rev_app_distr, !rev_involutive.
Qed.

Lemma locate_FS_ROOT h : Path.locate (cwd h) (Filesystem.FS_ROOT h) = root h.
Proof.
  unfold Filesystem.FS_ROOT. rewrite PathFacts.locate_resolve by apply cwd_absolute.
  change [cwd h; "./fs/"] with ([cwd h] ++ ["./fs/"]).
  rewrite PathFacts.locate_join_snoc by (discriminate || reflexivity).
  rewrite locate_join_single. unfold Path.extend, root, workingDirectory. simpl.
  unfold Path.step. simpl. now rewrite rev_involutive.
Qed.

(** A path below the filesystem root. *)
Lemma locate_below_root h rel :
  Path.locate (cwd h) (Filesystem.FS_ROOT h +:+ String Path.slash rel)
  = Path.extend (root h) rel.
Proof.
  unfold Path.locate at 1.
  rewrite PathFacts.isAbsolute_app, FS_ROOT_absolute.
  - rewrite PathFacts.split_app_slash. unfold Path.normalizeSegments, Path.extend.
    rewrite fold_left_app. f_equal. f_equal.
    rewrite <- locate_FS_ROOT. unfold Path.locate. rewrite FS_ROOT_absolute.
    unfold Path.normalizeSegments. now rewrite rev_involutive.
  - intros E. pose proof (FS_ROOT_absolute h) as H. rewrite E in H. discriminate.
Qed.

Lemma locate_rootDirectory h : Path.locate (cwd h) (rootDirectory h) = root h.
Proof.
  unfold rootDirectory. change "/" with (String Path.slash "").
  rewrite locate_below_root. unfold Path.extend. simpl. apply rev_involutive.
Qed.

Lemma locate_globalCacheDirectory h :
  Path.locate (cwd h) (globalCacheDirectory h) = root h ++ ["Cache"].
Proof.
  unfold globalCacheDirectory. change "/Cache/" with (String Path.slash "Cache/").
  rewrite locate_below_root. unfold Path.extend. simpl. now rewrite rev_involutive.
Qed.

Lemma locate_teamsDirectory h :
  Path.locate (cwd h) (teamsDirectory h) = root h ++ ["Teams"].
Proof.
  unfold teamsDirectory. change "/Teams/" with (String Path.slash "Teams/").
  rewrite locate_below_root. unfold Path.extend. simpl. now rewrite rev_involutive.
Qed.

Lemma locate_usersDirectory h :
  Path.locate (cwd h) (usersDirectory h) = root h ++ ["Users"].
Proof.
  unfold usersDirectory. change "/Users/" with (String Path.slash "Users/").
  rewrite locate_below_root. unfold Path.extend. simpl. now rewrite rev_involutive.
Qed.

Lemma locate_defaultsDirectory h :
  Path.locate (cwd h) (defaultsDirectory h) = root h ++ ["Defaults"].
Proof.
  unfold defaultsDirectory. change "/Defaults/" with (String Path.slash "Defaults/").
  rewrite locate_below_root. unfold Path.extend. simpl. now rewrite rev_involutive.
Qed.

Lemma locate_systemDirectory h :
  Path.locate (cwd h) (systemDirectory h) = root h ++ ["System"].
Proof.
  unfold systemDirectory. change "/System/" with (String Path.slash "System/").
  rewrite locate_below_root. unfold Path.extend. simpl. now rewrite rev_involutive.
Qed.

(** A file or directory joined to a directory of the layout. *)
Lemma locate_join_pair c dir rel :
  rel <> "" -> Path.isAbsolute rel = false ->
  Forall (fun x => Path.plain x = true) (Path.split rel) ->
  Path.locate c (Path.join [dir; rel]) = Path.locate c dir ++ Path.split rel.
Proof.
  intros H1 H2 H3. change [dir; rel] with ([dir] ++ [rel]).
  rewrite PathFacts.locate_join_snoc by assumption.
  rewrite locate_join_single. now apply extend_plain.
Qed.

Lemma locate_join_triple c dir a b :
  a <> "" -> Path.isAbsolute a = false ->
  Forall (fun x => Path.plain x = true) (Path.split a) ->
  b <> "" -> Path.isAbsolute b = false ->
  Forall (fun x => Path.plain x = true) (Path.split b) ->
  Path.locate c (Path.join [dir; a; b]) = (Path.locate c dir ++ Path.split a) ++ Path.split b.
Proof.
  intros H1 H2 H3 H4 H5 H6. change [dir; a; b] with ([dir; a] ++ [b]).
  rewrite PathFacts.locate_join_snoc by assumption.
  rewrite locate_join_pair by assumption. now apply extend_plain.
Qed.

Lemma locate_defaultAsset h file :
  Forall (fun x => Path.plain x = true) (Path.split file) ->
  Path.locate (cwd h) (defaultAsset h file)
  = workingDirectory h ++ ["src"; "backend"; "defaults"] ++ Path.split file.
Proof.
  intros H. unfold defaultAsset.
  change [cwd h; "src/backend/defaults/" +:+ file]
    with ([cwd h] ++ ["src/backend/defaults/" +:+ file]).
  rewrite PathFacts.locate_join_snoc by (discriminate || reflexivity).
  rewrite locate_join_single.
  change ("src/backend/defaults/" +:+ file)
    with ("src/backend/defaults" +:+ String Path.slash file).
  rewrite extend_plain.
  - now rewrite PathFacts.split_app_slash.
  - rewrite PathFacts.split_app_slash. apply Forall_app. split; [|assumption].
    simpl Path.split. repeat (apply List.Forall_cons; [reflexivity|]). apply List.Forall_nil.
Qed.

(** *** What one step does *)

Lemma mkdir_at_inv loc path f f' :
  FsPromises.mkdir_at loc path f = JS.Return f' -> f !! loc = None /\ f' = <[loc := Dir]> f.
Proof.
  unfold FsPromises.mkdir_at. destruct loc as [|x rest]; [discriminate|].
  destruct (f !! (x :: rest)) as [n|]; [discriminate|].
  destruct (removelast (x :: rest)) as [|y parent].
  - intros [= <-]. now split.
  - destruct (f !! (y :: parent)) as [[c|]|]; try discriminate.
    intros [= <-]. now split.
Qed.

Lemma cp_at_inv from to src dst f f' :
  FsPromises.cp_at from to src dst f = JS.Return f' ->
  exists content f1,
    f !! from = Some (File content) /\ from <> to /\
    NodeFs.mkdir_chain (NodeFs.ancestors_from [] (removelast to)) f = Some f1 /\
    f' = <[to := File content]> f1.
Proof.
  unfold FsPromises.cp_at.
  destruct (f !! from) as [[content|]|]; try discriminate.
  assert (H : (if bool_decide (from = to) then JS.Throw (FsPromises.ERR_FS_CP_EINVAL dst)
               else match NodeFs.mkdir_chain (NodeFs.ancestors_from [] (removelast to)) f with
                    | Some f' => JS.Return (<[to := File content]> f')
                    | None => JS.Throw (NodeFs.ENOTDIR dst)
                    end) = JS.Return f' ->
              exists content0 f1,
                Some (File content) = Some (File content0) /\ from <> to /\
                NodeFs.mkdir_chain (NodeFs.ancestors_from [] (removelast to)) f = Some f1 /\
                f' = <[to := File content0]> f1).
  { destruct (bool_decide (from = to)) eqn:E; [discriminate|].
    apply bool_decide_eq_false in E.
    destruct (NodeFs.mkdir_chain _ _) as [f1|]; [|discriminate].
    intros [= <-]. now exists content, f1. }
  destruct (f !! to) as [[c|]|]; try discriminate; exact H.
Qed.

Lemma removelast_shorter (to : list string) : to <> [] -> length (removelast to) < length to.
Proof.
  intros H. destruct (exists_last H) as (l & a & ->).
  rewrite removelast_last, length_app. simpl. lia.
Qed.

Lemma not_own_ancestor (to : list string) :
  ~ In to (NodeFs.ancestors_from [] (removelast to)).
Proof.
  destruct to as [|x rest]; [intros []|].
  intros Hin. apply ancestors_prefix in Hin. apply prefix_length in Hin.
  pose proof (removelast_shorter (x :: rest) ltac:(discriminate)) as H.
  change ([] ++ removelast (x :: rest)) with (removelast (x :: rest)) in Hin. lia.
Qed.

(** A step keeps every entry that exists. *)
Lemma ensure_keeps h f s loc n :
  f !! loc = Some n -> ensure h f s !! loc = Some n.
Proof.
  intros Hloc. unfold ensure.
  destruct (f !! Path.locate (cwd h) (target s)) as [m|] eqn:Ht; [assumption|].
  destruct (attempt h s f) as [f'|e] eqn:Ha; [|assumption].
  destruct s as [path|path|src dst]; simpl in Ha, Ht.
  - apply mkdir_at_inv in Ha as [_ ->].
    rewrite lookup_insert_ne; [assumption | congruence].
  - destruct (NodeFs.mkdir_chain _ _) as [f1|] eqn:Hmk; [|discriminate].
    injection Ha as <-. eapply mkdir_chain_keeps; eassumption.
  - apply cp_at_inv in Ha as (content & f1 & _ & _ & Hmk & ->).
    rewrite lookup_insert_ne by congruence. eapply mkdir_chain_keeps; eassumption.
Qed.

(** The only regular files that a step creates are copies. *)
Lemma ensure_files h f s loc content :
  ensure h f s !! loc = Some (File content) ->
  f !! loc = Some (File content) \/
  exists src dst,
    s = CopyAsset src dst /\ loc = Path.locate (cwd h) dst /\ f !! loc = None /\
    f !! Path.locate (cwd h) src = Some (File content).
Proof.
  unfold ensure.
  destruct (f !! Path.locate (cwd h) (target s)) as [m|] eqn:Ht; [now left|].
  destruct (attempt h s f) as [f'|e] eqn:Ha; [|now left].
  destruct s as [path|path|src dst]; simpl in Ha, Ht.
  - apply mkdir_at_inv in Ha as [_ ->]. intros H.
    destruct (decide (Path.locate (cwd h) path = loc)) as [<-|Hne].
    + now rewrite lookup_insert_eq in H.
    + rewrite lookup_insert_ne in H by assumption. now left.
  - destruct (NodeFs.mkdir_chain _ _) as [f1|] eqn:Hmk; [|discriminate].
    injection Ha as <-. intros H. left. eapply mkdir_chain_no_file; eassumption.
  - apply cp_at_inv in Ha as (c & f1 & Hsrc & _ & Hmk & ->). intros H.
    destruct (decide (Path.locate (cwd h) dst = loc)) as [<-|Hne].
    + rewrite lookup_insert_eq in H. injection H as <-. right. now exists src, dst.
    + rewrite lookup_insert_ne in H by assumption.
      left. eapply mkdir_chain_no_file; eassumption.
Qed.

Lemma fold_ensure_keeps h l : forall f loc n,
  f !! loc = Some n -> fold_left (ensure h) l f !! loc = Some n.
Proof.
  induction l as [|s rest IH]; intros f loc n H; [assumption|].
  simpl. apply IH. now apply ensure_keeps.
Qed.

Lemma fold_ensure_files h l : forall f loc content,
  fold_left (ensure h) l f !! loc = Some (File content) ->
  f !! loc = Some (File content) \/
  exists src dst,
    In (CopyAsset src dst) l /\ loc = Path.locate (cwd h) dst /\ f !! loc = None.
Proof.
  induction l as [|s rest IH]; intros f loc content H; [now left|].
  simpl in H. apply IH in H as [H | (src & dst & Hin & -> & Hnone)].
  - apply ensure_files in H as [H | (src & dst & -> & -> & Hnone & Hsrc)]; [now left|].
    right. exists src, dst. repeat split; try assumption. now left.
  - right. exists src, dst. repeat split; [now right|].
    destruct (f !! Path.locate (cwd h) dst) as [n|] eqn:E; [|reflexivity].
    now rewrite (ensure_keeps _ _ _ _ _ E) in Hnone.
Qed.

Lemma ancestors_from_app a : forall pre b,
  NodeFs.ancestors_from pre (a ++ b)
  = NodeFs.ancestors_from pre a ++ NodeFs.ancestors_from (pre ++ a) b.
Proof.
  induction a as [|x a IH]; intros pre b; simpl.
  - now rewrite app_nil_r.
  - rewrite IH, <- app_assoc. reflexivity.
Qed.

Lemma ancestors_self pre loc x :
  In (pre ++ loc ++ [x]) (NodeFs.ancestors_from pre (loc ++ [x])).
Proof.
  rewrite ancestors_from_app. apply in_or_app. right. simpl. left. now rewrite app_assoc.
Qed.

Lemma ancestors_of_prefix a b d :
  In d (NodeFs.ancestors_from [] a) -> In d (NodeFs.ancestors_from [] (a ++ b)).
Proof. intros H. rewrite ancestors_from_app. apply in_or_app. now left. Qed.

Lemma notFile_true f loc :
  notFile f loc = true <-> forall content, f !! loc <> Some (File content).
Proof.
  unfold notFile. destruct (f !! loc) as [[c|]|]; split; try congruence; try discriminate.
  intros H. now destruct (H c).
Qed.

Lemma mkdir_chain_unobstructed ds : forall f,
  (forall d, In d ds -> notFile f d = true) -> exists f', NodeFs.mkdir_chain ds f = Some f'.
Proof.
  induction ds as [|d rest IH]; intros f H; [now exists f|].
  simpl. pose proof (H d (or_introl eq_refl)) as Hd. unfold notFile in Hd.
  destruct (f !! d) as [[c|]|] eqn:E; [discriminate| |].
  - apply IH. intros d' Hd'. apply H. now right.
  - apply IH. intros d' Hd'. unfold notFile.
    destruct (decide (d = d')) as [<-|Hne].
    + now rewrite lookup_insert_eq.
    + rewrite lookup_insert_ne by assumption. apply (H d'). now right.
Qed.

Lemma mkdir_at_ok loc path f :
  loc <> [] -> f !! loc = None -> f !! removelast loc = Some Dir ->
  FsPromises.mkdir_at loc path f = JS.Return (<[loc := Dir]> f).
Proof.
  intros Hne Hnone Hparent. unfold FsPromises.mkdir_at.
  destruct loc as [|y l]; [contradiction|]. rewrite Hnone.
  destruct (removelast (y :: l)) as [|z parent]; [reflexivity|]. now rewrite Hparent.
Qed.

(** A directory of the layout appears when the directory above it exists
    and no regular file has its place. *)
Lemma ensure_directory h f path parent x :
  Path.locate (cwd h) path = parent ++ [x] ->
  f !! parent = Some Dir -> notFile f (parent ++ [x]) = true ->
  ensure h f (MakeDirectory path) !! (parent ++ [x]) = Some Dir.
Proof.
  intros Hloc Hparent Hfree. unfold ensure. simpl target. rewrite Hloc.
  unfold notFile in Hfree.
  destruct (f !! (parent ++ [x])) as [[c|]|] eqn:E; [discriminate|assumption|].
  simpl attempt. rewrite Hloc, mkdir_at_ok.
  - apply lookup_insert_eq.
  - now destruct parent.
  - assumption.
  - now rewrite removelast_last.
Qed.

Lemma ensure_directories h f path loc x :
  Path.locate (cwd h) path = loc ++ [x] ->
  (forall d, In d (NodeFs.ancestors_from [] (loc ++ [x])) -> notFile f d = true) ->
  ensure h f (MakeDirectories path) !! (loc ++ [x]) = Some Dir.
Proof.
  intros Hloc Hfree. unfold ensure. simpl target. rewrite Hloc.
  pose proof (Hfree _ (ancestors_self [] loc x)) as Hself. simpl in Hself.
  unfold notFile in Hself.
  destruct (f !! (loc ++ [x])) as [[c|]|] eqn:E; [discriminate|assumption|].
  simpl attempt. rewrite Hloc.
  destruct (mkdir_chain_unobstructed _ _ Hfree) as (f' & Hmk). rewrite Hmk.
  eapply mkdir_chain_dirs; [eassumption|]. apply (ancestors_self [] loc x).
Qed.

Lemma ensure_copy h f src dst content :
  f !! Path.locate (cwd h) src = Some (File content) ->
  Path.locate (cwd h) src <> Path.locate (cwd h) dst ->
  (forall d, In d (NodeFs.ancestors_from [] (removelast (Path.locate (cwd h) dst))) ->
             notFile f d = true) ->
  ensure h f (CopyAsset src dst) !! Path.locate (cwd h) dst
  = settled (f !! Path.locate (cwd h) dst) (File content).
Proof.
  intros Hsrc Hne Hfree. unfold ensure. simpl target.
  destruct (f !! Path.locate (cwd h) dst) as [n|] eqn:E; [now rewrite E|].
  simpl attempt. unfold FsPromises.cp_at. rewrite Hsrc, E.
  rewrite bool_decide_eq_false_2 by assumption.
  destruct (mkdir_chain_unobstructed _ _ Hfree) as (f' & ->).
  simpl. apply lookup_insert_eq.
Qed.

(** A step creates nothing outside the locations it can touch. *)
Lemma ensure_untouched h f s loc :
  f !! loc = None -> ~ In loc (touched h s) -> ensure h f s !! loc = None.
Proof.
  intros Hnone Hout. unfold ensure.
  destruct (f !! Path.locate (cwd h) (target s)) as [m|] eqn:Ht; [assumption|].
  destruct (attempt h s f) as [f'|e] eqn:Ha; [|assumption].
  destruct s as [path|path|src dst]; simpl in Ha, Ht, Hout.
  - apply mkdir_at_inv in Ha as [_ ->]. rewrite lookup_insert_ne; [assumption|tauto].
  - destruct (NodeFs.mkdir_chain _ _) as [f1|] eqn:Hmk; [|discriminate].
    injection Ha as <-.
    destruct (mkdir_chain_lookup _ _ _ Hmk loc) as [-> | (Hin & _)]; [assumption|contradiction].
  - apply cp_at_inv in Ha as (c & f1 & _ & _ & Hmk & ->).
    destruct (decide (Path.locate (cwd h) dst = loc)) as [E|Hne]; [tauto|].
    rewrite lookup_insert_ne by assumption.
    destruct (mkdir_chain_lookup _ _ _ Hmk loc) as [-> | (Hin & _)]; [assumption|].
    exfalso. apply Hout. right.
    destruct (Path.locate (cwd h) dst) as [|y l] using rev_ind; [destruct Hin|].
    rewrite removelast_last in Hin. now apply ancestors_of_prefix.
Qed.

(** *** Where the targets of the steps are, from the working directory *)

Lemma location_rootDirectory h :
  Path.locate (cwd h) (rootDirectory h) = workingDirectory h ++ ["fs"].
Proof. apply locate_rootDirectory. Qed.

Lemma location_globalCacheDirectory h :
  Path.locate (cwd h) (globalCacheDirectory h) = workingDirectory h ++ ["fs"; "Cache"].
Proof. rewrite locate_globalCacheDirectory. unfold root. now rewrite <- app_assoc. Qed.

Lemma location_teamsDirectory h :
  Path.locate (cwd h) (teamsDirectory h) = workingDirectory h ++ ["fs"; "Teams"].
Proof. rewrite locate_teamsDirectory. unfold root. now rewrite <- app_assoc. Qed.

Lemma location_usersDirectory h :
  Path.locate (cwd h) (usersDirectory h) = workingDirectory h ++ ["fs"; "Users"].
Proof. rewrite locate_usersDirectory. unfold root. now rewrite <- app_assoc. Qed.

Lemma location_defaultsDirectory h :
  Path.locate (cwd h) (defaultsDirectory h) = workingDirectory h ++ ["fs"; "Defaults"].
Proof. rewrite locate_defaultsDirectory. unfold root. now rewrite <- app_assoc. Qed.

Lemma location_systemDirectory h :
  Path.locate (cwd h) (systemDirectory h) = workingDirectory h ++ ["fs"; "System"].
Proof. rewrite locate_systemDirectory. unfold root. now rewrite <- app_assoc. Qed.

Lemma location_userAvatar h :
  Path.locate (cwd h) (Path.join [defaultsDirectory h; "userAvatar.png"])
  = workingDirectory h ++ ["fs"; "Defaults"; "userAvatar.png"].
Proof.
  rewrite locate_join_pair;
    [|discriminate|reflexivity|repeat (apply List.Forall_cons; [reflexivity|]); apply List.Forall_nil].
  rewrite location_defaultsDirectory. now rewrite <- app_assoc.
Qed.

Lemma location_loginBackground h :
  Path.locate (cwd h) (Path.join [systemDirectory h; "loginBackground.avif"])
  = workingDirectory h ++ ["fs"; "System"; "loginBackground.avif"].
Proof.
  rewrite locate_join_pair;
    [|discriminate|reflexivity|repeat (apply List.Forall_cons; [reflexivity|]); apply List.Forall_nil].
  rewrite location_systemDirectory. now rewrite <- app_assoc.
Qed.

Lemma location_instanceLogo h :
  Path.locate (cwd h) (Path.join [systemDirectory h; "instanceLogo.png"])
  = workingDirectory h ++ ["fs"; "System"; "instanceLogo.png"].
Proof.
  rewrite locate_join_pair;
    [|discriminate|reflexivity|repeat (apply List.Forall_cons; [reflexivity|]); apply List.Forall_nil].
  rewrite location_systemDirectory. now rewrite <- app_assoc.
Qed.

Lemma location_panelApplications h :
  Path.locate (cwd h) (Path.join [globalCacheDirectory h; "panel/applications"])
  = workingDirectory h ++ ["fs"; "Cache"; "panel"; "applications"].
Proof.
  rewrite locate_join_pair;
    [|discriminate|reflexivity|repeat (apply List.Forall_cons; [reflexivity|]); apply List.Forall_nil].
  rewrite location_globalCacheDirectory. now rewrite <- app_assoc.
Qed.

Lemma location_invalidIcon h :
  Path.locate (cwd h) (Path.join [globalCacheDirectory h; "panel"; "invalidIcon.webp"])
  = workingDirectory h ++ ["fs"; "Cache"; "panel"; "invalidIcon.webp"].
Proof.
  rewrite locate_join_triple;
    [|discriminate|reflexivity|repeat (apply List.Forall_cons; [reflexivity|]); apply List.Forall_nil
     |discriminate|reflexivity|repeat (apply List.Forall_cons; [reflexivity|]); apply List.Forall_nil].
  rewrite location_globalCacheDirectory. now rewrite <- !app_assoc.
Qed.

Lemma location_defaultAsset h file :
  Path.noslash file = true -> Path.plain file = true ->
  Path.locate (cwd h) (defaultAsset h file)
  = workingDirectory h ++ ["src"; "backend"; "defaults"; file].
Proof.
  intros H1 H2. rewrite locate_defaultAsset; rewrite PathFacts.split_of_noslash by assumption.
  - reflexivity.
  - now constructor.
Qed.

Lemma obstacles_eq h :
  obstacles h
  = NodeFs.ancestors_from [] (workingDirectory h)
    ++ [ workingDirectory h ++ ["fs"];
         workingDirectory h ++ ["fs"; "Cache"];
         workingDirectory h ++ ["fs"; "Cache"; "panel"];
         workingDirectory h ++ ["fs"; "Cache"; "panel"; "applications"];
         workingDirectory h ++ ["fs"; "Teams"];
         workingDirectory h ++ ["fs"; "Users"];
         workingDirectory h ++ ["fs"; "Defaults"];
         workingDirectory h ++ ["fs"; "System"] ].
Proof.
  unfold obstacles. simpl map.
  rewrite location_panelApplications, location_teamsDirectory, location_usersDirectory,
    location_defaultsDirectory, location_systemDirectory.
  rewrite ancestors_from_app. simpl. rewrite <- !app_assoc. simpl. reflexivity.
Qed.

Ltac apart :=
  let H := fresh "H" in
  intros H; apply app_inv_head in H; discriminate H.

Ltac not_above :=
  let H := fresh "H" in
  let k := fresh "k" in
  intros H; apply ancestors_prefix in H; destruct H as [k H];
  cbn [List.app] in H; rewrite <- app_assoc in H; apply app_inv_head in H;
  discriminate H.

(** *** The steps together *)

Lemma provision_split h f l1 s l2 :
  steps h = l1 ++ s :: l2 ->
  provision h f = fold_left (ensure h) l2 (ensure h (fold_left (ensure h) l1 f) s).
Proof. intros E. unfold provision. now rewrite E, fold_left_app. Qed.

Lemma copies_of_steps h src dst :
  In (CopyAsset src dst) (steps h) ->
  Path.locate (cwd h) dst = workingDirectory h ++ ["fs"; "Defaults"; "userAvatar.png"] \/
  Path.locate (cwd h) dst = workingDirectory h ++ ["fs"; "System"; "loginBackground.avif"] \/
  Path.locate (cwd h) dst = workingDirectory h ++ ["fs"; "System"; "instanceLogo.png"] \/
  Path.locate (cwd h) dst = workingDirectory h ++ ["fs"; "Cache"; "panel"; "invalidIcon.webp"].
Proof.
  unfold steps. intros H. simpl in H.
  repeat (destruct H as [H|H]; [try discriminate H|]); try contradiction;
    injection H as _ <-.
  - left. apply location_userAvatar.
  - right. left. apply location_loginBackground.
  - right. right. left. apply location_instanceLogo.
  - right. right. right. apply location_invalidIcon.
Qed.

Lemma copies_not_obstacles h src dst :
  In (CopyAsset src dst) (steps h) -> ~ In (Path.locate (cwd h) dst) (obstacles h).
Proof.
  intros Hin Hobs. rewrite obstacles_eq in Hobs.
  apply in_app_or in Hobs as [Hobs | Hobs].
  - apply ancestors_prefix in Hobs. apply prefix_length in Hobs.
    apply copies_of_steps in Hin as [E | [E | [E | E]]]; rewrite E in Hobs;
      rewrite length_app in Hobs; simpl in Hobs; lia.
  - apply copies_of_steps in Hin as [E | [E | [E | E]]]; rewrite E in Hobs;
      simpl in Hobs;
      repeat (destruct Hobs as [Hobs|Hobs]; [apply app_inv_head in Hobs; discriminate Hobs|]);
      contradiction.
Qed.

(** No step puts a regular file where the layout wants a directory. *)
Lemma steps_unobstructed h l1 l2 f :
  steps h = l1 ++ l2 ->
  (forall d, In d (obstacles h) -> notFile f d = true) ->
  forall d, In d (obstacles h) -> notFile (fold_left (ensure h) l1 f) d = true.
Proof.
  intros Hsteps Hfree d Hd. apply notFile_true. intros content Hfile.
  apply fold_ensure_files in Hfile as [Hfile | (src & dst & Hin & -> & _)].
  - specialize (Hfree d Hd). rewrite notFile_true in Hfree. now apply (Hfree content).
  - apply (copies_not_obstacles h src dst); [|assumption].
    rewrite Hsteps. apply in_or_app. now left.
Qed.

Lemma fold_untouched h l : forall f loc,
  f !! loc = None -> (forall s, In s l -> ~ In loc (touched h s)) ->
  fold_left (ensure h) l f !! loc = None.
Proof.
  induction l as [|s rest IH]; intros f loc Hnone Hout; [assumption|].
  simpl. apply IH.
  - apply ensure_untouched; [assumption | apply Hout; now left].
  - intros s' Hs'. apply Hout. now right.
Qed.

(** What is at a location that the earlier steps cannot create. *)
Lemma fold_same h l f loc :
  (forall s, In s l -> ~ In loc (touched h s)) ->
  fold_left (ensure h) l f !! loc = f !! loc.
Proof.
  intros Hout. destruct (f !! loc) as [n|] eqn:E.
  - now apply fold_ensure_keeps.
  - now apply fold_untouched.
Qed.

Lemma settled_some before n : exists m, settled before n = Some m.
Proof. destruct before as [e|]; [now exists e | now exists n]. Qed.

Lemma provision_at i h f :
  provision h f
  = fold_left (ensure h) (skipn i (steps h)) (fold_left (ensure h) (firstn i (steps h)) f).
Proof. unfold provision. now rewrite <- fold_left_app, firstn_skipn. Qed.

Ltac untouched_by_earlier :=
  let s := fresh "s" in
  let Hs := fresh "Hs" in
  intros s Hs; unfold steps in Hs; cbn [firstn In] in Hs;
  repeat (destruct Hs as [Hs|Hs];
          [subst s; cbn [touched];
           rewrite ?location_rootDirectory, ?location_globalCacheDirectory,
             ?location_teamsDirectory, ?location_usersDirectory,
             ?location_defaultsDirectory, ?location_systemDirectory,
             ?location_userAvatar, ?location_loginBackground, ?location_instanceLogo,
             ?location_panelApplications, ?location_invalidIcon;
           let H := fresh "H" in
           intros H; cbn [In] in H;
           repeat (match type of H with
                   | _ \/ _ => destruct H as [H|H]
                   | False => contradiction
                   | _ = _ => apply app_inv_head in H; discriminate H
                   | In _ (NodeFs.ancestors_from _ _) => revert H; not_above
                   end)
          |]);
  try contradiction.

Lemma fold_left_step {A B : Type} (g : A -> B -> A) s l a :
  fold_left g (s :: l) a = fold_left g l (g a s).
Proof. reflexivity. Qed.

Lemma skipn_nth {A : Type} (l : list A) i s :
  nth_error l i = Some s -> skipn i l = s :: skipn (S i) l.
Proof.
  revert l. induction i as [|i IH]; intros [|x l] H; try discriminate.
  - now injection H as ->.
  - apply (IH l H).
Qed.

(** The state after the step at position [i]. *)
Lemma provision_nth i h f s :
  nth_error (steps h) i = Some s ->
  provision h f
  = fold_left (ensure h) (skipn (S i) (steps h))
      (ensure h (fold_left (ensure h) (firstn i (steps h)) f) s).
Proof. intros H. now rewrite (provision_at i), (skipn_nth _ _ _ H). Qed.

Section Establish.
Variables (h : Host) (f : gmap (list string) node) (avatar background logo : bytes).
Hypothesis Hcwd : f !! workingDirectory h = Some Dir.
Hypothesis Hfree : forall d, In d (obstacles h) -> notFile f d = true.
Hypothesis Havatar :
  f !! Path.locate (cwd h) (defaultAsset h "userAvatar.png") = Some (File avatar).
Hypothesis Hbackground :
  f !! Path.locate (cwd h) (defaultAsset h "default_login_background.avif")
  = Some (File background).
Hypothesis Hlogo :
  f !! Path.locate (cwd h) (defaultAsset h "yourdash.png") = Some (File logo).

Lemma free_after i d :
  In d (obstacles h) -> notFile (fold_left (ensure h) (firstn i (steps h)) f) d = true.
Proof.
  apply (steps_unobstructed h (firstn i (steps h)) (skipn i (steps h))); [|exact Hfree].
  now rewrite firstn_skipn.
Qed.

Lemma root_after i :
  1 <= i ->
  fold_left (ensure h) (firstn i (steps h)) f !! (workingDirectory h ++ ["fs"]) = Some Dir.
Proof.
  destruct i as [|i]; [lia|]. intros _. unfold steps. cbn [firstn fold_left].
  apply fold_ensure_keeps.
  apply ensure_directory; [apply location_rootDirectory | exact Hcwd |].
  apply Hfree. rewrite obstacles_eq. apply in_or_app. right. now left.
Qed.

Lemma established_root : provision h f !! (workingDirectory h ++ ["fs"]) = Some Dir.
Proof.
  rewrite (provision_nth 0 h f (MakeDirectory (rootDirectory h)) eq_refl).
  apply fold_ensure_keeps.
  apply ensure_directory; [apply location_rootDirectory | exact Hcwd |].
  apply Hfree. rewrite obstacles_eq. apply in_or_app. right. now left.
Qed.

Lemma established_below i path x :
  1 <= i -> nth_error (steps h) i = Some (MakeDirectory path) ->
  Path.locate (cwd h) path = workingDirectory h ++ ["fs"; x] ->
  In (workingDirectory h ++ ["fs"; x]) (obstacles h) ->
  provision h f !! (workingDirectory h ++ ["fs"; x]) = Some Dir.
Proof.
  intros Hi Hnth Hloc Hobs. rewrite (provision_nth i h f _ Hnth).
  apply fold_ensure_keeps.
  change (workingDirectory h ++ ["fs"; x]) with (workingDirectory h ++ ["fs"] ++ [x]) in *.
  rewrite app_assoc in *.
  apply ensure_directory; [exact Hloc | now apply root_after | now apply free_after].
Qed.

Lemma established_panelApplications :
  provision h f !! (workingDirectory h ++ ["fs"; "Cache"; "panel"; "applications"]) = Some Dir.
Proof.
  rewrite (provision_nth 9 h f
             (MakeDirectories (Path.join [globalCacheDirectory h; "panel/applications"]))
             eq_refl).
  apply fold_ensure_keeps.
  change (workingDirectory h ++ ["fs"; "Cache"; "panel"; "applications"])
    with (workingDirectory h ++ ["fs"; "Cache"; "panel"] ++ ["applications"]).
  rewrite app_assoc.
  apply ensure_directories.
  - rewrite location_panelApplications. now rewrite <- app_assoc.
  - intros d Hd. apply free_after. unfold obstacles. apply in_or_app. left.
    rewrite location_panelApplications. now rewrite <- app_assoc in Hd.
Qed.

Lemma source_apart file rest :
  workingDirectory h ++ ["src"; "backend"; "defaults"; file]
  <> workingDirectory h ++ "fs" :: rest.
Proof. apart. Qed.

(** An asset of the layout: what was at its place stays, otherwise it is
    a copy of the default. *)
Lemma established_asset i file dst loc content :
  nth_error (steps h) i = Some (CopyAsset (defaultAsset h file) dst) ->
  Path.noslash file = true -> Path.plain file = true ->
  Path.locate (cwd h) dst = workingDirectory h ++ "fs" :: loc ->
  f !! Path.locate (cwd h) (defaultAsset h file) = Some (File content) ->
  (forall s, In s (firstn i (steps h)) ->
             ~ In (workingDirectory h ++ "fs" :: loc) (touched h s)) ->
  (forall d, In d (NodeFs.ancestors_from [] (removelast (workingDirectory h ++ "fs" :: loc))) ->
             In d (obstacles h)) ->
  provision h f !! (workingDirectory h ++ "fs" :: loc)
  = settled (f !! (workingDirectory h ++ "fs" :: loc)) (File content).
Proof.
  intros Hnth Hfile1 Hfile2 Hloc Hsrc Hout Habove.
  rewrite (provision_nth i h f _ Hnth).
  destruct (settled_some (f !! (workingDirectory h ++ "fs" :: loc)) (File content))
    as (m & Hm).
  rewrite Hm. apply fold_ensure_keeps.
  rewrite <- Hm, <- (fold_same h (firstn i (steps h)) f _ Hout), <- Hloc.
  apply ensure_copy.
  - apply fold_ensure_keeps. exact Hsrc.
  - rewrite Hloc, location_defaultAsset by assumption. apply source_apart.
  - intros d Hd. rewrite Hloc in Hd. apply free_after. now apply Habove.
Qed.

Lemma above_asset dir file d :
  In (workingDirectory h ++ ["fs"; dir]) (obstacles h) ->
  In d (NodeFs.ancestors_from [] (removelast (workingDirectory h ++ ["fs"; dir; file]))) ->
  In d (obstacles h).
Proof.
  intros Hdir Hd.
  change (workingDirectory h ++ ["fs"; dir; file])
    with (workingDirectory h ++ ["fs"; dir] ++ [file]) in Hd.
  rewrite app_assoc, removelast_last in Hd.
  rewrite ancestors_from_app in Hd. cbn [NodeFs.ancestors_from List.app] in Hd.
  apply in_app_or in Hd as [Hd | Hd].
  - rewrite obstacles_eq. apply in_or_app. now left.
  - cbn [In] in Hd. destruct Hd as [<- | [<- | []]].
    + rewrite obstacles_eq. apply in_or_app. right. now left.
    + rewrite <- app_assoc. exact Hdir.
Qed.

Lemma established_userAvatar :
  provision h f !! (workingDirectory h ++ ["fs"; "Defaults"; "userAvatar.png"])
  = settled (f !! (workingDirectory h ++ ["fs"; "Defaults"; "userAvatar.png"])) (File avatar).
Proof.
  apply (established_asset 6 "userAvatar.png"
           (Path.join [defaultsDirectory h; "userAvatar.png"]));
    [reflexivity | reflexivity | reflexivity | apply location_userAvatar | exact Havatar | |].
  - untouched_by_earlier.
  - intros d. apply above_asset. rewrite obstacles_eq. apply in_or_app. right. cbn [In]. tauto.
Qed.

Lemma established_loginBackground :
  provision h f !! (workingDirectory h ++ ["fs"; "System"; "loginBackground.avif"])
  = settled (f !! (workingDirectory h ++ ["fs"; "System"; "loginBackground.avif"]))
            (File background).
Proof.
  apply (established_asset 7 "default_login_background.avif"
           (Path.join [systemDirectory h; "loginBackground.avif"]));
    [reflexivity | reflexivity | reflexivity | apply location_loginBackground
     | exact Hbackground | |].
  - untouched_by_earlier.
  - intros d. apply above_asset. rewrite obstacles_eq. apply in_or_app. right. cbn [In]. tauto.
Qed.

Lemma established_instanceLogo :
  provision h f !! (workingDirectory h ++ ["fs"; "System"; "instanceLogo.png"])
  = settled (f !! (workingDirectory h ++ ["fs"; "System"; "instanceLogo.png"])) (File logo).
Proof.
  apply (established_asset 8 "yourdash.png"
           (Path.join [systemDirectory h; "instanceLogo.png"]));
    [reflexivity | reflexivity | reflexivity | apply location_instanceLogo | exact Hlogo | |].
  - untouched_by_earlier.
  - intros d. apply above_asset. rewrite obstacles_eq. apply in_or_app. right. cbn [In]. tauto.
Qed.

Lemma established_invalidIcon :
  provision h f !! (workingDirectory h ++ ["fs"; "Cache"; "panel"; "invalidIcon.webp"])
  = settled (f !! (workingDirectory h ++ ["fs"; "Cache"; "panel"; "invalidIcon.webp"]))
            (File logo).
Proof.
  apply (established_asset 10 "yourdash.png"
           (Path.join [globalCacheDirectory h; "panel"; "invalidIcon.webp"]));
    [reflexivity | reflexivity | reflexivity | apply location_invalidIcon | exact Hlogo | |].
  - untouched_by_earlier.
  - intros d Hd.
    change (workingDirectory h ++ ["fs"; "Cache"; "panel"; "invalidIcon.webp"])
      with (workingDirectory h ++ ["fs"; "Cache"; "panel"] ++ ["invalidIcon.webp"]) in Hd.
    rewrite app_assoc, removelast_last in Hd.
    unfold obstacles. apply in_or_app. left. rewrite location_panelApplications.
    change (workingDirectory h ++ ["fs"; "Cache"; "panel"; "applications"])
      with (workingDirectory h ++ ["fs"; "Cache"; "panel"] ++ ["applications"]).
    rewrite app_assoc. now apply ancestors_of_prefix.
Qed.
End Establish.

Lemma provision_laidOut h l : forall f,
  (forall s, In s l -> f !! Path.locate (cwd h) (target s) <> None) ->
  fold_left (ensure h) l f = f.
Proof.
  induction l as [|s rest IH]; intros f H; [reflexivity|].
  rewrite fold_left_step.
  assert (E : ensure h f s = f).
  { unfold ensure. pose proof (H s (or_introl eq_refl)) as Hs.
    now destruct (f !! Path.locate (cwd h) (target s)). }
  rewrite E. apply IH. intros s' Hs'. apply H. now right.
Qed.

Lemma laidOut_true w :
  laidOut w = true
  <-> forall s, In s (steps (host w)) -> fs w !! Path.locate (cwd (host w)) (target s) <> None.
Proof.
  unfold laidOut. rewrite forallb_forall. split; intros H s Hs; specialize (H s Hs).
  - now destruct (fs w !! _).
  - now destruct (fs w !! _).
Qed.

Lemma unobstructed_true w :
  unobstructed w = true <-> forall d, In d (obstacles (host w)) -> notFile (fs w) d = true.
Proof. unfold unobstructed. apply forallb_forall. Qed.

End LayoutFacts.

(** ** The instance logos, step by step *)

Module LogoFacts.

Import App Sys AssetCache RouteFacts CommonPaths Layout LayoutFacts Logos.

(** One iteration of the loop. *)
Lemma generateLogos_cons dimension rest w :
  Instance.generateLogos (instanceLogoPath (host w)) (dimension :: rest) w
  = if present w (logoPath (host w) dimension) then
      Instance.generateLogos (instanceLogoPath (host w)) rest
        (after w (fs w) (found (host w) dimension))
    else
      match at_path w (instanceLogoPath (host w)) with
      | Some (File content) =>
          match renderImage (host w) content dimension dimension "webp" with
          | Some out =>
              Instance.generateLogos (instanceLogoPath (host w)) rest
                (after w (<[Path.locate (cwd (host w)) (logoPath (host w) dimension)
                            := File out]> (fs w))
                       (made (host w) dimension))
          | None =>
              (JS.Throw (Image.RenditionError (instanceLogoPath (host w))),
               after w
                 (match partialImage (host w) content dimension dimension "webp" with
                  | Some part =>
                      <[Path.locate (cwd (host w)) (logoPath (host w) dimension)
                        := File part]> (fs w)
                  | None => fs w
                  end)
                 (stopped (host w) dimension))
          end
      | _ =>
          (JS.Throw (Image.RenditionError (instanceLogoPath (host w))),
           after w (fs w) (stopped (host w) dimension))
      end.
Proof.
  change (Instance.generateLogos (instanceLogoPath (host w)) (dimension :: rest) w)
    with (bind get (fun w0 =>
            bind (Filesystem.doesPathExist (logoPath (host w0) dimension))
              (fun exists_ : bool =>
                 if exists_ then
                   bind (Applications.log_info "instance"
                           ["instanceLogo @ " +:+ Instance.number dimension
                            +:+ " already exists. Not generating new logo"])
                     (fun _ => Instance.generateLogos (instanceLogoPath (host w)) rest)
                 else
                   bind (Image.resizeImage (instanceLogoPath (host w)) dimension dimension
                           (logoPath (host w0) dimension) "webp")
                     (fun _ =>
                        bind (Applications.log_info "instance"
                                ["Genertated instanceLogo @ " +:+ Instance.number dimension
                                 +:+ "."])
                          (fun _ =>
                             Instance.generateLogos (instanceLogoPath (host w)) rest)))) w).
  unfold bind at 1. unfold get at 1. cbv iota beta.
  unfold bind at 1. rewrite doesPathExist_eq.
  destruct (present w (logoPath (host w) dimension)) eqn:Hp.
  - unfold bind, Applications.log_info, emit. cbn [after host fs calls
      loadedApplications panel_configuration].
    unfold found, after. rewrite <- app_assoc. reflexivity.
  - unfold bind at 1. rewrite resizeImage_eq. unfold at_path. cbn [after host fs].
    destruct (fs w !! Path.locate (cwd (host w)) (instanceLogoPath (host w)))
      as [[content|]|]; try (unfold stopped; rewrite after_after; reflexivity).
    destruct (renderImage (host w) content dimension dimension "webp") as [out|];
      [|unfold stopped; rewrite after_after; reflexivity].
    unfold bind, Applications.log_info, emit. cbn [after host fs calls
      loadedApplications panel_configuration].
    unfold made, after. rewrite <- !app_assoc. reflexivity.
Qed.

Lemma generateLogos_nil src w : Instance.generateLogos src [] w = (JS.Return tt, w).
Proof. reflexivity. Qed.

Lemma after_same w : after w (fs w) [] = w.
Proof. unfold after. rewrite app_nil_r. now destruct w. Qed.

(** Whatever the loop does, it keeps what exists and creates nothing but
    renditions. *)
Lemma generateLogos_adds dimensions : forall w,
  exists f cs,
    snd (Instance.generateLogos (instanceLogoPath (host w)) dimensions w) = after w f cs /\
    (forall loc n, fs w !! loc = Some n -> f !! loc = Some n) /\
    (forall loc, fs w !! loc = None -> f !! loc <> None ->
       exists dimension,
         In dimension dimensions /\
         loc = Path.locate (cwd (host w)) (logoPath (host w) dimension)).
Proof.
  induction dimensions as [|d rest IH]; intros w.
  - exists (fs w), []. rewrite generateLogos_nil, after_same. repeat split; [tauto|].
    intros loc H1 H2. contradiction.
  - rewrite generateLogos_cons.
    destruct (present w (logoPath (host w) d)) eqn:Hp.
    + destruct (IH (after w (fs w) (found (host w) d))) as (f & cs & E & Hk & Hn).
      cbn [after host fs] in E, Hk, Hn. rewrite E, after_after.
      exists f, (found (host w) d ++ cs). repeat split; [assumption|].
      intros loc H1 H2. destruct (Hn loc H1 H2) as (d' & Hd' & ->).
      exists d'. split; [now right | reflexivity].
    + assert (Hstop : forall cs0,
        exists f cs,
          snd (JS.Throw (Image.RenditionError (instanceLogoPath (host w))) : JS.outcome unit,
               after w (fs w) cs0) = after w f cs /\
          (forall loc n, fs w !! loc = Some n -> f !! loc = Some n) /\
          (forall loc, fs w !! loc = None -> f !! loc <> None ->
             exists dimension, In dimension (d :: rest) /\
               loc = Path.locate (cwd (host w)) (logoPath (host w) dimension))).
      { intros cs0. exists (fs w), cs0. repeat split; [tauto|].
        intros loc H1 H2. contradiction. }
      assert (Habsent : fs w !! Path.locate (cwd (host w)) (logoPath (host w) d) = None).
      { unfold present, at_path in Hp. now destruct (fs w !! _). }
      destruct (at_path w (instanceLogoPath (host w))) as [[content|]|]; try apply Hstop.
      destruct (renderImage (host w) content d d "webp") as [out|];
        [|destruct (partialImage (host w) content d d "webp") as [part|]; [|apply Hstop]].
      2:{ eexists _, _. split; [reflexivity|]. split.
          - intros loc n H. rewrite lookup_insert_ne; [assumption | congruence].
          - intros loc H1 H2.
            destruct (decide (Path.locate (cwd (host w)) (logoPath (host w) d) = loc))
              as [<-|Hne]; [exists d; split; [now left | reflexivity]|].
            now rewrite lookup_insert_ne in H2. }
      match goal with |- context [Instance.generateLogos _ rest ?w1] =>
        destruct (IH w1) as (f & cs & E & Hk & Hn) end.
      cbn [after host fs] in E, Hk, Hn. rewrite E, after_after.
      exists f, (made (host w) d ++ cs).
      repeat split.
      * intros loc n H. apply Hk.
        rewrite lookup_insert_ne; [assumption | congruence].
      * intros loc H1 H2.
        destruct (decide (Path.locate (cwd (host w)) (logoPath (host w) d) = loc))
          as [<-|Hne]; [exists d; split; [now left | reflexivity]|].
        destruct (Hn loc) as (d' & Hd' & ->); [now rewrite lookup_insert_ne|assumption|].
        exists d'. split; [now right | reflexivity].
Qed.

(** When every rendition exists the loop only looks. *)
Lemma generateLogos_present dimensions : forall w,
  (forall d, In d dimensions -> present w (logoPath (host w) d) = true) ->
  exists cs,
    Instance.generateLogos (instanceLogoPath (host w)) dimensions w
    = (JS.Return tt, after w (fs w) cs) /\
    resizeCount cs = 0.
Proof.
  induction dimensions as [|d rest IH]; intros w H.
  - exists []. rewrite generateLogos_nil, after_same. now split.
  - rewrite generateLogos_cons, (H d) by now left.
    destruct (IH (after w (fs w) (found (host w) d))) as (cs & E & Hc).
    { intros d' Hd'. apply (H d'). now right. }
    cbn [after host fs] in E. rewrite E, after_after.
    exists (found (host w) d ++ cs). split; [reflexivity|].
    rewrite resizeCount_app, Hc. reflexivity.
Qed.

(** Without a source, the first missing rendition stops the loop. *)
Lemma generateLogos_without_source dimensions : forall w,
  at_path w (instanceLogoPath (host w)) = None ->
  (exists d, In d dimensions /\ present w (logoPath (host w) d) = false) ->
  exists cs,
    Instance.generateLogos (instanceLogoPath (host w)) dimensions w
    = (JS.Throw (Image.RenditionError (instanceLogoPath (host w))), after w (fs w) cs).
Proof.
  induction dimensions as [|d rest IH]; intros w Hsrc (d0 & Hin & Hmissing);
    [contradiction|].
  rewrite generateLogos_cons.
  destruct (present w (logoPath (host w) d)) eqn:Hp.
  - destruct Hin as [<- | Hin]; [congruence|].
    destruct (IH (after w (fs w) (found (host w) d))) as (cs & E).
    + exact Hsrc.
    + now exists d0.
    + cbn [after host fs] in E. rewrite E, after_after. now eexists.
  - rewrite Hsrc. now eexists.
Qed.

(** With a source that the image library can render, every missing
    rendition is generated and every existing one is left alone. *)
Lemma generateLogos_succeeds content out dimensions : forall w,
  NoDup (map (fun d => Path.locate (cwd (host w)) (logoPath (host w) d)) dimensions) ->
  (forall d, In d dimensions ->
     Path.locate (cwd (host w)) (logoPath (host w) d)
     <> Path.locate (cwd (host w)) (instanceLogoPath (host w))) ->
  at_path w (instanceLogoPath (host w)) = Some (File content) ->
  (forall d, In d dimensions ->
     renderImage (host w) content d d "webp" = Some (out d)) ->
  exists f cs,
    Instance.generateLogos (instanceLogoPath (host w)) dimensions w
    = (JS.Return tt, after w f cs) /\
    (forall d, In d dimensions ->
       f !! Path.locate (cwd (host w)) (logoPath (host w) d)
       = settled (fs w !! Path.locate (cwd (host w)) (logoPath (host w) d))
                 (File (out d))) /\
    (forall loc,
       (forall d, In d dimensions ->
          loc <> Path.locate (cwd (host w)) (logoPath (host w) d)) ->
       f !! loc = fs w !! loc).
Proof.
  induction dimensions as [|d rest IH]; intros w Hnodup Hsrcne Hsrc Hrender.
  - exists (fs w), []. rewrite generateLogos_nil, after_same.
    split; [reflexivity|]. split; [intros d []|reflexivity].
  - cbn [map] in Hnodup. apply NoDup_cons in Hnodup as [Hfresh Hnodup].
    assert (Hother : forall d', In d' rest ->
              Path.locate (cwd (host w)) (logoPath (host w) d)
              <> Path.locate (cwd (host w)) (logoPath (host w) d')).
    { intros d' Hd' E. apply Hfresh. rewrite E. apply list_elem_of_In.
      apply (in_map (fun d => Path.locate (cwd (host w)) (logoPath (host w) d))).
      exact Hd'. }
    rewrite generateLogos_cons.
    destruct (present w (logoPath (host w) d)) eqn:Hp.
    + destruct (IH (after w (fs w) (found (host w) d))) as (f & cs & E & Hd & Hrest).
      * exact Hnodup.
      * intros d' Hd'. apply Hsrcne. now right.
      * exact Hsrc.
      * intros d' Hd'. apply Hrender. now right.
      * cbn [after host fs] in E, Hd, Hrest. rewrite E, after_after.
        exists f, (found (host w) d ++ cs). split; [reflexivity|]. split.
        -- intros d' [<- | Hd'].
           ++ rewrite (Hrest _ Hother).
              unfold present, at_path in Hp.
              now destruct (fs w !! Path.locate (cwd (host w)) (logoPath (host w) d)).
           ++ now apply Hd.
        -- intros loc Hloc. apply Hrest. intros d' Hd'. apply Hloc. now right.
    + rewrite Hsrc, (Hrender d) by now left.
      assert (Habsent : fs w !! Path.locate (cwd (host w)) (logoPath (host w) d) = None).
      { unfold present, at_path in Hp. now destruct (fs w !! _). }
      match goal with |- context [Instance.generateLogos _ rest ?w1] =>
        destruct (IH w1) as (f & cs & E & Hd & Hrest) end.
      * exact Hnodup.
      * intros d' Hd'. apply Hsrcne. now right.
      * unfold at_path. cbn [after host fs]. rewrite lookup_insert_ne; [exact Hsrc|].
        apply Hsrcne. now left.
      * intros d' Hd'. apply Hrender. now right.
      * cbn [after host fs] in E, Hd, Hrest. rewrite E, after_after.
        exists f, (made (host w) d ++ cs). split; [reflexivity|]. split.
        -- intros d' [<- | Hd'].
           ++ rewrite (Hrest _ Hother), lookup_insert_eq, Habsent. reflexivity.
           ++ rewrite (Hd d' Hd'), lookup_insert_ne by now apply Hother. reflexivity.
        -- intros loc Hloc. rewrite Hrest.
           ++ apply lookup_insert_ne. intros E'. apply (Hloc d); [now left | now symmetry].
           ++ intros d' Hd'. apply Hloc. now right.
Qed.

(** *** Where the renditions are *)

Lemma logo_location h d :
  In d Instance.requiredDimensions ->
  Path.locate (cwd h) (logoPath h d) = workingDirectory h ++ ["fs"; "System"; logoFile d].
Proof.
  intros Hd. unfold logoPath. rewrite locate_join_single. fold (logoFile d).
  unfold Instance.requiredDimensions in Hd. cbn [In] in Hd.
  repeat (destruct Hd as [<- | Hd];
          [rewrite locate_join_pair;
             [rewrite location_systemDirectory, <- app_assoc; reflexivity
             |discriminate|reflexivity
             |repeat (apply List.Forall_cons; [reflexivity|]); apply List.Forall_nil]|]).
  contradiction.
Qed.

Lemma logo_locations_apart h :
  NoDup (map (fun d => Path.locate (cwd h) (logoPath h d)) Instance.requiredDimensions).
Proof.
  assert (E : map (fun d => Path.locate (cwd h) (logoPath h d)) Instance.requiredDimensions
              = map (fun d => workingDirectory h ++ ["fs"; "System"; logoFile d])
                    Instance.requiredDimensions).
  { apply map_ext_in. intros d Hd. now apply logo_location. }
  rewrite E. unfold Instance.requiredDimensions. cbn [map].
  repeat (apply NoDup_cons; split;
          [rewrite list_elem_of_In; cbn [In]; intros H;
           repeat (destruct H as [H|H]; [apply app_inv_head in H; discriminate H|]);
           contradiction|]).
  apply NoDup_nil. exact I.
Qed.

Lemma logo_not_source h d :
  In d Instance.requiredDimensions ->
  Path.locate (cwd h) (logoPath h d) <> Path.locate (cwd h) (instanceLogoPath h).
Proof.
  intros Hd. rewrite (logo_location h d Hd). unfold instanceLogoPath.
  rewrite location_instanceLogo.
  unfold Instance.requiredDimensions in Hd. cbn [In] in Hd.
  repeat (destruct Hd as [<- | Hd]; [apart|]). contradiction.
Qed.

Lemma generateInstanceLogos_eq w :
  Instance.__internal_generateInstanceLogos w
  = Instance.generateLogos (instanceLogoPath (host w)) Instance.requiredDimensions
      (after w (fs w) [LogInfo "instance" ["Generating instanceLogos."]]).
Proof. reflexivity. Qed.

Lemma logoSmall_eq w :
  Panel.logoSmall w
  = (JS.Return (Sent "image/webp"
                  (stream_of (host w) (fs w)
                     (Path.join [Sys.SystemDirectory (host w); "instanceLogo32.webp"]))),
     after w (fs w)
       [ReadStream (Path.resolve (cwd (host w))
                      (Path.join [Sys.SystemDirectory (host w); "instanceLogo32.webp"]))]).
Proof. unfold Panel.logoSmall, Panel.SystemDirectory, bind, get, ret. apply sendFile_eq. Qed.

Lemma logoMedium_eq w :
  Panel.logoMedium w
  = (JS.Return (Sent "image/webp"
                  (stream_of (host w) (fs w)
                     (Path.join [Sys.SystemDirectory (host w); "instanceLogo40.webp"]))),
     after w (fs w)
       [ReadStream (Path.resolve (cwd (host w))
                      (Path.join [Sys.SystemDirectory (host w); "instanceLogo40.webp"]))]).
Proof. unfold Panel.logoMedium, Panel.SystemDirectory, bind, get, ret. apply sendFile_eq. Qed.

Lemma logoLarge_eq w :
  Panel.logoLarge w
  = (JS.Return (Sent "image/webp"
                  (stream_of (host w) (fs w)
                     (Path.join [Sys.SystemDirectory (host w); "instanceLogo128.webp"]))),
     after w (fs w)
       [ReadStream (Path.resolve (cwd (host w))
                      (Path.join [Sys.SystemDirectory (host w); "instanceLogo128.webp"]))]).
Proof. unfold Panel.logoLarge, Panel.SystemDirectory, bind, get, ret. apply sendFile_eq. Qed.

Lemma loginBackground_eq w :
  Panel.loginBackground w
  = (JS.Return (Sent "image/avif"
                  (stream_of (host w) (fs w)
                     (Path.join [Sys.SystemDirectory (host w); "loginBackground.avif"]))),
     after w (fs w)
       [ReadStream (Path.resolve (cwd (host w))
                      (Path.join [Sys.SystemDirectory (host w); "loginBackground.avif"]))]).
Proof.
  unfold Panel.loginBackground, Panel.SystemDirectory, bind, get, ret. apply sendFile_eq.
Qed.

(** The routes read where the generator writes. *)
Lemma route_logo_location h file d :
  In d Instance.requiredDimensions -> file = logoFile d ->
  Path.locate (cwd h) (Path.join [systemDirectory h; file])
  = Path.locate (cwd h) (logoPath h d).
Proof.
  intros Hd ->. unfold logoPath. now rewrite locate_join_single.
Qed.

(** The generator on a source that renders: what it leaves. *)
Lemma logos_generated w content out :
  at_path w (instanceLogoPath (host w)) = Some (File content) ->
  (forall d, In d Instance.requiredDimensions ->
     renderImage (host w) content d d "webp" = Some (out d)) ->
  exists f cs,
    Instance.__internal_generateInstanceLogos w = (JS.Return tt, after w f cs) /\
    (forall d, In d Instance.requiredDimensions ->
       f !! Path.locate (cwd (host w)) (logoPath (host w) d)
       = settled (fs w !! Path.locate (cwd (host w)) (logoPath (host w) d))
                 (File (out d))) /\
    (forall loc,
       (forall d, In d Instance.requiredDimensions ->
          loc <> Path.locate (cwd (host w)) (logoPath (host w) d)) ->
       f !! loc = fs w !! loc).
Proof.
  intros Hsrc Hrender. rewrite generateInstanceLogos_eq.
  destruct (generateLogos_succeeds content out Instance.requiredDimensions
              (after w (fs w) [LogInfo "instance" ["Generating instanceLogos."]]))
    as (f & cs & E & Hd & Hrest).
  - apply logo_locations_apart.
  - intros d Hd. now apply logo_not_source.
  - exact Hsrc.
  - exact Hrender.
  - cbn [after host fs] in E, Hd, Hrest. rewrite E, after_after.
    exists f, ([LogInfo "instance" ["Generating instanceLogos."]] ++ cs).
    split; [reflexivity|]. split; assumption.
Qed.

Lemma host_after w f cs : host (after w f cs) = host w.
Proof. reflexivity. Qed.

Lemma fs_after w f cs : fs (after w f cs) = f.
Proof. reflexivity. Qed.

Lemma at_path_after w f cs path :
  at_path (after w f cs) path = f !! Path.locate (cwd (host w)) path.
Proof. reflexivity. Qed.

Lemma fst_pair {A B : Type} (a : A) (b : B) : fst (a, b) = a.
Proof. reflexivity. Qed.

Lemma snd_pair {A B : Type} (a : A) (b : B) : snd (a, b) = b.
Proof. reflexivity. Qed.

Lemma settled_none n : settled None n = Some n.
Proof. reflexivity. Qed.

Lemma stream_of_file h f path content :
  f !! Path.locate (cwd h) path = Some (File content) ->
  stream_of h f path = JS.Return content.
Proof. unfold stream_of. now intros ->. Qed.

Lemma required_32_40_128 :
  In 32 Instance.requiredDimensions /\ In 40 Instance.requiredDimensions /\
  In 128 Instance.requiredDimensions.
Proof. unfold Instance.requiredDimensions. cbn [In]. tauto. Qed.

(** The logo routes on a filesystem that holds the three renditions. *)
Lemma logo_routes w f cs small medium large :
  Sys.SystemDirectory (host w) = systemDirectory (host w) ->
  f !! Path.locate (cwd (host w)) (logoPath (host w) 32) = Some (File small) ->
  f !! Path.locate (cwd (host w)) (logoPath (host w) 40) = Some (File medium) ->
  f !! Path.locate (cwd (host w)) (logoPath (host w) 128) = Some (File large) ->
  fst (Panel.logoSmall (after w f cs)) = JS.Return (Sent "image/webp" (JS.Return small)) /\
  fst (Panel.logoMedium (after w f cs)) = JS.Return (Sent "image/webp" (JS.Return medium)) /\
  fst (Panel.logoLarge (after w f cs)) = JS.Return (Sent "image/webp" (JS.Return large)).
Proof.
  intros Hsystem H32 H40 H128. destruct required_32_40_128 as (I32 & I40 & I128).
  rewrite logoSmall_eq, logoMedium_eq, logoLarge_eq. cbn [fst after host fs].
  rewrite Hsystem.
  repeat split; f_equal; f_equal; apply stream_of_file.
  - now rewrite (route_logo_location (host w) "instanceLogo32.webp" 32 I32 eq_refl).
  - now rewrite (route_logo_location (host w) "instanceLogo40.webp" 40 I40 eq_refl).
  - now rewrite (route_logo_location (host w) "instanceLogo128.webp" 128 I128 eq_refl).
Qed.

(** The startup check of the filesystem creates no rendition of the
    instance logo. *)
Lemma provision_leaves_logos h f d :
  In d Instance.requiredDimensions ->
  provision h f !! Path.locate (cwd h) (logoPath h d)
  = f !! Path.locate (cwd h) (logoPath h d).
Proof.
  intros Hd. rewrite (logo_location h d Hd). unfold provision. apply fold_same.
  unfold Instance.requiredDimensions in Hd. cbn [In] in Hd.
  repeat (destruct Hd as [<- | Hd]; [untouched_by_earlier|]). contradiction.
Qed.

End LogoFacts.

(** ** The startup loop and the configuration, step by step *)

Module StartupFacts.

Import App Sys Applications Registry RegistryFacts Configuration Plugins.

Lemma loadApplication_registered applicationPath w :
  exists cs,
    snd (loadApplication applicationPath w)
    = registered w (registers (host w) applicationPath) cs.
Proof.
  unfold registers.
  destruct (importModule (host w) (entryModule applicationPath)) as [e|cls] eqn:Himport.
  - rewrite (loadApplication_import_fails _ _ _ Himport).
    destruct (JS.toString e); eexists; reflexivity.
  - pose proof (new_cases cls) as Hnew.
    destruct (superArgs cls) as [[params|]|e] eqn:Hsuper.
    + rewrite (loadApplication_constructed _ _ _ _ Himport Hsuper).
      destruct (onLoad (overrides cls)) as [[]|e]; [eexists; reflexivity|].
      destruct (JS.toString e); eexists; reflexivity.
    + rewrite (loadApplication_constructor_fails _ _ _ _ Himport Hnew).
      eexists; reflexivity.
    + rewrite (loadApplication_constructor_fails _ _ _ _ Himport Hnew).
      destruct (JS.toString e); eexists; reflexivity.
Qed.

(** The loop over plugins that throw only printable values: it returns,
    and the live set grows by what each plugin registers, in order. *)
Lemma loadApplications_registered h applications : forall w,
  host w = h -> printable h applications ->
  exists cs,
    Main.loadApplications applications w
    = (JS.Return tt,
       registered w (concat (map (registers h) applications)) cs).
Proof.
  induction applications as [|p rest IH]; intros w Hh Hsafe.
  - exists []. simpl. unfold ret, registered. rewrite !app_nil_r. now destruct w.
  - destruct (loadApplication_registered p w) as (cs & Hshape).
    assert (Hret : exists r, fst (loadApplication p w) = JS.Return r).
    { destruct (fst (loadApplication p w)) as [r|e'] eqn:E; [now exists r|].
      apply loadApplication_throws in E as (e & Ht & Hthrow).
      rewrite Hh in Ht. destruct (Hsafe p e (or_introl eq_refl) Ht) as (text & Htext).
      congruence. }
    destruct Hret as (r & Hret).
    destruct (loadApplication p w) as [o w1] eqn:Hload. simpl in Hshape, Hret. subst o w1.
    set (w2 := snd (log_info "application"
                      ["Application " +:+ p +:+ " loaded successfully!"]
                      (registered w (registers (host w) p) cs))).
    assert (Heq : Main.loadApplications (p :: rest) w = Main.loadApplications rest w2).
    { change (Main.loadApplications (p :: rest) w)
        with (bind (loadApplication p)
                (fun _ => bind (log_info "application"
                                  ["Application " +:+ p +:+ " loaded successfully!"])
                            (fun _ => Main.loadApplications rest)) w).
      unfold bind. now rewrite Hload. }
    rewrite Heq.
    destruct (IH w2 Hh (fun q e Hq => Hsafe q e (or_intror Hq))) as (cs2 & ->).
    eexists. f_equal. unfold w2, registered, log_info, emit. cbn [snd host fs
      panel_configuration loadedApplications calls map concat]. rewrite Hh.
    rewrite <- !app_assoc. reflexivity.
Qed.

Lemma row_eq_dec (r1 r2 : ConfigurationRow) : {r1 = r2} + {r1 <> r2}.
Proof.
  decide equality.
  - decide equality. apply (List.list_eq_dec String.string_dec).
  - apply Nat.eq_dec.
Qed.

Lemma newest_single table : length (newest table) <= 1.
Proof.
  induction table as [|r rest IH]; simpl; [lia|].
  destruct (newest rest) as [|r' l]; simpl; [lia|].
  destruct (Nat.ltb _ _); simpl; lia.
Qed.

(** [newest] selects the row with the highest version. *)
Lemma newest_highest table row :
  In row table ->
  (forall r, In r table -> r <> row -> config_version r < config_version row) ->
  newest table = [row].
Proof.
  induction table as [|r rest IH]; intros Hin Hmax; [contradiction|].
  simpl. destruct (newest rest) as [|r' l] eqn:E.
  - destruct Hin as [-> | Hin]; [reflexivity|].
    destruct rest as [|x rest']; [contradiction|]. simpl in E.
    destruct (newest rest') as [|y l']; [discriminate|].
    destruct (Nat.ltb _ _); discriminate.
  - assert (Hr' : In r' rest).
    { clear -E. revert r' l E. induction rest as [|x rest IH]; intros r' l E; [discriminate|].
      simpl in E. destruct (newest rest) as [|y l'] eqn:E'.
      - injection E as <- <-. now left.
      - destruct (Nat.ltb _ _); injection E as <- <-; [now left|].
        right. eapply IH. reflexivity. }
    assert (Hl : l = []).
    { pose proof (newest_single rest) as Hlen. rewrite E in Hlen. simpl in Hlen.
      destruct l; [reflexivity | simpl in Hlen; lia]. }
    subst l.
    destruct (Nat.ltb (config_version r') (config_version r)) eqn:Hlt.
    + apply Nat.ltb_lt in Hlt.
      destruct Hin as [-> | Hin]; [reflexivity|].
      destruct (row_eq_dec r row) as [-> | Hne]; [reflexivity|].
      pose proof (Hmax r (or_introl eq_refl) Hne) as H1.
      assert (Hrest : [r'] = [row]).
      { apply IH; [assumption|]. intros x Hx. apply Hmax. now right. }
      injection Hrest as ->. lia.
    + apply Nat.ltb_ge in Hlt.
      destruct Hin as [-> | Hin].
      * destruct (row_eq_dec r' row) as [-> | Hne]; [reflexivity|].
        pose proof (Hmax r' (or_intror Hr') Hne). lia.
      * apply IH; [assumption|]. intros x Hx. apply Hmax. now right.
Qed.

Lemma getInstalledApplications_newest table w row :
  newest table = [row] ->
  getInstalledApplications table w
  = (JS.Return (match installed_applications row with Some val => val | None => [] end), w).
Proof.
  intros E. unfold getInstalledApplications. rewrite E.
  now destruct (installed_applications row).
Qed.

End StartupFacts.

(** ** Quick shortcuts, step by step *)

Module ShortcutFacts.

Import App Sys RequestManager Applications Registry RegistryFacts Plugins.

Lemma createQuickShortcut_cases user applicationId w :
  createQuickShortcut user applicationId w
  = if isLoaded w applicationId then
      match rowsOf user w with
      | [] => (JS.Return (Some false), w)
      | row0 :: _ =>
          if includes (pinned_applications row0) applicationId
          then (JS.Return (Some false), w)
          else (JS.Return (Some true),
                withPins user (pinned_applications row0 ++ [applicationId]) w)
      end
    else (JS.Return None, w).
Proof.
  unfold createQuickShortcut, select_pinned_applications, update_pinned_applications,
    try_catch, bind, get, ret, throw, isLoaded, rowsOf, withPins.
  cbv beta iota zeta.
  destruct (findById applicationId (loadedApplications w)); [|reflexivity].
  destruct (List.filter _ (panel_configuration w)) as [|row0 rest]; [reflexivity|].
  now destruct (includes (pinned_applications row0) applicationId).
Qed.

Lemma rowsOf_withPins user pins w :
  rowsOf user (withPins user pins w)
  = map (fun r => {| username := username r; pinned_applications := pins |}) (rowsOf user w).
Proof.
  unfold rowsOf, withPins. cbn [set_panel_configuration panel_configuration].
  induction (panel_configuration w) as [|r t IH]; [reflexivity|].
  cbn [map List.filter].
  destruct (String.eqb (username r) user) eqn:E.
  - cbn [username]. rewrite E. cbn [map]. now rewrite IH.
  - rewrite E. exact IH.
Qed.

Lemma others_withPins user pins w :
  List.filter (fun r => negb (String.eqb (username r) user))
              (panel_configuration (withPins user pins w))
  = List.filter (fun r => negb (String.eqb (username r) user)) (panel_configuration w).
Proof.
  unfold withPins. cbn [set_panel_configuration panel_configuration].
  induction (panel_configuration w) as [|r t IH]; [reflexivity|].
  cbn [map List.filter].
  destruct (String.eqb (username r) user) eqn:E.
  - cbn [username]. rewrite E. cbn [negb]. exact IH.
  - rewrite E. cbn [negb]. now rewrite IH.
Qed.

Lemma usernames_withPins user pins w :
  map username (panel_configuration (withPins user pins w))
  = map username (panel_configuration w).
Proof.
  unfold withPins. cbn [set_panel_configuration panel_configuration].
  rewrite map_map. apply map_ext. intros r.
  now destruct (String.eqb (username r) user).
Qed.

Lemma includes_snoc l x : includes (l ++ [x]) x = true.
Proof. apply includes_In. apply in_or_app. right. now left. Qed.

Lemma isLoaded_filter_snoc w l x :
  isLoaded w x = true ->
  List.filter (isLoaded w) (l ++ [x]) = List.filter (isLoaded w) l ++ [x].
Proof. intros H. rewrite List.filter_app. cbn [List.filter]. now rewrite H. Qed.

End ShortcutFacts.

(** * Further properties of the code *)

Import CacheFacts CommonPaths Logging Layout LayoutFacts Logos LogoFacts.
Import Configuration Plugins StartupFacts ShortcutFacts.

(** ** Icon renditions *)


(** X2 (icon routes, frame).  Whatever a rendition request does (cache
    hit, fallback, generation, failure), it leaves the host, the live set
    and the pin table alone, only appends to the call log, keeps every
    filesystem entry that exists as it is, and the only regular file it
    can create is the cache file of the requested plugin and kind. *)
Theorem fetch_frame kind pluginId w :
  let w' := snd (fetch kind pluginId w) in
  host w' = host w /\
  loadedApplications w' = loadedApplications w /\
  panel_configuration w' = panel_configuration w /\
  (exists cs, calls w' = calls w ++ cs) /\
  (forall loc n, fs w !! loc = Some n -> fs w' !! loc = Some n) /\
  (forall loc content,
     fs w' !! loc = Some (File content) ->
     fs w !! loc = Some (File content) \/
     exists app, findById pluginId (loadedApplications w) = Some app /\
                 loc = Path.locate (cwd (host w)) (cachePath (host w) kind app)).
Proof.
  cbv zeta.
  destruct (findById pluginId (loadedApplications w)) as [app|] eqn:Hfind.
  - destruct (fetch_cases kind _ _ _ Hfind) as (f & cs & -> & _ & Hf). cbn [after host fs
      loadedApplications panel_configuration calls].
    split; [reflexivity|]. split; [reflexivity|]. split; [reflexivity|].
    split; [now exists cs|].
    destruct Hf as [-> | (f1 & Hmk & Hcp & [-> | (r & ->)])].
    + split; [tauto|]. intros loc content H. now left.
    + split.
      * intros loc n H. eapply mkdir_chain_keeps; eassumption.
      * intros loc content H. left. eapply mkdir_chain_no_file; eassumption.
    + assert (Hcp1 : f1 !! Path.locate (cwd (host w)) (cachePath (host w) kind app) = None).
      { destruct (mkdir_chain_lookup _ _ _ Hmk
                    (Path.locate (cwd (host w)) (cachePath (host w) kind app)))
          as [-> | (Hin & _)]; [exact Hcp | now apply cachePath_not_ancestor in Hin]. }
      split.
      * intros loc n H.
        destruct (decide (Path.locate (cwd (host w)) (cachePath (host w) kind app) = loc))
          as [<-|Hne]; [congruence|].
        rewrite lookup_insert_ne by assumption. eapply mkdir_chain_keeps; eassumption.
      * intros loc content H.
        destruct (decide (Path.locate (cwd (host w)) (cachePath (host w) kind app) = loc))
          as [<-|Hne]; [right; now exists app|].
        rewrite lookup_insert_ne in H by assumption.
        left. eapply mkdir_chain_no_file; eassumption.
  - assert (H : fetch kind pluginId w = (JS.Return (Unsent 404), w)).
    { rewrite fetch_route. unfold route, findApplication, bind, get, ret. now rewrite Hfind. }
    rewrite H. cbn [snd]. repeat split; try tauto. now exists []; rewrite app_nil_r.
Qed.

(** X3 (icon routes, kinds are independent).  A request for one rendition
    kind of a loaded plugin never creates, changes or removes the cache
    file of another kind of the same plugin. *)
Theorem fetch_keeps_other_kinds kind other pluginId app w :
  findById pluginId (loadedApplications w) = Some app ->
  other <> kind ->
  at_path (snd (fetch kind pluginId w)) (cachePath (host w) other app)
  = at_path w (cachePath (host w) other app).
Proof.
  intros Hfind Hother.
  destruct (fetch_cases kind _ _ _ Hfind) as (f & cs & -> & _ & Hf).
  unfold at_path. cbn [after host fs].
  assert (Hmk : forall f1,
    NodeFs.mkdir_chain (NodeFs.ancestors_from []
       (Path.locate (cwd (host w)) (cacheDirectory (host w) app))) (fs w) = Some f1 ->
    f1 !! Path.locate (cwd (host w)) (cachePath (host w) other app)
    = fs w !! Path.locate (cwd (host w)) (cachePath (host w) other app)).
  { intros f1 Hmk.
    destruct (mkdir_chain_lookup _ _ _ Hmk
                (Path.locate (cwd (host w)) (cachePath (host w) other app)))
      as [-> | (Hin & _)]; [reflexivity | now apply cachePath_not_ancestor in Hin]. }
  destruct Hf as [-> | (f1 & Hchain & Hcp & [-> | (r & ->)])]; [reflexivity|now apply Hmk|].
  rewrite lookup_insert_ne; [now apply Hmk|].
  rewrite !cachePath_location. intros H. apply app_inj_tail in H as [_ H].
  apply cacheFile_inj in H. congruence.
Qed.

Lemma fetch_keeps_other_kinds_witness :
  at_path (snd (fetch SmallGridIcon "uk-example-app" Scenario.running))
          (cachePath (host Scenario.running) LargeGridIcon Scenario.exampleApp)
  = at_path Scenario.running
            (cachePath (host Scenario.running) LargeGridIcon Scenario.exampleApp).
Proof.
  apply (fetch_keeps_other_kinds SmallGridIcon LargeGridIcon "uk-example-app"
           Scenario.exampleApp Scenario.running).
  - vm_compute. reflexivity.
  - discriminate.
Defined.

(** X4 (icon routes, no invalidation).  Once the cache file of a rendition
    exists, replacing the plugin's source icon changes nothing: the next
    request gives the same reply as before the replacement, invokes no
    resize, and leaves the cache file as it was. *)
Theorem cached_rendition_ignores_source kind pluginId app w content :
  findById pluginId (loadedApplications w) = Some app ->
  present w (cachePath (host w) kind app) = true ->
  let changed := install (sourceIcon kind app) content w in
  fst (fetch kind pluginId changed) = fst (fetch kind pluginId w) /\
  resizeCount (calls (snd (fetch kind pluginId changed))) = resizeCount (calls w) /\
  at_path (snd (fetch kind pluginId changed)) (cachePath (host w) kind app)
  = at_path w (cachePath (host w) kind app).
Proof.
  intros Hfind Hcp changed.
  assert (Hne : Path.locate (cwd (host w)) (sourceIcon kind app)
                <> Path.locate (cwd (host w)) (cachePath (host w) kind app))
    by apply source_not_cache.
  assert (Hsame : at_path changed (cachePath (host w) kind app)
                  = at_path w (cachePath (host w) kind app)).
  { unfold changed, install, at_path. cbn [set_fs host fs]. now rewrite lookup_insert_ne. }
  assert (Hcp' : present changed (cachePath (host changed) kind app) = true).
  { change (host changed) with (host w). unfold present. rewrite Hsame. exact Hcp. }
  rewrite !fetch_route.
  unfold cachePath in Hcp, Hcp'.
  rewrite (route_hit _ _ _ _ changed _ Hfind Hcp'), (route_hit _ _ _ _ _ _ Hfind Hcp).
  cbn [fst snd after calls host fs]. change (host changed) with (host w).
  split; [|split].
  - f_equal. f_equal. unfold stream_of. fold (cachePath (host w) kind app).
    change (fs changed !! Path.locate (cwd (host w)) (cachePath (host w) kind app))
      with (at_path changed (cachePath (host w) kind app)).
    now rewrite Hsame.
  - change (calls changed) with (calls w). unfold resizeCount.
    rewrite List.filter_app, length_app. simpl. lia.
  - exact Hsame.
Qed.

Lemma cached_rendition_ignores_source_witness :
  let w := snd (fetch SmallGridIcon "uk-example-app" Scenario.running) in
  let changed := install (sourceIcon SmallGridIcon Scenario.exampleApp) [Byte.x07] w in
  fst (fetch SmallGridIcon "uk-example-app" changed)
  = fst (fetch SmallGridIcon "uk-example-app" w) /\
  resizeCount (calls (snd (fetch SmallGridIcon "uk-example-app" changed)))
  = resizeCount (calls w) /\
  at_path (snd (fetch SmallGridIcon "uk-example-app" changed))
          (cachePath (host w) SmallGridIcon Scenario.exampleApp)
  = at_path w (cachePath (host w) SmallGridIcon Scenario.exampleApp).
Proof.
  apply (cached_rendition_ignores_source SmallGridIcon "uk-example-app" Scenario.exampleApp
           (snd (fetch SmallGridIcon "uk-example-app" Scenario.running)) [Byte.x07]);
    vm_compute; reflexivity.
Defined.

(** X5 (icon routes, a source that cannot be rendered).  When the source
    icon of a loaded plugin is a regular file that the image library
    cannot render, the request fails with the rendition error of that
    source, and the route cleans nothing up: what the failed resize left
    at the cache path stays there.  If it left nothing, the failure is
    not remembered, and the next request fails in the same way and
    invokes the resize again; if it left a partial file, the next
    request is a cache hit that serves that file without a resize. *)
Theorem undecodable_icon_not_cleaned kind pluginId app w content :
  findById pluginId (loadedApplications w) = Some app ->
  at_path w (cachePath (host w) kind app) = None ->
  creatable w (cacheDirectory (host w) app) ->
  at_path w (sourceIcon kind app) = Some (File content) ->
  renderImage (host w) content 88 88 "webp" = None ->
  let first := fetch kind pluginId w in
  let second := fetch kind pluginId (snd first) in
  fst first = JS.Throw (Image.RenditionError (sourceIcon kind app)) /\
  at_path (snd first) (cachePath (host w) kind app)
  = File <$> partialImage (host w) content 88 88 "webp" /\
  (partialImage (host w) content 88 88 "webp" = None ->
   fst second = fst first /\
   resizeCount (calls (snd second)) = resizeCount (calls w) + 2) /\
  (forall part,
     partialImage (host w) content 88 88 "webp" = Some part ->
     fst second = JS.Return (Sent "image/webp" (JS.Return part)) /\
     resizeCount (calls (snd second)) = resizeCount (calls w) + 1).
Proof.
  intros Hfind Hcache Hdir Hsrc Hrender.
  unfold creatable in Hdir.
  destruct (NodeFs.mkdir_chain _ _) as [f1|] eqn:Hmk; [|discriminate]. clear Hdir.
  assert (Hsrc1 : f1 !! Path.locate (cwd (host w)) (sourceIcon kind app) = Some (File content))
    by (eapply mkdir_chain_keeps; eassumption).
  assert (Hcp1 : f1 !! Path.locate (cwd (host w)) (cachePath (host w) kind app) = None).
  { destruct (mkdir_chain_lookup _ _ _ Hmk
                (Path.locate (cwd (host w)) (cachePath (host w) kind app)))
      as [-> | (Hin & _)]; [exact Hcache | now apply cachePath_not_ancestor in Hin]. }
  assert (Hmk1 : NodeFs.mkdir_chain
                   (NodeFs.ancestors_from []
                      (Path.locate (cwd (host w)) (cacheDirectory (host w) app))) f1 = Some f1).
  { apply mkdir_chain_again. intros d Hd. eapply mkdir_chain_dirs; eassumption. }
  assert (Hstep : forall w0 f0,
    host w0 = host w -> loadedApplications w0 = loadedApplications w -> fs w0 = f0 ->
    f0 !! Path.locate (cwd (host w)) (cachePath (host w) kind app) = None ->
    NodeFs.mkdir_chain
      (NodeFs.ancestors_from [] (Path.locate (cwd (host w)) (cacheDirectory (host w) app)))
      f0 = Some f1 ->
    exists cs,
      fetch kind pluginId w0
      = (JS.Throw (Image.RenditionError (sourceIcon kind app)),
         after w0
           (match partialImage (host w) content 88 88 "webp" with
            | Some part =>
                <[Path.locate (cwd (host w)) (cachePath (host w) kind app) := File part]> f1
            | None => f1
            end) cs) /\
      resizeCount cs = 1).
  { intros w0 f0 Hh Hl Hf Hc0 Hm0.
    assert (Hfind0 : findById pluginId (loadedApplications w0) = Some app) by now rewrite Hl.
    assert (Hp0 : present w0 (cachePath (host w0) kind app) = false).
    { apply present_false. unfold at_path. now rewrite Hh, Hf. }
    rewrite fetch_route. unfold cachePath, cacheDirectory in *.
    rewrite <- Hh, <- Hf in Hm0.
    rewrite (route_generate _ _ _ _ _ _ Hfind0 f1 Hp0 Hm0)
      by (intros _; rewrite Hh; unfold sourceIcon in Hsrc1; now rewrite Hsrc1).
    rewrite resizeImage_eq. unfold at_path. cbn [after host fs].
    rewrite Hh. unfold sourceIcon in Hsrc1. rewrite Hsrc1, Hrender, after_after.
    eexists. split; [reflexivity|]. now destruct (checksSource kind). }
  cbv zeta.
  destruct (Hstep w (fs w) eq_refl eq_refl eq_refl Hcache Hmk) as (cs1 & E1 & Hc1).
  rewrite E1. cbn [fst snd].
  split; [reflexivity|]. split; [|split].
  - unfold at_path. cbn [after host fs].
    destruct (partialImage (host w) content 88 88 "webp") as [part|];
      [now rewrite lookup_insert_eq | exact Hcp1].
  - intros Hnone. rewrite Hnone in *.
    destruct (Hstep (after w f1 cs1) f1 eq_refl eq_refl eq_refl Hcp1 Hmk1) as (cs2 & E2 & Hc2).
    rewrite E2. cbn [fst snd after calls]. split; [reflexivity|].
    rewrite !resizeCount_app. lia.
  - intros part Hpart. rewrite Hpart in *.
    match goal with |- context [fetch kind pluginId ?x] => set (w1 := x) end.
    assert (Hfind1 : findById pluginId (loadedApplications w1) = Some app) by exact Hfind.
    assert (Hhit : present w1 (Path.join [Sys.GlobalCacheDirectory (host w1);
              "panel/applications"; id (__internal_params app); cacheFile kind]) = true).
    { unfold present, at_path, w1. cbn [after host fs].
      fold (cachePath (host w) kind app). now rewrite lookup_insert_eq. }
    rewrite fetch_route, (route_hit _ _ _ _ _ _ Hfind1 Hhit).
    cbn [fst snd]. unfold w1. cbn [after host fs calls]. split.
    + unfold stream_of. fold (cachePath (host w) kind app). now rewrite lookup_insert_eq.
    + rewrite !resizeCount_app, Hc1. unfold resizeCount at 2. simpl. lia.
Qed.

(** The icon of [uk-ewsgit-files] cannot be rendered, and the image
    library of this machine leaves one byte behind: the second request
    serves that byte. *)
Lemma undecodable_icon_not_cleaned_witness :
  let w := Scenario.runningCareless in
  let app := instanceOf (Scenario.plugin "uk-ewsgit-files")
               (Scenario.descriptor "uk-ewsgit-files") "uk-ewsgit-files" in
  let first := fetch ListIcon "uk-ewsgit-files" w in
  let second := fetch ListIcon "uk-ewsgit-files" (snd first) in
  fst first = JS.Throw (Image.RenditionError (sourceIcon ListIcon app)) /\
  at_path (snd first) (cachePath (host w) ListIcon app) = Some (File [Byte.x00]) /\
  fst second = JS.Return (Sent "image/webp" (JS.Return [Byte.x00])) /\
  resizeCount (calls (snd second)) = resizeCount (calls w) + 1.
Proof.
  destruct (undecodable_icon_not_cleaned ListIcon "uk-ewsgit-files"
              (instanceOf (Scenario.plugin "uk-ewsgit-files")
                 (Scenario.descriptor "uk-ewsgit-files") "uk-ewsgit-files")
              Scenario.runningCareless [])
    as (Hfirst & Hleft & _ & Hpartial).
  - vm_compute. reflexivity.
  - vm_compute. reflexivity.
  - vm_compute. reflexivity.
  - vm_compute. reflexivity.
  - vm_compute. reflexivity.
  - destruct (Hpartial [Byte.x00] eq_refl) as (Hsecond & Hcount).
    cbv zeta. repeat split; assumption.
Defined.

(** X6 (icon routes, blocked cache directory).  When the cache file is
    missing and a regular file is in the way of the plugin's cache
    directory, the request fails with the error of [mkdir]: [ENOTDIR]
    when the file is above the cache directory, [EEXIST] when it is at
    its place.  This happens after exactly two calls (the existence
    check and the [mkdir]); the filesystem is unchanged, neither the
    source icon nor the fallback is read, and a repeated request fails
    in the same way. *)
Theorem blocked_cache_directory kind pluginId app w :
  findById pluginId (loadedApplications w) = Some app ->
  at_path w (cachePath (host w) kind app) = None ->
  ~ creatable w (cacheDirectory (host w) app) ->
  let result := fetch kind pluginId w in
  fst result
  = JS.Throw (if blockedAbove w (cacheDirectory (host w) app)
              then NodeFs.ENOTDIR (cacheDirectory (host w) app)
              else NodeFs.EEXIST (cacheDirectory (host w) app)) /\
  fs (snd result) = fs w /\
  calls (snd result)
  = calls w ++ [Access (cachePath (host w) kind app); Mkdir (cacheDirectory (host w) app)] /\
  fetch kind pluginId (snd result)
  = (fst result,
     after (snd result) (fs w)
       [Access (cachePath (host w) kind app); Mkdir (cacheDirectory (host w) app)]).
Proof.
  intros Hfind Hcache Hdir. unfold creatable in Hdir.
  destruct (NodeFs.mkdir_chain _ _) as [f1|] eqn:Hmk; [now destruct Hdir|]. clear Hdir.
  cbv zeta. rewrite !fetch_route.
  unfold cachePath, cacheDirectory in *.
  rewrite (route_mkdir_fails _ _ _ _ _ _ Hfind (present_false _ _ Hcache) Hmk).
  cbn [fst snd after fs calls].
  split.
  { unfold NodeFs.mkdir_error, blockedAbove.
    now destruct (NodeFs.mkdir_chain (NodeFs.ancestors_from [] (removelast _)) _). }
  split; [reflexivity|]. split; [reflexivity|].
  match goal with |- route _ _ _ _ ?x = _ => set (w1 := x) end.
  assert (Hfind1 : findById pluginId (loadedApplications w1) = Some app) by exact Hfind.
  assert (Hcache1 : present w1 (Path.join [Sys.GlobalCacheDirectory (host w1);
            "panel/applications"; id (__internal_params app); cacheFile kind]) = false)
    by exact (present_false _ _ Hcache).
  rewrite (route_mkdir_fails _ _ _ _ _ _ Hfind1 Hcache1 Hmk). reflexivity.
Qed.

(** A regular file where the directory of all plugin caches should be:
    it is above the cache directory of [uk-ewsgit-dash]. *)
Lemma blocked_cache_directory_witness :
  let w := install "/srv/yourdash/fs/Cache/panel/applications" [Byte.x00] Scenario.running in
  let app := Scenario.dashApp in
  let result := fetch LargeGridIcon "uk-ewsgit-dash" w in
  fst result = JS.Throw (NodeFs.ENOTDIR (cacheDirectory (host w) app)) /\
  fs (snd result) = fs w /\
  calls (snd result)
  = calls w ++ [Access (cachePath (host w) LargeGridIcon app);
                Mkdir (cacheDirectory (host w) app)] /\
  fetch LargeGridIcon "uk-ewsgit-dash" (snd result)
  = (fst result,
     after (snd result) (fs w)
       [Access (cachePath (host w) LargeGridIcon app); Mkdir (cacheDirectory (host w) app)]).
Proof.
  apply (blocked_cache_directory LargeGridIcon "uk-ewsgit-dash" Scenario.dashApp
           (install "/srv/yourdash/fs/Cache/panel/applications" [Byte.x00]
              Scenario.running)).
  - vm_compute. reflexivity.
  - vm_compute. reflexivity.
  - vm_compute. intros H. discriminate H.
Defined.

(** A regular file at the place of the cache directory itself. *)
Example blocked_at_cache_directory :
  let w := install "/srv/yourdash/fs/Cache/panel/applications/uk-ewsgit-dash" [Byte.x00]
             Scenario.running in
  fst (fetch LargeGridIcon "uk-ewsgit-dash" w)
  = JS.Throw (NodeFs.EEXIST "/srv/yourdash/fs/Cache/panel/applications/uk-ewsgit-dash").
Proof. vm_compute. reflexivity. Qed.

(** ** Plugin registry and startup *)

(** X7 (loading, the live set).  Whatever its outcome, [loadApplication]
    itself changes the live set by at most one [push] at its end, and
    every identifier that resolved before resolves to the same instance
    afterwards.  (What plugin code does to the core's state while it runs
    is not modelled.) *)
Theorem loadApplication_appends applicationPath w :
  let w' := snd (loadApplication applicationPath w) in
  (exists l, loadedApplications w' = loadedApplications w ++ l /\ length l <= 1) /\
  (forall x a, findById x (loadedApplications w) = Some a ->
               findById x (loadedApplications w') = Some a).
Proof.
  cbv zeta. destruct (loadApplication_registered applicationPath w) as (cs & ->).
  cbn [registered loadedApplications].
  split.
  - exists (registers (host w) applicationPath). split; [reflexivity|].
    unfold registers.
    destruct (importModule (host w) (entryModule applicationPath)) as [e|cls]; [simpl; lia|].
    destruct (superArgs cls) as [[params|]|e]; simpl; lia.
  - intros x a H. now rewrite findById_app, H.
Qed.

(** X8 (loading, failure before registration).  When the import of the
    entry module fails, or the constructor of the plugin class throws (a
    missing descriptor included), and [toString] returns a text on the
    thrown value: [loadApplication] returns [null], the live set is
    unchanged, no lifecycle hook is called, and the calls are the
    "Loading" line, [console.error] with the thrown value and the
    "Failed to load" line with that text. *)
Theorem load_failure_before_registration applicationPath w e text :
  (importModule (host w) (entryModule applicationPath) = ImportThrows e \/
   exists cls, importModule (host w) (entryModule applicationPath) = Imported cls /\
               App.new cls = JS.Throw e) ->
  JS.toString e = JS.Return text ->
  let result := loadApplication applicationPath w in
  fst result = JS.Return None /\
  loadedApplications (snd result) = loadedApplications w /\
  calls (snd result)
  = calls w ++ [loading applicationPath; ConsoleError e; failed applicationPath text].
Proof.
  intros [Himport | (cls & Himport & Hnew)] Htext; cbv zeta.
  - rewrite (loadApplication_import_fails _ _ _ Himport), Htext.
    cbn [fst snd registered loadedApplications calls]. now rewrite app_nil_r.
  - rewrite (loadApplication_constructor_fails _ _ _ _ Himport Hnew), Htext.
    cbn [fst snd registered loadedApplications calls]. now rewrite app_nil_r.
Qed.

(** A plugin that is not installed: the import fails with an [Error]
    whose text has name and message. *)
Lemma load_failure_before_registration_witness :
  let result := loadApplication "not-installed" Scenario.boot in
  fst result = JS.Return None /\
  loadedApplications (snd result) = loadedApplications Scenario.boot /\
  calls (snd result)
  = calls Scenario.boot
    ++ [loading "not-installed";
        ConsoleError (JS.Error "Error" ("Cannot find module " +:+ entryModule "not-installed"));
        failed "not-installed" ("Error: Cannot find module " +:+ entryModule "not-installed")].
Proof.
  apply (load_failure_before_registration "not-installed" Scenario.boot
           (JS.Error "Error" ("Cannot find module " +:+ entryModule "not-installed"))).
  - left. vm_compute. reflexivity.
  - vm_compute. reflexivity.
Defined.

(** X9 (loading, no deduplication).  Loading a healthy plugin twice puts
    two instances into the live set and calls its [onLoad] hook twice. *)
Theorem reload_duplicates applicationPath w instance :
  healthy (host w) applicationPath instance ->
  let once := snd (loadApplication applicationPath w) in
  let twice := snd (loadApplication applicationPath once) in
  loadedApplications twice = loadedApplications w ++ [instance; instance] /\
  length (List.filter (is_hook OnLoad) (calls twice))
  = length (List.filter (is_hook OnLoad) (calls w)) + 2.
Proof.
  intros Hh. cbv zeta.
  destruct Hh as (cls & params & Himport & Hsuper & Hhook & ->).
  rewrite (loadApplication_constructed _ w _ _ Himport Hsuper), Hhook. cbn [snd].
  rewrite (loadApplication_constructed _ (registered w _ _) _ _ Himport Hsuper), Hhook.
  cbn [snd registered loadedApplications calls]. split.
  - now rewrite <- app_assoc.
  - rewrite !List.filter_app, !length_app. simpl. lia.
Qed.

Lemma reload_duplicates_witness :
  let once := snd (loadApplication "uk-example-app" Scenario.boot) in
  let twice := snd (loadApplication "uk-example-app" once) in
  loadedApplications twice
  = loadedApplications Scenario.boot ++ [Scenario.exampleApp; Scenario.exampleApp] /\
  length (List.filter (is_hook OnLoad) (calls twice))
  = length (List.filter (is_hook OnLoad) (calls Scenario.boot)) + 2.
Proof.
  apply (reload_duplicates "uk-example-app" Scenario.boot Scenario.exampleApp).
  exists (Scenario.plugin "uk-example-app"), (Scenario.descriptor "uk-example-app").
  repeat split.
Defined.

(** X10 (startup loop, what it registers).  When [toString] returns on
    every value that a plugin of the list throws while it loads, the
    loop returns, and the live set afterwards is the live set before
    followed by what each plugin registers, in the order of the list:
    one instance for every plugin whose import and constructor succeed
    (also when its [onLoad] throws), none for the others. *)
Theorem startup_loop_registers h applications w :
  host w = h -> printable h applications ->
  let result := Main.loadApplications applications w in
  fst result = JS.Return tt /\
  loadedApplications (snd result)
  = loadedApplications w ++ concat (map (registers h) applications).
Proof.
  intros Hh Hsafe. cbv zeta.
  destruct (loadApplications_registered h applications w Hh Hsafe) as (cs & ->).
  split; reflexivity.
Qed.

Lemma startup_loop_registers_witness :
  let applications := ["uk-example-app"; "not-installed"; "bad-onload"] in
  let result := Main.loadApplications applications Scenario.boot in
  fst result = JS.Return tt /\
  loadedApplications (snd result)
  = loadedApplications Scenario.boot
    ++ concat (map (registers Scenario.machine) applications).
Proof.
  apply (startup_loop_registers Scenario.machine
           ["uk-example-app"; "not-installed"; "bad-onload"] Scenario.boot).
  - reflexivity.
  - intros p e Hp Ht. cbn [In] in Hp.
    destruct Hp as [<- | [<- | [<- | []]]]; vm_compute in Ht;
      [discriminate Ht | injection Ht as <- ..]; eexists; vm_compute; reflexivity.
Defined.

(** X11 (application list of the panel).  After the plugin part of a
    startup that began with an empty live set and ran to its end
    ([toString] returns on every value that a plugin threw), [GET
    /core/panel/applications] changes nothing and lists exactly the
    registered instances, in installation order, each with type
    ["frontend"] and endpoint ["/app/a/<id>/"], whatever frontend its
    descriptor declares. *)
Theorem panel_lists_loaded_plugins h applications w :
  host w = h -> printable h applications -> loadedApplications w = [] ->
  let started := snd (Main.startup_applications applications w) in
  exists entries,
    Panel.panelApplications started = (JS.Return entries, started) /\
    map Panel.ae_id entries
    = map (fun a => id (__internal_params a)) (concat (map (registers h) applications)) /\
    Forall (fun e => Panel.ae_type e = "frontend" /\
                     Panel.ae_endpoint e = "/app/a/" +:+ Panel.ae_id e +:+ "/") entries.
Proof.
  intros Hh Hsafe Hempty. cbv zeta.
  assert (E : exists cs,
            Main.startup_applications applications w
            = (JS.Return tt,
               registered w (concat (map (registers h) applications)) cs)).
  { unfold Main.startup_applications, bind, log_info, emit.
    match goal with |- context [Main.loadApplications applications ?w1] =>
      destruct (loadApplications_registered h applications w1 Hh Hsafe) as (cs & ->) end.
    eexists. unfold registered. cbn [host fs panel_configuration loadedApplications calls].
    rewrite <- !app_assoc. reflexivity. }
  destruct E as (cs & ->). cbn [snd].
  unfold Panel.panelApplications, bind, get, ret.
  cbn [registered loadedApplications]. rewrite Hempty. cbn [List.app].
  eexists. split; [reflexivity|]. split.
  - rewrite map_map. reflexivity.
  - apply List.Forall_forall. intros e He. apply in_map_iff in He as (a & <- & _).
    split; reflexivity.
Qed.

Lemma panel_lists_loaded_plugins_witness :
  let applications := ["uk-example-app"; "not-installed"; "bad-onload"] in
  let started := snd (Main.startup_applications applications Scenario.boot) in
  exists entries,
    Panel.panelApplications started = (JS.Return entries, started) /\
    map Panel.ae_id entries
    = map (fun a => id (__internal_params a))
          (concat (map (registers Scenario.machine) applications)) /\
    Forall (fun e => Panel.ae_type e = "frontend" /\
                     Panel.ae_endpoint e = "/app/a/" +:+ Panel.ae_id e +:+ "/") entries.
Proof.
  apply (panel_lists_loaded_plugins Scenario.machine
           ["uk-example-app"; "not-installed"; "bad-onload"] Scenario.boot).
  - reflexivity.
  - intros p e Hp Ht. cbn [In] in Hp.
    destruct Hp as [<- | [<- | [<- | []]]]; vm_compute in Ht;
      [discriminate Ht | injection Ht as <- ..]; eexists; vm_compute; reflexivity.
  - reflexivity.
Defined.

(** X12 (installed plugins).  On an empty table [configuration],
    [getInstalledApplications] throws the [TypeError] of [query.rows[0]];
    otherwise it returns the column [installed_applications] of the row
    with the highest [config_version], and the empty list when that
    column is [NULL]; the state is unchanged. *)
Theorem installed_applications_of_newest table w :
  getInstalledApplications [] w = (JS.Throw (JS.TypeError "undefined is not an object"), w) /\
  (forall row,
     In row table ->
     (forall r, In r table -> r <> row -> config_version r < config_version row) ->
     getInstalledApplications table w
     = (JS.Return (match installed_applications row with
                   | Some val => val
                   | None => []
                   end), w)).
Proof.
  split; [reflexivity|]. intros row Hin Hmax.
  apply getInstalledApplications_newest. now apply newest_highest.
Qed.

(** X13 (startup, plugins of the newest configuration).  When every
    instance logo exists already, the part of [startup] from the logos to
    "All applications have loaded!" returns and registers the plugins
    named by the newest configuration row, in its order, provided
    [toString] returns on every value that one of them throws while it
    loads. *)
Theorem startup_loads_newest_configuration table row w :
  (forall d, In d Instance.requiredDimensions -> present w (logoPath (host w) d) = true) ->
  In row table ->
  (forall r, In r table -> r <> row -> config_version r < config_version row) ->
  let applications :=
    match installed_applications row with Some val => val | None => [] end in
  printable (host w) applications ->
  let result := Instance.startup_plugins table w in
  fst result = JS.Return tt /\
  loadedApplications (snd result)
  = loadedApplications w ++ concat (map (registers (host w)) applications).
Proof.
  intros Hlogos Hin Hmax applications Hsafe. cbv zeta.
  assert (E : exists cs,
            Instance.startup_plugins table w
            = (JS.Return tt,
               registered w (concat (map (registers (host w)) applications)) cs)).
  { unfold Instance.startup_plugins. unfold bind at 1.
    rewrite generateInstanceLogos_eq.
    match goal with |- context [Instance.generateLogos _ _ ?w1] =>
      destruct (generateLogos_present Instance.requiredDimensions w1) as (cs1 & E1 & _) end.
    { intros d Hd. exact (Hlogos d Hd). }
    rewrite host_after in E1. rewrite E1, after_after.
    unfold bind, log_info, emit.
    cbn [after host fs panel_configuration loadedApplications calls].
    rewrite (getInstalledApplications_newest table _ row (newest_highest _ _ Hin Hmax)).
    fold applications.
    match goal with |- context [Main.loadApplications applications ?w1] =>
      destruct (loadApplications_registered (host w) applications w1 eq_refl Hsafe)
        as (cs & ->) end.
    eexists. unfold registered. cbn [host fs panel_configuration loadedApplications calls].
    rewrite <- !app_assoc. reflexivity. }
  destruct E as (cs & ->). split; reflexivity.
Qed.

Lemma startup_loads_newest_configuration_witness :
  let w := Deployment.branded in
  let applications := ["uk-example-app"; "uk-ewsgit-dash"] in
  let result := Instance.startup_plugins Deployment.configuration w in
  fst result = JS.Return tt /\
  loadedApplications (snd result)
  = loadedApplications w ++ concat (map (registers (host w)) applications).
Proof.
  apply (startup_loads_newest_configuration Deployment.configuration Deployment.current
           Deployment.branded).
  - intros d Hd. unfold Instance.requiredDimensions in Hd. cbn [In] in Hd.
    repeat (destruct Hd as [<- | Hd]; [vm_compute; reflexivity|]). contradiction.
  - right. left. reflexivity.
  - intros r [<- | [<- | []]] Hne; [simpl; lia | contradiction].
  - intros p e Hp Ht. cbn [In] in Hp.
    destruct Hp as [<- | [<- | []]]; vm_compute in Ht; discriminate Ht.
Defined.

(** X14 (startup, missing instance logo).  When [instanceLogo.png] is
    missing and at least one rendition of it is missing too, the part of
    [startup] from the logos on throws the rendition error of the logo
    before any plugin is looked up: the live set and the filesystem are
    unchanged. *)
Theorem startup_aborts_without_logo table w :
  at_path w (instanceLogoPath (host w)) = None ->
  (exists d, In d Instance.requiredDimensions /\ present w (logoPath (host w) d) = false) ->
  let result := Instance.startup_plugins table w in
  fst result = JS.Throw (Image.RenditionError (instanceLogoPath (host w))) /\
  loadedApplications (snd result) = loadedApplications w /\
  fs (snd result) = fs w.
Proof.
  intros Hsrc Hmissing. cbv zeta.
  assert (E0 : exists cs,
            Instance.startup_plugins table w
            = (JS.Throw (Image.RenditionError (instanceLogoPath (host w))),
               after w (fs w) cs)).
  { unfold Instance.startup_plugins. unfold bind at 1.
    rewrite generateInstanceLogos_eq.
    match goal with |- context [Instance.generateLogos _ _ ?w1] =>
      destruct (generateLogos_without_source Instance.requiredDimensions w1) as (cs & E) end.
    - exact Hsrc.
    - exact Hmissing.
    - cbn [after host fs] in E |- *. rewrite E, after_after. now eexists. }
  destruct E0 as (cs & ->). repeat split.
Qed.

Lemma startup_aborts_without_logo_witness :
  let w := Scenario.boot in
  let result := Instance.startup_plugins Deployment.configuration w in
  fst result = JS.Throw (Image.RenditionError (instanceLogoPath (host w))) /\
  loadedApplications (snd result) = loadedApplications w /\
  fs (snd result) = fs w.
Proof.
  apply (startup_aborts_without_logo Deployment.configuration Scenario.boot).
  - vm_compute. reflexivity.
  - exists 32. split; [now left | vm_compute; reflexivity].
Defined.

(** ** Quick shortcuts *)

(** X15 (quick shortcuts, create then list).  For a loaded plugin that
    the first row of the user does not pin yet: the create route answers
    [success: true]; the list route then returns the shortcuts it
    returned before followed by the new one; and a second create for
    the same plugin answers [success: false] and changes nothing. *)
Theorem createQuickShortcut_then_listed user applicationId w row0 rest :
  isLoaded w applicationId = true ->
  rowsOf user w = row0 :: rest ->
  ~ In applicationId (pinned_applications row0) ->
  let created := createQuickShortcut user applicationId w in
  fst created = JS.Return (Some true) /\
  (exists shortcuts,
     quickShortcuts user (snd created) = (JS.Return shortcuts, snd created) /\
     map sc_id shortcuts
     = List.filter (isLoaded w) (pinned_applications row0) ++ [applicationId]) /\
  createQuickShortcut user applicationId (snd created)
  = (JS.Return (Some false), snd created).
Proof.
  intros Hloaded Hrows Hnew. cbv zeta.
  assert (Hinc : includes (pinned_applications row0) applicationId = false).
  { destruct (includes _ _) eqn:E; [|reflexivity]. now apply includes_In in E. }
  rewrite createQuickShortcut_cases, Hloaded, Hrows, Hinc. cbn [fst snd].
  set (w' := withPins user (pinned_applications row0 ++ [applicationId]) w).
  assert (Hrows' : rowsOf user w'
                   = {| username := username row0;
                        pinned_applications := pinned_applications row0 ++ [applicationId] |}
                     :: map (fun r => {| username := username r;
                                         pinned_applications :=
                                           pinned_applications row0 ++ [applicationId] |})
                            rest).
  { unfold w'. now rewrite rowsOf_withPins, Hrows. }
  assert (Hloaded' : forall x, isLoaded w' x = isLoaded w x) by reflexivity.
  split; [reflexivity|]. split.
  - unfold quickShortcuts, select_pinned_applications, bind, get, ret.
    fold (rowsOf user w'). rewrite Hrows'. cbn [pinned_applications].
    eexists. split; [reflexivity|].
    rewrite map_map.
    rewrite (map_ext (fun x => sc_id (shortcutOf x)) (fun a => id (__internal_params a)))
      by apply sc_id_shortcutOf.
    change (loadedApplications w') with (loadedApplications w).
    rewrite resolved_ids.
    change (fun a => match findById a (loadedApplications w) with
                     | Some _ => true | None => false end) with (isLoaded w).
    now apply isLoaded_filter_snoc.
  - rewrite createQuickShortcut_cases, Hloaded', Hloaded, Hrows'. cbn [pinned_applications].
    now rewrite includes_snoc.
Qed.

Lemma createQuickShortcut_then_listed_witness :
  let w := Scenario.running in
  let created := createQuickShortcut "admin" "uk-ewsgit-files" w in
  fst created = JS.Return (Some true) /\
  (exists shortcuts,
     quickShortcuts "admin" (snd created) = (JS.Return shortcuts, snd created) /\
     map sc_id shortcuts
     = List.filter (isLoaded w) (pinned_applications Scenario.adminRow)
       ++ ["uk-ewsgit-files"]) /\
  createQuickShortcut "admin" "uk-ewsgit-files" (snd created)
  = (JS.Return (Some false), snd created).
Proof.
  apply (createQuickShortcut_then_listed "admin" "uk-ewsgit-files" Scenario.running
           Scenario.adminRow []).
  - vm_compute. reflexivity.
  - vm_compute. reflexivity.
  - vm_compute. intros [H | [H | [H | []]]]; discriminate H.
Defined.

(** X16 (quick shortcuts, create changes state on success only).  The
    create route never throws; unless it answers [success: true] the
    whole state is as before; it answers nothing for a plugin that is
    not loaded and [success: false] for a user without a row; and in
    every case it leaves host, filesystem, live set and call log
    alone. *)
Theorem createQuickShortcut_changes_on_success_only user applicationId w :
  let result := createQuickShortcut user applicationId w in
  (exists answer, fst result = JS.Return answer) /\
  (fst result <> JS.Return (Some true) -> snd result = w) /\
  (isLoaded w applicationId = false -> fst result = JS.Return None) /\
  (isLoaded w applicationId = true -> rowsOf user w = [] ->
   fst result = JS.Return (Some false)) /\
  host (snd result) = host w /\
  fs (snd result) = fs w /\
  loadedApplications (snd result) = loadedApplications w /\
  calls (snd result) = calls w.
Proof.
  cbv zeta. rewrite createQuickShortcut_cases.
  destruct (isLoaded w applicationId).
  - destruct (rowsOf user w) as [|row0 rest].
    + cbn [fst snd]. split; [now eexists|]. repeat split; congruence.
    + destruct (includes (pinned_applications row0) applicationId); cbn [fst snd].
      * split; [now eexists|]. repeat split; congruence.
      * split; [now eexists|]. split; [intros H; now destruct H|].
        repeat split; congruence.
  - cbn [fst snd]. split; [now eexists|]. repeat split; congruence.
Qed.

(** X17 (quick shortcuts, other users).  The create route keeps the rows
    of the pin table in place with their user names, and leaves the rows
    of every other user exactly as they were. *)
Theorem createQuickShortcut_leaves_other_users user applicationId w :
  let w' := snd (createQuickShortcut user applicationId w) in
  map username (panel_configuration w') = map username (panel_configuration w) /\
  List.filter (fun r => negb (String.eqb (username r) user)) (panel_configuration w')
  = List.filter (fun r => negb (String.eqb (username r) user)) (panel_configuration w) /\
  (forall other, other <> user -> rowsOf other w' = rowsOf other w).
Proof.
  cbv zeta. rewrite createQuickShortcut_cases.
  assert (Hsame : forall pins other, other <> user ->
            rowsOf other (withPins user pins w) = rowsOf other w).
  { intros pins other Hne. unfold rowsOf, withPins.
    cbn [set_panel_configuration panel_configuration].
    induction (panel_configuration w) as [|r t IH]; [reflexivity|].
    cbn [map List.filter].
    destruct (String.eqb (username r) user) eqn:E.
    - cbn [username]. apply String.eqb_eq in E.
      assert (E2 : String.eqb (username r) other = false)
        by (apply String.eqb_neq; congruence).
      rewrite E2. exact IH.
    - destruct (String.eqb (username r) other); [now rewrite IH | exact IH]. }
  destruct (isLoaded w applicationId); [|now repeat split].
  destruct (rowsOf user w) as [|row0 rest]; [now repeat split|].
  destruct (includes (pinned_applications row0) applicationId); [now repeat split|].
  cbn [snd]. split; [apply usernames_withPins|]. split; [apply others_withPins|].
  intros other Hne. now apply Hsame.
Qed.

(** ** Instance logos *)

(** X18 (instance logos, frame).  Whatever [__internal_generateInstanceLogos]
    does, it leaves host, live set and pin table alone, keeps every
    filesystem entry that exists (an existing rendition is never
    overwritten), and creates nothing but renditions
    [instanceLogo<N>.webp] for the required dimensions. *)
Theorem instance_logos_only_add w :
  let w' := snd (Instance.__internal_generateInstanceLogos w) in
  host w' = host w /\
  loadedApplications w' = loadedApplications w /\
  panel_configuration w' = panel_configuration w /\
  (forall loc n, fs w !! loc = Some n -> fs w' !! loc = Some n) /\
  (forall loc, fs w !! loc = None -> fs w' !! loc <> None ->
     exists dimension,
       In dimension Instance.requiredDimensions /\
       loc = Path.locate (cwd (host w)) (logoPath (host w) dimension)).
Proof.
  cbv zeta. rewrite generateInstanceLogos_eq.
  destruct (generateLogos_adds Instance.requiredDimensions
              (after w (fs w) [LogInfo "instance" ["Generating instanceLogos."]]))
    as (f & cs & E & Hk & Hn).
  cbn [after host fs] in E, Hk, Hn. rewrite E.
  cbn [after host fs loadedApplications panel_configuration]. repeat split; assumption.
Qed.

(** X19 (instance logos, generation).  When [instanceLogo.png] is a regular
    file that the image library renders at each required dimension, the
    generator returns; afterwards every rendition exists, the ones that
    existed unchanged and the missing ones rendered from the logo at
    their dimension; the logo itself is unchanged; and a second run
    returns without invoking the resize and without changing the
    filesystem. *)
Theorem instance_logos_generated w content out :
  at_path w (instanceLogoPath (host w)) = Some (File content) ->
  (forall d, In d Instance.requiredDimensions ->
     renderImage (host w) content d d "webp" = Some (out d)) ->
  let result := Instance.__internal_generateInstanceLogos w in
  fst result = JS.Return tt /\
  (forall d, In d Instance.requiredDimensions ->
     at_path (snd result) (logoPath (host w) d)
     = settled (at_path w (logoPath (host w) d)) (File (out d))) /\
  at_path (snd result) (instanceLogoPath (host w)) = Some (File content) /\
  (exists again,
     Instance.__internal_generateInstanceLogos (snd result)
     = (JS.Return tt, after (snd result) (fs (snd result)) again) /\
     resizeCount again = 0).
Proof.
  intros Hsrc Hrender. cbv zeta.
  destruct (logos_generated w content out Hsrc Hrender) as (f & cs & -> & Hd & Hrest).
  cbn [fst snd].
  split; [reflexivity|]. split; [|split].
  - intros d Hin. unfold at_path. cbn [after host fs]. now apply Hd.
  - unfold at_path. cbn [after host fs]. rewrite Hrest; [exact Hsrc|].
    intros d Hin E'. now apply (logo_not_source (host w) d Hin).
  - rewrite generateInstanceLogos_eq. rewrite after_after.
    match goal with |- context [Instance.generateLogos _ _ ?w1] =>
      destruct (generateLogos_present Instance.requiredDimensions w1) as (cs2 & E2 & Hc)
    end.
    + intros d Hin. unfold present, at_path. cbn [after host fs].
      rewrite (Hd d Hin).
      now destruct (settled_some (fs w !! Path.locate (cwd (host w)) (logoPath (host w) d))
                      (File (out d))) as (m & ->).
    + cbn [after host fs] in E2 |- *. rewrite E2. cbn [after host fs]. rewrite ?after_after.
      exists ([LogInfo "instance" ["Generating instanceLogos."]] ++ cs2). split.
      * rewrite after_after. now rewrite <- !app_assoc.
      * rewrite resizeCount_app. now rewrite Hc.
Qed.

Lemma instance_logos_generated_witness :
  let w := Deployment.provisioned in
  let result := Instance.__internal_generateInstanceLogos w in
  fst result = JS.Return tt /\
  (forall d, In d Instance.requiredDimensions ->
     at_path (snd result) (logoPath (host w) d)
     = settled (at_path w (logoPath (host w) d)) (File (Deployment.rendition d))) /\
  at_path (snd result) (instanceLogoPath (host w)) = Some (File [Byte.x0c]) /\
  (exists again,
     Instance.__internal_generateInstanceLogos (snd result)
     = (JS.Return tt, after (snd result) (fs (snd result)) again) /\
     resizeCount again = 0).
Proof.
  apply (instance_logos_generated Deployment.provisioned [Byte.x0c] Deployment.rendition).
  - vm_compute. reflexivity.
  - intros d Hd. reflexivity.
Defined.

(** X20 (instance logos, never refreshed).  When all renditions exist,
    replacing [instanceLogo.png] has no effect on them: the generator
    returns without invoking the resize and without changing the
    filesystem, and every rendition is what it was. *)
Theorem instance_logos_never_refreshed w content :
  (forall d, In d Instance.requiredDimensions -> present w (logoPath (host w) d) = true) ->
  let changed := install (instanceLogoPath (host w)) content w in
  exists cs,
    Instance.__internal_generateInstanceLogos changed
    = (JS.Return tt, after changed (fs changed) cs) /\
    resizeCount cs = 0 /\
    (forall d, In d Instance.requiredDimensions ->
       at_path changed (logoPath (host w) d) = at_path w (logoPath (host w) d)).
Proof.
  intros Hall changed.
  assert (Hsame : forall d, In d Instance.requiredDimensions ->
            at_path changed (logoPath (host w) d) = at_path w (logoPath (host w) d)).
  { intros d Hd. unfold changed, install, at_path. cbn [set_fs host fs].
    apply lookup_insert_ne. intros E. now apply (logo_not_source (host w) d Hd). }
  rewrite generateInstanceLogos_eq.
  match goal with |- context [Instance.generateLogos _ _ ?w1] =>
    destruct (generateLogos_present Instance.requiredDimensions w1) as (cs & E & Hc) end.
  - intros d Hd. specialize (Hsame d Hd). specialize (Hall d Hd).
    unfold present, at_path in *. cbn [after host fs].
    change (host changed) with (host w) in *. now rewrite Hsame.
  - cbn [after host fs] in E |- *. rewrite E, after_after.
    exists ([LogInfo "instance" ["Generating instanceLogos."]] ++ cs).
    split; [reflexivity|]. split; [|exact Hsame].
    rewrite resizeCount_app. now rewrite Hc.
Qed.

Lemma instance_logos_never_refreshed_witness :
  let w := Deployment.branded in
  let changed := install (instanceLogoPath (host w)) [Byte.x0d] w in
  exists cs,
    Instance.__internal_generateInstanceLogos changed
    = (JS.Return tt, after changed (fs changed) cs) /\
    resizeCount cs = 0 /\
    (forall d, In d Instance.requiredDimensions ->
       at_path changed (logoPath (host w) d) = at_path w (logoPath (host w) d)).
Proof.
  apply (instance_logos_never_refreshed Deployment.branded [Byte.x0d]).
  intros d Hd. unfold Instance.requiredDimensions in Hd. cbn [In] in Hd.
  repeat (destruct Hd as [<- | Hd]; [vm_compute; reflexivity|]). contradiction.
Defined.

(** X21 (logo routes).  Provided [commonPaths.SystemDirectory()], which
    the routes call and no source file defines, returns what
    [commonPaths.systemDirectory()] returns: after a generation from a
    logo that renders, on a filesystem that held none of the three
    renditions, the routes [/panel/logo/small], [/panel/logo/medium] and
    [/panel/logo/large] stream the renditions of the logo at 32, 40 and
    128 pixels: the file names that the routes read are the ones that
    the generator writes. *)
Theorem logo_routes_serve_renditions w content out :
  Sys.SystemDirectory (host w) = systemDirectory (host w) ->
  at_path w (instanceLogoPath (host w)) = Some (File content) ->
  (forall d, In d Instance.requiredDimensions ->
     renderImage (host w) content d d "webp" = Some (out d)) ->
  at_path w (logoPath (host w) 32) = None ->
  at_path w (logoPath (host w) 40) = None ->
  at_path w (logoPath (host w) 128) = None ->
  let w' := snd (Instance.__internal_generateInstanceLogos w) in
  fst (Panel.logoSmall w') = JS.Return (Sent "image/webp" (JS.Return (out 32))) /\
  fst (Panel.logoMedium w') = JS.Return (Sent "image/webp" (JS.Return (out 40))) /\
  fst (Panel.logoLarge w') = JS.Return (Sent "image/webp" (JS.Return (out 128))).
Proof.
  intros Hsystem Hsrc Hrender H32 H40 H128. cbv zeta.
  destruct (logos_generated w content out Hsrc Hrender) as (f & cs & -> & Hd & _).
  destruct required_32_40_128 as (I32 & I40 & I128).
  cbn [snd]. unfold at_path in H32, H40, H128. apply logo_routes.
  - exact Hsystem.
  - now rewrite (Hd 32 I32), H32.
  - now rewrite (Hd 40 I40), H40.
  - now rewrite (Hd 128 I128), H128.
Qed.

Lemma logo_routes_serve_renditions_witness :
  let w := Deployment.provisioned in
  let w' := snd (Instance.__internal_generateInstanceLogos w) in
  fst (Panel.logoSmall w')
  = JS.Return (Sent "image/webp" (JS.Return (Deployment.rendition 32))) /\
  fst (Panel.logoMedium w')
  = JS.Return (Sent "image/webp" (JS.Return (Deployment.rendition 40))) /\
  fst (Panel.logoLarge w')
  = JS.Return (Sent "image/webp" (JS.Return (Deployment.rendition 128))).
Proof.
  apply (logo_routes_serve_renditions Deployment.provisioned [Byte.x0c]
           Deployment.rendition).
  - vm_compute. reflexivity.
  - vm_compute. reflexivity.
  - intros d Hd. reflexivity.
  - vm_compute. reflexivity.
  - vm_compute. reflexivity.
  - vm_compute. reflexivity.
Defined.

(** ** The startup check of the filesystem *)

(** X22 (filesystem startup, it only adds).  With a logger whose [error]
    returns, [Filesystem.__internal_startup] never throws, whatever is on
    the disk; it leaves host, live set and pin table alone; every
    filesystem entry that exists is kept as it is; and the only regular
    files it creates are at the targets of its four copies, where nothing
    was. *)
Theorem filesystem_startup_only_adds log w :
  quiet log ->
  let result := FilesystemStartup.__internal_startup log w in
  fst result = JS.Return tt /\
  host (snd result) = host w /\
  loadedApplications (snd result) = loadedApplications w /\
  panel_configuration (snd result) = panel_configuration w /\
  (forall loc n, fs w !! loc = Some n -> fs (snd result) !! loc = Some n) /\
  (forall loc content,
     fs (snd result) !! loc = Some (File content) ->
     fs w !! loc = Some (File content) \/
     exists src dst, In (CopyAsset src dst) (steps (host w)) /\
                     loc = Path.locate (cwd (host w)) dst /\ fs w !! loc = None).
Proof.
  intros Hq. cbv zeta. destruct (startup_provision log w Hq) as (cs & ->).
  cbn [fst snd after host loadedApplications panel_configuration fs].
  repeat split.
  - intros loc n. apply fold_ensure_keeps.
  - intros loc content. apply fold_ensure_files.
Qed.

Lemma filesystem_startup_only_adds_witness :
  let w := Deployment.unpacked in
  let result := FilesystemStartup.__internal_startup Deployment.logger w in
  fst result = JS.Return tt /\
  host (snd result) = host w /\
  loadedApplications (snd result) = loadedApplications w /\
  panel_configuration (snd result) = panel_configuration w /\
  (forall loc n, fs w !! loc = Some n -> fs (snd result) !! loc = Some n) /\
  (forall loc content,
     fs (snd result) !! loc = Some (File content) ->
     fs w !! loc = Some (File content) \/
     exists src dst, In (CopyAsset src dst) (steps (host w)) /\
                     loc = Path.locate (cwd (host w)) dst /\ fs w !! loc = None).
Proof.
  apply (filesystem_startup_only_adds Deployment.logger Deployment.unpacked).
  intros scope messages w0. exists [LogInfo scope messages]. reflexivity.
Defined.

(** X23 (filesystem startup, verification only).  When every target of the
    startup check exists already, the check changes nothing on the
    filesystem. *)
Theorem filesystem_startup_verifies log w :
  quiet log -> laidOut w = true ->
  fs (snd (FilesystemStartup.__internal_startup log w)) = fs w.
Proof.
  intros Hq Hlaid. destruct (startup_provision log w Hq) as (cs & ->).
  cbn [snd after fs]. apply provision_laidOut. now apply laidOut_true.
Qed.

Lemma filesystem_startup_verifies_witness :
  fs (snd (FilesystemStartup.__internal_startup Deployment.logger Deployment.provisioned))
  = fs Deployment.provisioned.
Proof.
  apply (filesystem_startup_verifies Deployment.logger Deployment.provisioned).
  - intros scope messages w0. exists [LogInfo scope messages]. reflexivity.
  - vm_compute. reflexivity.
Defined.

(** X24 (filesystem startup, the layout).  When the working directory
    exists, the three default assets of the backend are regular files and
    no regular file is where the layout wants a directory, the startup
    check leaves a complete layout: the root, [Cache], [Teams], [Users],
    [Defaults], [System] and [Cache/panel/applications] are directories;
    the avatar, the login background, the instance logo and the fallback
    icon are what they were if they existed and copies of their defaults
    otherwise (the fallback icon is a copy of [yourdash.png]); and every
    target exists, so that a second check only verifies. *)
Theorem filesystem_startup_establishes log w avatar background logo :
  quiet log ->
  at_path w (cwd (host w)) = Some Dir ->
  unobstructed w = true ->
  at_path w (defaultAsset (host w) "userAvatar.png") = Some (File avatar) ->
  at_path w (defaultAsset (host w) "default_login_background.avif")
  = Some (File background) ->
  at_path w (defaultAsset (host w) "yourdash.png") = Some (File logo) ->
  let w' := snd (FilesystemStartup.__internal_startup log w) in
  Forall (fun d => at_path w' d = Some Dir) (directories (host w)) /\
  at_path w' (Path.join [defaultsDirectory (host w); "userAvatar.png"])
  = settled (at_path w (Path.join [defaultsDirectory (host w); "userAvatar.png"]))
            (File avatar) /\
  at_path w' (Path.join [systemDirectory (host w); "loginBackground.avif"])
  = settled (at_path w (Path.join [systemDirectory (host w); "loginBackground.avif"]))
            (File background) /\
  at_path w' (Path.join [systemDirectory (host w); "instanceLogo.png"])
  = settled (at_path w (Path.join [systemDirectory (host w); "instanceLogo.png"]))
            (File logo) /\
  at_path w' (Path.join [globalCacheDirectory (host w); "panel"; "invalidIcon.webp"])
  = settled (at_path w (Path.join [globalCacheDirectory (host w); "panel";
                                   "invalidIcon.webp"]))
            (File logo) /\
  laidOut w' = true.
Proof.
  intros Hq Hcwd Hfree Havatar Hbackground Hlogo. cbv zeta.
  destruct (startup_provision log w Hq) as (cs & ->). cbn [snd].
  rewrite unobstructed_true in Hfree.
  unfold at_path in *. cbn [after host fs].
  set (h := host w) in *. set (f := fs w) in *.
  pose proof (established_root h f Hcwd Hfree) as D1.
  assert (Din : forall x, In x ["Cache"; "Teams"; "Users"; "Defaults"; "System"] ->
                          In (workingDirectory h ++ ["fs"; x]) (obstacles h)).
  { intros x Hx. rewrite obstacles_eq. apply in_or_app. right. cbn [In] in Hx |- *.
    destruct Hx as [<- | [<- | [<- | [<- | [<- | []]]]]]; tauto. }
  pose proof (established_below h f Hcwd Hfree 1 (globalCacheDirectory h) "Cache"
                ltac:(lia) eq_refl (location_globalCacheDirectory h)
                (Din "Cache" ltac:(cbn [In]; tauto))) as D2.
  pose proof (established_below h f Hcwd Hfree 2 (teamsDirectory h) "Teams"
                ltac:(lia) eq_refl (location_teamsDirectory h)
                (Din "Teams" ltac:(cbn [In]; tauto))) as D3.
  pose proof (established_below h f Hcwd Hfree 3 (usersDirectory h) "Users"
                ltac:(lia) eq_refl (location_usersDirectory h)
                (Din "Users" ltac:(cbn [In]; tauto))) as D4.
  pose proof (established_below h f Hcwd Hfree 4 (defaultsDirectory h) "Defaults"
                ltac:(lia) eq_refl (location_defaultsDirectory h)
                (Din "Defaults" ltac:(cbn [In]; tauto))) as D5.
  pose proof (established_below h f Hcwd Hfree 5 (systemDirectory h) "System"
                ltac:(lia) eq_refl (location_systemDirectory h)
                (Din "System" ltac:(cbn [In]; tauto))) as D6.
  pose proof (established_panelApplications h f Hfree) as D10.
  pose proof (established_userAvatar h f avatar Hfree Havatar) as A7.
  pose proof (established_loginBackground h f background Hfree Hbackground) as A8.
  pose proof (established_instanceLogo h f logo Hfree Hlogo) as A9.
  pose proof (established_invalidIcon h f logo Hfree Hlogo) as A11.
  rewrite <- location_rootDirectory in D1.
  rewrite <- location_globalCacheDirectory in D2.
  rewrite <- location_teamsDirectory in D3.
  rewrite <- location_usersDirectory in D4.
  rewrite <- location_defaultsDirectory in D5.
  rewrite <- location_systemDirectory in D6.
  rewrite <- location_panelApplications in D10.
  rewrite <- location_userAvatar in A7.
  rewrite <- location_loginBackground in A8.
  rewrite <- location_instanceLogo in A9.
  rewrite <- location_invalidIcon in A11.
  split; [|split; [exact A7|split; [exact A8|split; [exact A9|split; [exact A11|]]]]].
  - unfold directories.
    repeat (apply List.Forall_cons; [assumption|]). apply List.Forall_nil.
  - assert (Hsome : forall before n, settled before n <> None)
      by (intros before n; destruct (settled_some before n) as (m & ->); discriminate).
    pose proof (Hsome (f !! Path.locate (cwd h)
                  (Path.join [defaultsDirectory h; "userAvatar.png"])) (File avatar)) as P7.
    pose proof (Hsome (f !! Path.locate (cwd h)
                  (Path.join [systemDirectory h; "loginBackground.avif"]))
                  (File background)) as P8.
    pose proof (Hsome (f !! Path.locate (cwd h)
                  (Path.join [systemDirectory h; "instanceLogo.png"])) (File logo)) as P9.
    pose proof (Hsome (f !! Path.locate (cwd h)
                  (Path.join [globalCacheDirectory h; "panel"; "invalidIcon.webp"]))
                  (File logo)) as P11.
    rewrite <- A7 in P7. rewrite <- A8 in P8. rewrite <- A9 in P9. rewrite <- A11 in P11.
    apply laidOut_true. cbn [after host fs]. fold h. intros s Hs.
    unfold steps in Hs. cbn [In] in Hs.
    repeat (destruct Hs as [<- | Hs];
            [cbn [target]; first [assumption | congruence]|]).
    contradiction.
Qed.

Lemma filesystem_startup_establishes_witness :
  let w := Deployment.unpacked in
  let w' := snd (FilesystemStartup.__internal_startup Deployment.logger w) in
  Forall (fun d => at_path w' d = Some Dir) (directories (host w)) /\
  at_path w' (Path.join [defaultsDirectory (host w); "userAvatar.png"])
  = settled (at_path w (Path.join [defaultsDirectory (host w); "userAvatar.png"]))
            (File [Byte.x0a]) /\
  at_path w' (Path.join [systemDirectory (host w); "loginBackground.avif"])
  = settled (at_path w (Path.join [systemDirectory (host w); "loginBackground.avif"]))
            (File [Byte.x0b]) /\
  at_path w' (Path.join [systemDirectory (host w); "instanceLogo.png"])
  = settled (at_path w (Path.join [systemDirectory (host w); "instanceLogo.png"]))
            (File [Byte.x0c]) /\
  at_path w' (Path.join [globalCacheDirectory (host w); "panel"; "invalidIcon.webp"])
  = settled (at_path w (Path.join [globalCacheDirectory (host w); "panel";
                                   "invalidIcon.webp"]))
            (File [Byte.x0c]) /\
  laidOut w' = true.
Proof.
  apply (filesystem_startup_establishes Deployment.logger Deployment.unpacked
           [Byte.x0a] [Byte.x0b] [Byte.x0c]).
  - intros scope messages w0. exists [LogInfo scope messages]. reflexivity.
  - vm_compute. reflexivity.
  - vm_compute. reflexivity.
  - vm_compute. reflexivity.
  - vm_compute. reflexivity.
  - vm_compute. reflexivity.
Defined.

(** X25 (first boot).  Provided [commonPaths.SystemDirectory()], which
    the routes call and no source file defines, returns what
    [commonPaths.systemDirectory()] returns: on a machine where the
    backend has not run yet (default assets shipped, no regular file in
    the way, neither login background nor instance logo nor any rendition
    present) and whose image library renders the shipped logo, the
    startup check followed by the logo generator makes
    [/login/instance/background] stream the default background and the
    three logo routes stream the renditions of the shipped
    [yourdash.png] at 32, 40 and 128 pixels. *)
Theorem first_boot_serves_defaults log w avatar background logo out :
  Sys.SystemDirectory (host w) = systemDirectory (host w) ->
  quiet log ->
  unobstructed w = true ->
  at_path w (defaultAsset (host w) "userAvatar.png") = Some (File avatar) ->
  at_path w (defaultAsset (host w) "default_login_background.avif")
  = Some (File background) ->
  at_path w (defaultAsset (host w) "yourdash.png") = Some (File logo) ->
  at_path w (Path.join [systemDirectory (host w); "loginBackground.avif"]) = None ->
  at_path w (instanceLogoPath (host w)) = None ->
  (forall d, In d Instance.requiredDimensions ->
     at_path w (logoPath (host w) d) = None /\
     renderImage (host w) logo d d "webp" = Some (out d)) ->
  let checked := snd (FilesystemStartup.__internal_startup log w) in
  let generated := Instance.__internal_generateInstanceLogos checked in
  fst generated = JS.Return tt /\
  fst (Panel.loginBackground (snd generated))
  = JS.Return (Sent "image/avif" (JS.Return background)) /\
  fst (Panel.logoSmall (snd generated))
  = JS.Return (Sent "image/webp" (JS.Return (out 32))) /\
  fst (Panel.logoMedium (snd generated))
  = JS.Return (Sent "image/webp" (JS.Return (out 40))) /\
  fst (Panel.logoLarge (snd generated))
  = JS.Return (Sent "image/webp" (JS.Return (out 128))).
Proof.
  intros Hsystem Hq Hfree Havatar Hbackground Hlogo Hnobg Hnologo Hdims. cbv zeta.
  destruct (startup_provision log w Hq) as (cs0 & ->).
  rewrite (snd_pair (JS.Return tt) (after w (provision (host w) (fs w)) cs0)).
  rewrite unobstructed_true in Hfree.
  pose proof (established_loginBackground (host w) (fs w) background Hfree Hbackground)
    as Hbg.
  pose proof (established_instanceLogo (host w) (fs w) logo Hfree Hlogo) as Hsrc.
  rewrite <- location_loginBackground in Hbg. rewrite <- location_instanceLogo in Hsrc.
  fold (at_path w (Path.join [systemDirectory (host w); "loginBackground.avif"])) in Hbg.
  fold (at_path w (Path.join [systemDirectory (host w); "instanceLogo.png"])) in Hsrc.
  fold (instanceLogoPath (host w)) in Hsrc.
  rewrite Hnologo in Hsrc. rewrite Hnobg in Hbg.
  rewrite settled_none in Hsrc, Hbg.
  set (P := provision (host w) (fs w)) in *.
  destruct (logos_generated (after w P cs0) logo out) as (f & cs & E & Hd & Hrest).
  - rewrite host_after, at_path_after. exact Hsrc.
  - intros d Hin. rewrite host_after. now apply Hdims.
  - rewrite E. rewrite fst_pair, snd_pair. rewrite after_after.
    rewrite host_after in Hd, Hrest. rewrite fs_after in Hd, Hrest.
    destruct required_32_40_128 as (I32 & I40 & I128).
    assert (Hlogo_d : forall d, In d Instance.requiredDimensions ->
              f !! Path.locate (cwd (host w)) (logoPath (host w) d) = Some (File (out d))).
    { intros d Hin. rewrite (Hd d Hin). unfold P.
      rewrite (provision_leaves_logos (host w) (fs w) d Hin).
      destruct (Hdims d Hin) as [Hnone _]. unfold at_path in Hnone. rewrite Hnone.
      apply settled_none. }
    split; [reflexivity|]. split.
    + rewrite loginBackground_eq, fst_pair, host_after, fs_after. f_equal. f_equal.
      rewrite Hsystem.
      apply stream_of_file. rewrite Hrest; [exact Hbg|].
      intros d Hin. rewrite location_loginBackground, (logo_location _ _ Hin).
      unfold Instance.requiredDimensions in Hin. cbn [In] in Hin.
      repeat (destruct Hin as [<- | Hin]; [apart|]). contradiction.
    + apply logo_routes; [exact Hsystem | apply Hlogo_d; assumption ..].
Qed.

Lemma first_boot_serves_defaults_witness :
  let checked :=
    snd (FilesystemStartup.__internal_startup Deployment.logger Deployment.unpacked) in
  let generated := Instance.__internal_generateInstanceLogos checked in
  fst generated = JS.Return tt /\
  fst (Panel.loginBackground (snd generated))
  = JS.Return (Sent "image/avif" (JS.Return [Byte.x0b])) /\
  fst (Panel.logoSmall (snd generated))
  = JS.Return (Sent "image/webp" (JS.Return (Deployment.rendition 32))) /\
  fst (Panel.logoMedium (snd generated))
  = JS.Return (Sent "image/webp" (JS.Return (Deployment.rendition 40))) /\
  fst (Panel.logoLarge (snd generated))
  = JS.Return (Sent "image/webp" (JS.Return (Deployment.rendition 128))).
Proof.
  apply (first_boot_serves_defaults Deployment.logger Deployment.unpacked
           [Byte.x0a] [Byte.x0b] [Byte.x0c] Deployment.rendition).
  - vm_compute. reflexivity.
  - intros scope messages w0. exists [LogInfo scope messages]. reflexivity.
  - vm_compute. reflexivity.
  - vm_compute. reflexivity.
  - vm_compute. reflexivity.
  - vm_compute. reflexivity.
  - vm_compute. reflexivity.
  - vm_compute. reflexivity.
  - intros d Hd. split; [|reflexivity].
    unfold Instance.requiredDimensions in Hd. cbn [In] in Hd.
    repeat (destruct Hd as [<- | Hd]; [vm_compute; reflexivity|]). contradiction.
Defined.
